(** * Workflow_Automation: the workflow execution engine

    A shallow embedding of [src/workflow_builder] (models, storage,
    connectors, engine) and the properties its specification states.

    Conventions of the embedding.
    - A Python [Dict[str, Any]] that the engine reads by key (a run's
      context, a step's raw config) is a [gmap string value]; a dict or
      list nested inside a value keeps its items in order.
    - A raised exception is the [Raise] case of [result]; an [exn] holds
      the exception class and the text [str(e)] yields.
    - Python objects that the code mutates in place are threaded
      explicitly; where two names denote one dict object the sharing
      is part of the model (see [StepRun.output]).
    - Floating-point values are not modelled; strings are byte strings
      and the character classes of [str.format] and [repr] are the
      ASCII ones. *)

From Stdlib Require Import ZArith String Ascii List Lia.
From stdpp Require Import base option list strings gmap sets pretty.

Local Open Scope string_scope.
Local Open Scope Z_scope.

(** ** Python values and exceptions *)

Unset Elimination Schemes.
Inductive value : Type :=
| VNone
| VBool (b : bool)
| VInt (n : Z)
| VStr (s : string)
| VList (l : list value)
| VDict (d : list (string * value)).
Set Elimination Schemes.

Abbreviation dict := (gmap string value).

(** Equality of values is decidable. *)
Fixpoint value_eq_dec (a b : value) {struct a} : {a = b} + {a <> b}.
Proof.
  refine (match a, b with
          | VNone, VNone => left eq_refl
          | VBool x, VBool y => if decide (x = y) then left _ else right _
          | VInt x, VInt y => if decide (x = y) then left _ else right _
          | VStr x, VStr y => if decide (x = y) then left _ else right _
          | VList l, VList l' =>
              if (fix go (l l' : list value) {struct l} : {l = l'} + {l <> l'} :=
                    match l, l' with
                    | [], [] => left eq_refl
                    | x :: l, y :: l' =>
                        match value_eq_dec x y, go l l' with
                        | left _, left _ => left _
                        | _, _ => right _
                        end
                    | _, _ => right _
                    end) l l' then left _ else right _
          | VDict d, VDict d' =>
              if (fix go (d d' : list (string * value)) {struct d} : {d = d'} + {d <> d'} :=
                    match d, d' with
                    | [], [] => left eq_refl
                    | (k, x) :: d, (k', y) :: d' =>
                        match decide (k = k'), value_eq_dec x y, go d d' with
                        | left _, left _, left _ => left _
                        | _, _, _ => right _
                        end
                    | _, _ => right _
                    end) d d' then left _ else right _
          | _, _ => right _
          end); try congruence.
Defined.
#[global] Instance value_eq : EqDecision value := value_eq_dec.

Inductive exn_class : Type :=
| ValueError
| KeyError
| IndexError
| TypeError
| AttributeError
| ValidationError      (* pydantic_core.ValidationError *)
| NotFoundError        (* storage.base.NotFoundError *)
| AlreadyExistsError   (* storage.base.AlreadyExistsError *)
| OtherError (name : string).

Record exn : Type := Exn { exn_cls : exn_class; exn_str : string }.

Inductive result (A : Type) : Type :=
| Ok (a : A)
| Raise (e : exn).
Arguments Ok {A} a.
Arguments Raise {A} e.

#[global] Instance result_bind : MBind result := fun A B k r =>
  match r with
  | Ok a => k a
  | Raise e => Raise e
  end.

Definition is_ok {A} (r : result A) : bool :=
  match r with Ok _ => true | Raise _ => false end.

(** ** The Python built-ins the code relies on *)
Module Py.

(** [bool(s)] for a string and for a dict. *)
Definition truthy_str (s : string) : bool :=
  match s with EmptyString => false | _ => true end.

Definition truthy_dict {A} (d : gmap string A) : bool :=
  negb (bool_decide (d = ∅)).

Definition quote1 : ascii := ascii_of_nat 39.
Definition quote2 : ascii := ascii_of_nat 34.
Definition backslash : ascii := ascii_of_nat 92.

Definition has_char (c : ascii) (s : string) : bool :=
  bool_decide (c ∈ list_ascii_of_string s).

Definition hex_digit (n : nat) : ascii :=
  if (n <? 10)%nat then ascii_of_nat (48 + n) else ascii_of_nat (87 + n).

Definition repr_char (q c : ascii) : string :=
  let n := nat_of_ascii c in
  if bool_decide (c = q) || bool_decide (c = backslash)
  then String backslash (String c "")
  else if (n =? 9)%nat then String backslash "t"
  else if (n =? 10)%nat then String backslash "n"
  else if (n =? 13)%nat then String backslash "r"
  else if (n <? 32)%nat || (n =? 127)%nat
  then String backslash
         (String "x" (String (hex_digit (n / 16)) (String (hex_digit (n mod 16)) "")))
  else String c "".

(** [repr(s)]: single quotes, unless the text holds a single quote and
    no double quote. *)
Definition repr_str (s : string) : string :=
  let q := if has_char quote1 s && negb (has_char quote2 s) then quote2 else quote1 in
  String q (String.concat "" (map (repr_char q) (list_ascii_of_string s)) ++ String q "").

(** [str(n)] and [repr(n)] of an [int]: refused when the number has
    more than 4300 digits. *)
Definition int_max_str_digits : nat := 4300.

Definition int_digits (n : Z) : nat := String.length (pretty (Z.abs n)).

Definition int_str (n : Z) : result string :=
  if bool_decide (int_max_str_digits < int_digits n)%nat
  then Raise (Exn ValueError
                "Exceeds the limit (4300 digits) for integer string conversion; use sys.set_int_max_str_digits() to increase the limit")
  else Ok (pretty n).

(** [repr(v)]; the first integer that is too long raises. *)
Fixpoint repr (v : value) : result string :=
  match v with
  | VNone => Ok "None"
  | VBool true => Ok "True"
  | VBool false => Ok "False"
  | VInt n => int_str n
  | VStr s => Ok (repr_str s)
  | VList l =>
      r ← (fix elems (l : list value) : result (list string) :=
             match l with
             | [] => Ok []
             | x :: l' => t ← repr x; r ← elems l'; Ok (t :: r)
             end) l;
      Ok ("[" ++ String.concat ", " r ++ "]")
  | VDict d =>
      r ← (fix items (d : list (string * value)) : result (list string) :=
             match d with
             | [] => Ok []
             | (k, x) :: d' =>
                 t ← repr x; r ← items d'; Ok ((repr_str k ++ ": " ++ t) :: r)
             end) d;
      Ok ("{" ++ String.concat ", " r ++ "}")
  end.

(** [str(v)], which is also [format(v, '')] for these types. *)
Definition str (v : value) : result string :=
  match v with
  | VStr s => Ok s
  | _ => repr v
  end.

(** Texts of ASCII characters. [repr_str] is [repr] of such a text; for
    other texts what [repr] escapes depends on the Unicode database. *)
Definition ascii_char (c : ascii) : bool := (nat_of_ascii c <? 128)%nat.

Definition ascii_only (s : string) : bool :=
  forallb ascii_char (list_ascii_of_string s).

Fixpoint ascii_value (v : value) : bool :=
  match v with
  | VStr s => ascii_only s
  | VList l => forallb ascii_value l
  | VDict d => forallb (fun kv => ascii_only (fst kv) && ascii_value (snd kv)) d
  | _ => true
  end.

(** The values whose [str] the definitions above give: a string is
    its own [str] whatever it holds; the [str] of a list or dict takes
    the [repr] of the strings inside. *)
Definition text_known (v : value) : bool :=
  match v with
  | VStr _ => true
  | _ => ascii_value v
  end.

(** [needle in hay] for strings. *)
Fixpoint contains (needle hay : string) : bool :=
  String.prefix needle hay ||
  match hay with
  | EmptyString => false
  | String _ hay' => contains needle hay'
  end.

(** [s.upper()] on ASCII letters. *)
Definition upper_char (c : ascii) : ascii :=
  let n := nat_of_ascii c in
  if (97 <=? n)%nat && (n <=? 122)%nat then ascii_of_nat (n - 32) else c.

Definition upper (s : string) : string :=
  string_of_list_ascii (map upper_char (list_ascii_of_string s)).

(** [float(n)] of an [int] raises [OverflowError] from
    [2**1024 - 2**970] on: the number rounds to a float above the
    largest one. *)
Definition float_overflow (n : Z) : bool :=
  bool_decide (2 ^ 1024 - 2 ^ 970 ≤ n).

(** [d.get(key)] on the items of a dict kept in order. *)
Fixpoint get {A} (key : string) (items : list (string * A)) : option A :=
  match items with
  | [] => None
  | (k, v) :: items' => if bool_decide (k = key) then Some v else get key items'
  end.

Definition is_digit (c : ascii) : bool :=
  let n := nat_of_ascii c in (48 <=? n)%nat && (n <=? 57)%nat.

Definition all_digits (s : string) : bool :=
  forallb is_digit (list_ascii_of_string s).

(** Characters that end the plain part of a replacement field: an
    attribute or index access, a conversion or a format spec follows,
    or the character is not ASCII (whether a name of such characters is
    a number is the Unicode database's). *)
Definition compound_char (c : ascii) : bool :=
  bool_decide (c ∈ ["."; "["; "!"; ":"]%char) || negb (ascii_char c).

Inductive scan_mode : Type :=
| Literal
| Field (name : string).

Section Format.

(** What [str.format] does from a replacement field on that is
    positional by number, carries an attribute or index access, a
    conversion or a format spec, has a name that is not ASCII, or
    stands for a list or dict holding text that is not ASCII: the text
    starts at that field's opening brace. It is Python's, not this
    repository's, and no property below depends on it. *)
Variable format_tail : string -> dict -> result string.

(** [s.format] applied to keyword arguments only, scanning left to right as CPython's
    MarkupIterator does; the first error met is the one raised. *)
Fixpoint format_scan (kwargs : dict) (m : scan_mode) (s : string) : result string :=
  match m with
  | Literal =>
      match s with
      | EmptyString => Ok ""
      | String c s' =>
          if bool_decide (c = "{"%char) then
            match s' with
            | EmptyString =>
                Raise (Exn ValueError "Single '{' encountered in format string")
            | String c' s'' =>
                if bool_decide (c' = "{"%char)
                then r ← format_scan kwargs Literal s''; Ok (String "{" r)
                else format_scan kwargs (Field "") s'
            end
          else if bool_decide (c = "}"%char) then
            match s' with
            | String "}" s'' =>
                r ← format_scan kwargs Literal s''; Ok (String "}" r)
            | _ => Raise (Exn ValueError "Single '}' encountered in format string")
            end
          else r ← format_scan kwargs Literal s'; Ok (String c r)
      end
  | Field name =>
      match s with
      | EmptyString => Raise (Exn ValueError "expected '}' before end of string")
      | String c s' =>
          if bool_decide (c = "{"%char) then
            Raise (Exn ValueError "unexpected '{' in field name")
          else if bool_decide (c = "}"%char) then
            if bool_decide (name = "") then
              Raise (Exn IndexError
                       "Replacement index 0 out of range for positional args tuple")
            else if all_digits name then
              format_tail (String "{" (name ++ s)) kwargs
            else
              match kwargs !! name with
              | None => Raise (Exn KeyError (repr_str name))
              | Some v =>
                  if text_known v
                  then t ← str v; r ← format_scan kwargs Literal s'; Ok (t ++ r)
                  else format_tail (String "{" (name ++ s)) kwargs
              end
          else if compound_char c then
            format_tail (String "{" (name ++ s)) kwargs
          else format_scan kwargs (Field (name ++ String c "")) s'
      end
  end.

Definition format (s : string) (kwargs : dict) : result string :=
  format_scan kwargs Literal s.

End Format.

End Py.

(** The text of a pydantic [ValidationError] is abridged to its heading,
    the location and the message; the bracketed details and the
    documentation link of the real text are left out. *)
Definition pydantic_error (model loc msg : string) : exn :=
  Exn ValidationError
    ("1 validation error for " ++ model ++ String (ascii_of_nat 10) loc
       ++ String (ascii_of_nat 10) "  " ++ msg).

Abbreviation datetime := Z.

(** ** models/workflow.py *)

Module WorkflowStatus.
Inductive t : Type := ACTIVE | PAUSED | DISABLED.
End WorkflowStatus.

Module StepType.
Inductive t : Type := DELAY | WEBHOOK.

#[global] Instance eq_dec : EqDecision t.
Proof. solve_decision. Defined.

(** [str(member)] as string formatting renders it (Python 3.11 on). *)
Definition str (ty : t) : string :=
  match ty with
  | DELAY => "StepType.DELAY"
  | WEBHOOK => "StepType.WEBHOOK"
  end.
End StepType.

Module StepDefinition.
Record t : Type := mk {
  id : string;
  type : StepType.t;
  config : dict;
  next_step_id : option string
}.
End StepDefinition.

Module WorkflowDefinition.
Record t : Type := mk {
  id : string;
  name : string;
  description : option string;
  entry_point : string;
  steps : list StepDefinition.t;
  status : WorkflowStatus.t;
  created_at : datetime;
  updated_at : datetime
}.

Definition step_ids (steps : list StepDefinition.t) : list string :=
  map StepDefinition.id steps.

(** field validator of [steps]: [len(step_ids) != len(set(step_ids))]. *)
Definition validate_steps (steps : list StepDefinition.t)
  : result (list StepDefinition.t) :=
  let ids := step_ids steps in
  if bool_decide (length ids ≠ size (list_to_set ids : gset string))
  then Raise (Exn ValueError "Step IDs must be unique within a workflow")
  else Ok steps.

Definition dangling (ids : gset string) (step : StepDefinition.t) : bool :=
  match StepDefinition.next_step_id step with
  | Some n => bool_decide (n ∉ ids)
  | None => false
  end.

(** model validator, run after the fields. *)
Definition validate_entry_point (self : t) : result t :=
  let ids : gset string := list_to_set (step_ids (steps self)) in
  if bool_decide (entry_point self ∉ ids)
  then Raise (Exn ValueError
                ("entry_point '" ++ entry_point self ++ "' must be a valid step ID"))
  else
    match List.find (dangling ids) (steps self) with
    | Some step =>
        Raise (Exn ValueError
                 ("next_step_id '" ++ default "" (StepDefinition.next_step_id step)
                    ++ "' in step '" ++ StepDefinition.id step
                    ++ "' is not a valid step ID"))
    | None => Ok self
    end.

(** Construction of the model from field values of the right types:
    the field validator, then the model validator; a [ValueError] of
    either surfaces as pydantic's [ValidationError]. *)
Definition construct (fields : t) : result t :=
  match validate_steps (steps fields) with
  | Raise e => Raise (pydantic_error "WorkflowDefinition" "steps" ("Value error, " ++ exn_str e))
  | Ok _ =>
      match validate_entry_point fields with
      | Raise e => Raise (pydantic_error "WorkflowDefinition" "" ("Value error, " ++ exn_str e))
      | Ok self => Ok self
      end
  end.

Definition get_step (self : t) (step_id : string) : option StepDefinition.t :=
  List.find (fun step => bool_decide (StepDefinition.id step = step_id)) (steps self).

Definition get_next_step_id (self : t) (current_step_id : string) : option string :=
  match get_step self current_step_id with
  | None => None
  | Some current_step => StepDefinition.next_step_id current_step
  end.
End WorkflowDefinition.

(** ** models/run.py *)

Module RunStatus.
Inductive t : Type := PENDING | RUNNING | COMPLETED | FAILED | PAUSED.

#[global] Instance eq_dec : EqDecision t.
Proof. solve_decision. Defined.
End RunStatus.

Module StepStatus.
Inductive t : Type := PENDING | RUNNING | COMPLETED | FAILED | SKIPPED.

#[global] Instance eq_dec : EqDecision t.
Proof. solve_decision. Defined.
End StepStatus.

Module StepRun.
(** The dict object an [output] field refers to: a dict of its own, or
    the very dict object held in the run's [context] (a connector that
    returns its argument hands that object back). *)
Inductive dict_ref : Type :=
| Own (d : dict)
| RunContext.

Record t : Type := mk {
  step_id : string;
  status : StepStatus.t;
  start_time : option datetime;
  end_time : option datetime;
  error : option string;
  output : option dict_ref
}.

(** [StepRun(step_id=step_id)] *)
Definition new (step_id : string) : t :=
  mk step_id StepStatus.PENDING None None None None.

(** The property [duration_seconds]: the seconds from start to end,
    when both times are set. *)
Definition duration_seconds (self : t) : option Z :=
  match start_time self, end_time self with
  | Some s, Some e => Some (e - s)
  | _, _ => None
  end.
End StepRun.

Module WorkflowRun.
Record t : Type := mk {
  run_id : string;
  workflow_id : string;
  status : RunStatus.t;
  created_at : datetime;
  started_at : option datetime;
  completed_at : option datetime;
  context : dict;
  steps : gmap string StepRun.t;
  current_step_id : option string;
  error : option string
}.

(** [WorkflowRun(run_id=.., workflow_id=.., status=..)] at time [now]. *)
Definition new (run_id workflow_id : string) (status : RunStatus.t) (now : datetime) : t :=
  mk run_id workflow_id status now None None ∅ ∅ None None.

Definition set_status (v : RunStatus.t) (r : t) : t :=
  mk (run_id r) (workflow_id r) v (created_at r) (started_at r) (completed_at r)
     (context r) (steps r) (current_step_id r) (error r).
Definition set_started_at (v : option datetime) (r : t) : t :=
  mk (run_id r) (workflow_id r) (status r) (created_at r) v (completed_at r)
     (context r) (steps r) (current_step_id r) (error r).
Definition set_completed_at (v : option datetime) (r : t) : t :=
  mk (run_id r) (workflow_id r) (status r) (created_at r) (started_at r) v
     (context r) (steps r) (current_step_id r) (error r).
Definition set_context (v : dict) (r : t) : t :=
  mk (run_id r) (workflow_id r) (status r) (created_at r) (started_at r) (completed_at r)
     v (steps r) (current_step_id r) (error r).
Definition set_steps (v : gmap string StepRun.t) (r : t) : t :=
  mk (run_id r) (workflow_id r) (status r) (created_at r) (started_at r) (completed_at r)
     (context r) v (current_step_id r) (error r).
Definition set_current_step_id (v : option string) (r : t) : t :=
  mk (run_id r) (workflow_id r) (status r) (created_at r) (started_at r) (completed_at r)
     (context r) (steps r) v (error r).
Definition set_error (v : option string) (r : t) : t :=
  mk (run_id r) (workflow_id r) (status r) (created_at r) (started_at r) (completed_at r)
     (context r) (steps r) (current_step_id r) v.

(** The dict a reference denotes inside run [self]. *)
Definition deref (self : t) (d : StepRun.dict_ref) : dict :=
  match d with
  | StepRun.Own d => d
  | StepRun.RunContext => context self
  end.

Definition add_step (step_id : string) (self : t) : t :=
  match steps self !! step_id with
  | Some _ => self
  | None => set_steps (<[step_id := StepRun.new step_id]> (steps self)) self
  end.

Definition start_step (now : datetime) (step_id : string) (self : t) : t :=
  let self := match steps self !! step_id with
              | Some _ => self
              | None => add_step step_id self
              end in
  let self :=
    set_steps
      (alter (fun s => StepRun.mk (StepRun.step_id s) StepStatus.RUNNING (Some now)
                         (StepRun.end_time s) (StepRun.error s) (StepRun.output s))
             step_id (steps self)) self in
  if bool_decide (status self = RunStatus.PENDING)
  then set_started_at (Some now) (set_status RunStatus.RUNNING self)
  else self.

(** [output or {}]: an empty dict is replaced by a fresh one. *)
Definition complete_step (now : datetime) (step_id : string)
    (output : option StepRun.dict_ref) (self : t) : t :=
  match steps self !! step_id with
  | Some _ =>
      let out :=
        match output with
        | Some d => if Py.truthy_dict (deref self d) then d else StepRun.Own ∅
        | None => StepRun.Own ∅
        end in
      set_steps
        (alter (fun s => StepRun.mk (StepRun.step_id s) StepStatus.COMPLETED
                           (StepRun.start_time s) (Some now) (StepRun.error s) (Some out))
               step_id (steps self)) self
  | None => self
  end.

Definition fail_step (now : datetime) (step_id : string) (error : string) (self : t) : t :=
  match steps self !! step_id with
  | Some _ =>
      let self :=
        set_steps
          (alter (fun s => StepRun.mk (StepRun.step_id s) StepStatus.FAILED
                             (StepRun.start_time s) (Some now) (Some error)
                             (StepRun.output s))
                 step_id (steps self)) self in
      set_error (Some error)
        (set_completed_at (Some now) (set_status RunStatus.FAILED self))
  | None => self
  end.

Definition complete_run (now : datetime) (self : t) : t :=
  set_completed_at (Some now) (set_status RunStatus.COMPLETED self).

(** [update_context(self, **updates)]: the call binds the keywords
    first, and a keyword named like the method's own first parameter
    is a [TypeError]; otherwise [self.context.update(updates)]. *)
Definition update_context (updates : dict) (self : t) : result t :=
  if bool_decide (is_Some (updates !! "self"))
  then Raise (Exn TypeError
                "WorkflowRun.update_context() got multiple values for argument 'self'")
  else Ok (set_context (updates ∪ context self) self).

Definition get_step (self : t) (step_id : string) : option StepRun.t :=
  steps self !! step_id.

Definition get_current_step (self : t) : option StepRun.t :=
  match current_step_id self with
  | Some s => if Py.truthy_str s then get_step self s else None
  | None => None
  end.

Definition duration_seconds (self : t) : option Z :=
  match started_at self, completed_at self with
  | Some s, Some e => Some (e - s)
  | _, _ => None
  end.

(** What [model_dump_json] writes and [model_validate_json] reads
    back: the values, with no sharing left between the dicts. *)
Definition model_dump (self : t) : t :=
  set_steps
    ((fun s => StepRun.mk (StepRun.step_id s) (StepRun.status s) (StepRun.start_time s)
                 (StepRun.end_time s) (StepRun.error s)
                 (StepRun.Own ∘ deref self <$> StepRun.output s))
       <$> steps self) self.
End WorkflowRun.

(** ** storage/filesystem.py *)

(** What the generic storage reads off an entity:
    [getattr(entity, 'id', None)], [getattr(entity, 'run_id', None)]
    and the name of its model class. *)
Class Entity (T : Type) : Type := {
  attr_id : T -> option string;
  attr_run_id : T -> option string;
  class_name : string
}.

#[global] Instance WorkflowDefinition_entity : Entity WorkflowDefinition.t := {|
  attr_id := fun w => Some (WorkflowDefinition.id w);
  attr_run_id := fun _ => None;
  class_name := "WorkflowDefinition"
|}.

#[global] Instance WorkflowRun_entity : Entity WorkflowRun.t := {|
  attr_id := fun _ => None;
  attr_run_id := fun r => Some (WorkflowRun.run_id r);
  class_name := "WorkflowRun"
|}.

Module FilesystemStorage.

(** What the path [storage_dir / f"{id}.json"] is to the file system:
    a file, known by the name it has in the map of files below, which
    may exist or not; a path whose parent directory is missing, so that
    [exists()] is false and writing to it raises [e]; or a path the file
    system refuses, [exists()] itself raising [e]. *)
Inductive location : Type :=
| File (key : string)
| NoParent (e : exn)
| Unusable (e : exn).

Section Generic.

(** [T] is the model class and [D] the text of a file. The files the
    storage can reach form a finite map from names to contents; the
    entries of the storage directory itself are the names without a
    separator. [locate] is the file system's reading of a path, and
    the two codec functions are the model's: both can raise. *)
Context {T D : Type} `{Entity T}.
Variable locate : string -> location.
Variable model_dump_json : T -> result D.
Variable model_validate_json : D -> result T.

(** The name [f"{id}.json"]: the entry of the storage directory that
    the path is when the id is a plain file name. *)
Definition entity_file (id : string) : string := id ++ ".json".

(** [getattr(entity, 'id', None) or getattr(entity, 'run_id', None)] *)
Definition entity_id (entity : T) : option string :=
  match attr_id entity with
  | Some s => if Py.truthy_str s then Some s else attr_run_id entity
  | None => attr_run_id entity
  end.

(** [not entity_id] *)
Definition falsy_id (i : option string) : bool :=
  match i with
  | Some s => negb (Py.truthy_str s)
  | None => true
  end.

Definition no_id_error : exn :=
  Exn ValueError "Entity must have an 'id' or 'run_id' attribute.".
Definition exists_error (id : string) : exn :=
  Exn AlreadyExistsError (class_name ++ " with ID " ++ id ++ " already exists.").
Definition missing_error (id : string) : exn :=
  Exn NotFoundError (class_name ++ " with ID " ++ id ++ " not found.").

(** [entity_file.write_text(entity.model_dump_json(indent=4))]: the
    text is made first, then the file is opened. *)
Definition write_text (entity : T) (where_ : location) (dir : gmap string D)
  : result T * gmap string D :=
  match model_dump_json entity with
  | Raise e => (Raise e, dir)
  | Ok text =>
      match where_ with
      | File key => (Ok entity, <[key := text]> dir)
      | NoParent e | Unusable e => (Raise e, dir)
      end
  end.

Definition _create (entity : T) (dir : gmap string D) : result T * gmap string D :=
  let i := entity_id entity in
  if falsy_id i then (Raise no_id_error, dir)
  else
    let id := default "" i in
    match locate id with
    | Unusable e => (Raise e, dir)
    | NoParent e => write_text entity (NoParent e) dir
    | File key =>
        match dir !! key with
        | Some _ => (Raise (exists_error id), dir)
        | None => write_text entity (File key) dir
        end
    end.

Definition _get (id : string) (dir : gmap string D) : result T :=
  match locate id with
  | Unusable e => Raise e
  | NoParent _ => Raise (missing_error id)
  | File key =>
      match dir !! key with
      | None => Raise (missing_error id)
      | Some text => model_validate_json text
      end
  end.

Definition _update (entity : T) (dir : gmap string D) : result T * gmap string D :=
  let i := entity_id entity in
  if falsy_id i then (Raise no_id_error, dir)
  else
    let id := default "" i in
    match locate id with
    | Unusable e => (Raise e, dir)
    | NoParent _ => (Raise (missing_error id), dir)
    | File key =>
        match dir !! key with
        | None => (Raise (missing_error id), dir)
        | Some _ => write_text entity (File key) dir
        end
    end.

Definition _delete (id : string) (dir : gmap string D) : result unit * gmap string D :=
  match locate id with
  | Unusable e => (Raise e, dir)
  | NoParent _ => (Raise (missing_error id), dir)
  | File key =>
      match dir !! key with
      | None => (Raise (missing_error id), dir)
      | Some _ => (Ok tt, delete key dir)
      end
  end.

Definition create := _create.

(** [delete_workflow]: [True] once [_delete] has returned. *)
Definition delete_workflow (workflow_id : string) (dir : gmap string D)
  : result bool * gmap string D :=
  let '(r, dir) := _delete workflow_id dir in
  (_ ← r; Ok true, dir).

(** [get_workflow_or_none], which the storage inherits from its base
    class: [get_workflow] with [NotFoundError] turned into [None]. *)
Definition get_workflow_or_none (workflow_id : string) (dir : gmap string D)
  : result (option T) :=
  match _get workflow_id dir with
  | Ok workflow => Ok (Some workflow)
  | Raise e =>
      match exn_cls e with
      | NotFoundError => Ok None
      | _ => Raise e
      end
  end.

(** [storage_dir.glob("*.json")]: the entries of the directory itself
    whose name ends in [.json]. *)
Definition json_file (name : string) : bool :=
  negb (Py.has_char "/" name)
  && String.prefix (String.rev ".json") (String.rev name).

(** [_list]: every json file that parses and passes the filters; a
    file that does not parse is passed over. *)
Definition _list (filters : T -> bool) (dir : gmap string D) : list T :=
  omap (fun kv => if json_file (fst kv) then
                    match model_validate_json (snd kv) with
                    | Ok entity => if filters entity then Some entity else None
                    | Raise _ => None
                    end
                  else None)
       (map_to_list dir).

End Generic.
End FilesystemStorage.

(** ** connectors/base.py *)

Module BaseConnector.
(** The dict object [execute] hands back: the very object it was
    given, or a new dict. *)
Inductive returned : Type :=
| Argument
| Fresh (d : dict).

Definition value_of (context : dict) (r : returned) : dict :=
  match r with
  | Argument => context
  | Fresh d => d
  end.

(** [extra='forbid'] of [ConnectorConfig]: the first key of the raw
    config that is no field of the model. *)
Definition extra_key (fields : list string) (config : dict) : option string :=
  List.find (fun k => negb (bool_decide (k ∈ fields))) (map fst (map_to_list config)).

(** A [str] field takes a string and nothing else. *)
Definition as_str (v : value) : option string :=
  match v with
  | VStr s => Some s
  | _ => None
  end.
End BaseConnector.

(** ** connectors/delay.py *)

Module DelayConfig.
Record t : Type := mk { type : string; seconds : Z }.

Section Parse.
(** pydantic's conversion of a string given for an [int] field. *)
Variable int_of_str : string -> option Z.

(** An [int] field outside strict mode. *)
Definition as_int (v : value) : option Z :=
  match v with
  | VInt n => Some n
  | VBool b => Some (if b then 1 else 0)
  | VStr s => int_of_str s
  | _ => None
  end.

Definition err (loc msg : string) : exn := pydantic_error "DelayConfig" loc msg.

(** [DelayConfig] applied to the raw config by keyword. *)
Definition parse (config : dict) : result t :=
  match BaseConnector.extra_key ["type"; "seconds"] config with
  | Some k => Raise (err k "Extra inputs are not permitted")
  | None =>
      ty ← match config !! "type" with
           | None => Ok "delay"
           | Some v =>
               match BaseConnector.as_str v with
               | Some s => Ok s
               | None => Raise (err "type" "Input should be a valid string")
               end
           end;
      match config !! "seconds" with
      | None => Raise (err "seconds" "Field required")
      | Some v =>
          match as_int v with
          | None => Raise (err "seconds" "Input should be a valid integer")
          | Some n =>
              if bool_decide (0 < n) then Ok (mk ty n)
              else Raise (err "seconds" "Input should be greater than 0")
          end
      end
  end.
End Parse.
End DelayConfig.

Module DelayConnector.
Record t : Type := mk { config : DelayConfig.t; seconds : Z }.

Definition init (config : DelayConfig.t) : t :=
  mk config (DelayConfig.seconds config).

(** [asyncio.sleep] adds the delay to the loop's time, a float: a
    number of seconds too large for a float raises there. *)
Definition overflow_error : exn :=
  Exn (OtherError "OverflowError") "int too large to convert to float".

(** [await asyncio.sleep(self.seconds); return context]: the clock
    moves on and the argument comes back as it is. *)
Definition execute (self : t) (context : dict) (clock : datetime)
  : result BaseConnector.returned * datetime :=
  if Py.float_overflow (seconds self) then (Raise overflow_error, clock)
  else (Ok BaseConnector.Argument, clock + seconds self).
End DelayConnector.

(** ** connectors/webhook.py *)

Module WebhookConfig.
Record t : Type := mk {
  type : string;
  url : string;
  method : string;
  headers : list (string * string);
  body : option (list (string * value))
}.

Section Parse.
(** [all([result.scheme, result.netloc])] for [urlparse] of the text. *)
Variable has_scheme_and_netloc : string -> bool.

Definition err (loc msg : string) : exn := pydantic_error "WebhookConfig" loc msg.

(** A [Dict[str, str]] field. *)
Definition as_headers (v : value) : option (list (string * string)) :=
  match v with
  | VDict d => mapM (fun kv => s ← BaseConnector.as_str (snd kv); Some (fst kv, s)) d
  | _ => None
  end.

Definition str_field (loc dflt : string) (config : dict) : result string :=
  match config !! loc with
  | None => Ok dflt
  | Some v =>
      match BaseConnector.as_str v with
      | Some s => Ok s
      | None => Raise (err loc "Input should be a valid string")
      end
  end.

(** [WebhookConfig] applied to the raw config by keyword. The url is
    kept as the text given; what [HttpUrl] makes of it is left to
    the transport. *)
Definition parse (config : dict) : result t :=
  match BaseConnector.extra_key ["type"; "url"; "method"; "headers"; "body"] config with
  | Some k => Raise (err k "Extra inputs are not permitted")
  | None =>
      ty ← str_field "type" "webhook" config;
      u ← match config !! "url" with
          | None => Raise (err "url" "Field required")
          | Some (VStr s) =>
              if has_scheme_and_netloc s then Ok s
              else Raise (err "url" "Value error, Invalid URL")
          | Some _ => Raise (err "url" "Input should be a valid string")
          end;
      m ← str_field "method" "POST" config;
      h ← match config !! "headers" with
          | None => Ok []
          | Some v =>
              match as_headers v with
              | Some h => Ok h
              | None => Raise (err "headers" "Input should be a valid dictionary of strings")
              end
          end;
      b ← match config !! "body" with
          | None | Some VNone => Ok None
          | Some (VDict d) => Ok (Some d)
          | Some _ => Raise (err "body" "Input should be a valid dictionary")
          end;
      Ok (mk ty u (Py.upper m) h b)
  end.
End Parse.
End WebhookConfig.

Module httpx.
Record request : Type := mk_request {
  method : string;
  url : string;
  headers : list (string * string);
  json : option value;
  timeout : Z
}.

(** A response as the connector reads it: [headers] are the items of
    [dict(response.headers)] with the names in lower case, [json] is
    what [response.json()] gives or raises, and [status_error] the
    text of the error [raise_for_status] raises for it. *)
Record response : Type := mk_response {
  status_code : Z;
  resp_headers : list (string * string);
  text : string;
  resp_json : result value;
  status_error : string
}.

Definition raise_for_status (r : response) : result unit :=
  if bool_decide (200 ≤ status_code r ≤ 299) then Ok tt
  else Raise (Exn (OtherError "HTTPStatusError") (status_error r)).
End httpx.

Module WebhookConnector.
Record t : Type := mk {
  config : WebhookConfig.t;
  url : string;
  method : string;
  headers : list (string * string);
  body : option (list (string * value))
}.

Definition init (config : WebhookConfig.t) : t :=
  mk config (WebhookConfig.url config) (Py.upper (WebhookConfig.method config))
     (WebhookConfig.headers config) (WebhookConfig.body config).

(** [except (KeyError, ValueError)] *)
Definition tolerated (e : exn) : bool :=
  match exn_cls e with
  | KeyError | ValueError => true
  | _ => false
  end.

Section Connector.
Variable format_tail : string -> dict -> result string.
(** The HTTP exchange: the response, or the error the client raises. *)
Variable client_request : datetime -> httpx.request -> result httpx.response.

(** [value.format] by the context; on a key or value error, the
    value as it is. *)
Definition render_str (s : string) (context : dict) : result string :=
  match Py.format format_tail s context with
  | Ok r => Ok r
  | Raise e => if tolerated e then Ok s else Raise e
  end.

Fixpoint _render_value (v : value) (context : dict) {struct v} : result value :=
  match v with
  | VNone => Ok VNone
  | VStr s => r ← render_str s context; Ok (VStr r)
  | VDict d =>
      r ← (fix items (d : list (string * value)) : result (list (string * value)) :=
             match d with
             | [] => Ok []
             | (k, x) :: d' =>
                 x' ← _render_value x context; r ← items d'; Ok ((k, x') :: r)
             end) d;
      Ok (VDict r)
  | VList l =>
      r ← (fix elems (l : list value) : result (list value) :=
             match l with
             | [] => Ok []
             | x :: l' => x' ← _render_value x context; r ← elems l'; Ok (x' :: r)
             end) l;
      Ok (VList r)
  | _ => Ok v
  end.

Fixpoint render_items (d : list (string * string)) (context : dict)
  : result (list (string * string)) :=
  match d with
  | [] => Ok []
  | (key, v) :: d' =>
      v' ← render_str v context; r ← render_items d' context; Ok ((key, v') :: r)
  end.

Definition _render_headers (self : t) (context : dict) : result (list (string * string)) :=
  render_items (headers self) context.

Definition _render_body (self : t) (context : dict) : result (option value) :=
  match body self with
  | None => Ok None
  | Some d => r ← _render_value (VDict d) context; Ok (Some r)
  end.

(** [if self.body]: neither [None] nor an empty dict. *)
Definition truthy_body (b : option (list (string * value))) : bool :=
  match b with
  | Some (_ :: _) => true
  | _ => false
  end.

Definition response_value (response : httpx.response) (b : value) : value :=
  VDict [("status_code", VInt (httpx.status_code response));
         ("headers", VDict (map (fun kv => (fst kv, VStr (snd kv)))
                                (httpx.resp_headers response)));
         ("body", b)].

(** The body of the [try]. *)
Definition attempt (self : t) (context : dict) (clock : datetime) : result dict :=
  h ← _render_headers self context;
  j ← (if truthy_body (body self) then _render_body self context else Ok None);
  response ← client_request clock (httpx.mk_request (method self) (url self) h j 30);
  _ ← httpx.raise_for_status response;
  b ← (if Py.contains "application/json"
            (default "" (Py.get "content-type" (httpx.resp_headers response)))
       then httpx.resp_json response
       else Ok (VStr (httpx.text response)));
  Ok (<["response" := response_value response b]> context).

Definition execute (self : t) (context : dict) (clock : datetime)
  : result BaseConnector.returned * datetime :=
  match attempt self context clock with
  | Ok result => (Ok (BaseConnector.Fresh result), clock)
  | Raise e =>
      (Ok (BaseConnector.Fresh (<["error" := VStr (exn_str e)]> context)), clock)
  end.
End Connector.
End WebhookConnector.

(** ** engine.py *)

Module WorkflowEngine.

(** The two storage directories as [main.py] sets them up, the clock,
    and the executions handed to the event loop by [create_task]. *)
Record world : Type := mk_world {
  workflows : gmap string WorkflowDefinition.t;
  runs : gmap string WorkflowRun.t;
  clock : datetime;
  tasks : list string
}.

Definition set_runs (v : gmap string WorkflowRun.t) (w : world) : world :=
  mk_world (workflows w) v (clock w) (tasks w).
Definition set_clock (v : datetime) (w : world) : world :=
  mk_world (workflows w) (runs w) v (tasks w).
Definition create_task (run_id : string) (w : world) : world :=
  mk_world (workflows w) (runs w) (clock w) (tasks w ++ [run_id]).

(** An entry of [CONNECTOR_MAP]: a connector class with its config class. *)
Inductive connector : Type :=
| Delay     (* (DelayConnector, DelayConfig) *)
| Webhook.  (* (WebhookConnector, WebhookConfig) *)

Definition CONNECTOR_MAP : list (StepType.t * connector) :=
  [(StepType.DELAY, Delay); (StepType.WEBHOOK, Webhook)].

Fixpoint table_get (table : list (StepType.t * connector)) (ty : StepType.t)
  : option connector :=
  match table with
  | [] => None
  | (k, c) :: table' => if bool_decide (k = ty) then Some c else table_get table' ty
  end.

(** [bool(run.current_step_id)] *)
Definition current_step (run : WorkflowRun.t) : option string :=
  match WorkflowRun.current_step_id run with
  | Some s => if Py.truthy_str s then Some s else None
  | None => None
  end.

Section Engine.
Variable format_tail : string -> dict -> result string.
Variable int_of_str : string -> option Z.
Variable has_scheme_and_netloc : string -> bool.
Variable client_request : datetime -> httpx.request -> result httpx.response.

(** The host of the two storages: how the file system reads the paths
    of the two directories, and what pydantic does with the files. A
    stored file is identified with the record it spells out.
    [workflow_invalid] is the text of the [ValidationError] that
    [model_validate_json] raises for a workflow file whose JSON it does
    not take (an integer too long for the reader, say);
    [run_json_error] is the error [model_dump_json] raises for a run
    it cannot put into JSON, and [run_validate] is what
    [model_validate_json] makes of a run's file. *)
Variable locate_workflow : string -> FilesystemStorage.location.
Variable workflow_invalid : WorkflowDefinition.t -> option string.
Variable locate_run : string -> FilesystemStorage.location.
Variable run_json_error : WorkflowRun.t -> option exn.
Variable run_validate : WorkflowRun.t -> result WorkflowRun.t.

(** [WorkflowDefinition.model_validate_json]: reading a workflow back
    runs the model's validators again. *)
Definition load_workflow (file : WorkflowDefinition.t) : result WorkflowDefinition.t :=
  match workflow_invalid file with
  | Some msg => Raise (Exn ValidationError msg)
  | None => WorkflowDefinition.construct file
  end.

Definition get_workflow (workflow_id : string) (w : world) : result WorkflowDefinition.t :=
  FilesystemStorage._get locate_workflow load_workflow workflow_id (workflows w).

(** [run.model_dump_json(indent=4)]: the file of the run, unless the
    serialiser raises. *)
Definition dump_run (run : WorkflowRun.t) : result WorkflowRun.t :=
  match run_json_error (WorkflowRun.model_dump run) with
  | Some e => Raise e
  | None => Ok (WorkflowRun.model_dump run)
  end.

Definition create_run (run : WorkflowRun.t) (w : world) : result WorkflowRun.t * world :=
  let '(r, d) := FilesystemStorage._create locate_run dump_run run (runs w) in
  (r, set_runs d w).

Definition get_run (run_id : string) (w : world) : result WorkflowRun.t :=
  FilesystemStorage._get locate_run run_validate run_id (runs w).

Definition update_run (run : WorkflowRun.t) (w : world) : result unit * world :=
  let '(r, d) := FilesystemStorage._update locate_run dump_run run (runs w) in
  (_ ← r; Ok tt, set_runs d w).

(** [filters = {"workflow_id": workflow_id} if workflow_id else {}] *)
Definition list_runs (workflow_id : option string) (w : world) : list WorkflowRun.t :=
  FilesystemStorage._list run_validate
    (fun run => match workflow_id with
                | Some i => if Py.truthy_str i
                            then bool_decide (WorkflowRun.workflow_id run = i) else true
                | None => true
                end)
    (runs w).

(** [_execute_step] over a dispatch table. *)
Definition execute_step_with (table : list (StepType.t * connector))
    (step_def : StepDefinition.t) (context : dict) (clock : datetime)
  : result BaseConnector.returned * datetime :=
  match table_get table (StepDefinition.type step_def) with
  | None =>
      (Raise (Exn ValueError
                ("Unsupported step type: " ++ StepType.str (StepDefinition.type step_def))),
       clock)
  | Some Delay =>
      match DelayConfig.parse int_of_str (StepDefinition.config step_def) with
      | Raise e => (Raise e, clock)
      | Ok config => DelayConnector.execute (DelayConnector.init config) context clock
      end
  | Some Webhook =>
      match WebhookConfig.parse has_scheme_and_netloc (StepDefinition.config step_def) with
      | Raise e => (Raise e, clock)
      | Ok config =>
          WebhookConnector.execute format_tail client_request
            (WebhookConnector.init config) context clock
      end
  end.

Definition _execute_step := execute_step_with CONNECTOR_MAP.

(** How one pass through the body of the [while] loop ends. *)
Inductive pass : Type :=
| Next (run : WorkflowRun.t)   (* the loop goes on with the run object *)
| Return                       (* the step failed: [return] *)
| Escape (e : exn).            (* an exception leaves the loop *)

(** The [except] branch of the step: mark, persist, return. *)
Definition step_failed (step_id : string) (e : exn) (run : WorkflowRun.t) (w : world)
  : pass * world :=
  let run := WorkflowRun.fail_step (clock w) step_id (exn_str e) run in
  let run := WorkflowRun.set_status RunStatus.FAILED run in
  let run := WorkflowRun.set_error
               (Some ("Step " ++ step_id ++ " failed: " ++ exn_str e)) run in
  let run := WorkflowRun.set_completed_at (Some (clock w)) run in
  match update_run run w with
  | (Raise e', w) => (Escape e', w)
  | (Ok _, w) => (Return, w)
  end.

(** The output handed to [complete_step], seen from the run: the
    connector's argument was the run's context. *)
Definition as_output (r : BaseConnector.returned) : StepRun.dict_ref :=
  match r with
  | BaseConnector.Argument => StepRun.RunContext
  | BaseConnector.Fresh d => StepRun.Own d
  end.

(** The body of the [try] around one step: execute it, merge a
    non-empty output into the context, mark the step completed and
    move on to its successor. The clock comes back with the result. *)
Definition try_step (step_def : StepDefinition.t) (step_id : string)
    (run : WorkflowRun.t) (clock : datetime) : result WorkflowRun.t * datetime :=
  let '(r, clock) := _execute_step step_def (WorkflowRun.context run) clock in
  (output ← r;
   let out := BaseConnector.value_of (WorkflowRun.context run) output in
   run ← (if Py.truthy_dict out then WorkflowRun.update_context out run else Ok run);
   let run := WorkflowRun.complete_step clock step_id (Some (as_output output)) run in
   Ok (WorkflowRun.set_current_step_id (StepDefinition.next_step_id step_def) run),
   clock).

Definition loop_body (workflow : WorkflowDefinition.t) (step_id : string)
    (run : WorkflowRun.t) (w : world) : pass * world :=
  match WorkflowDefinition.get_step workflow step_id with
  | None =>
      (Escape (Exn ValueError ("Step " ++ step_id ++ " not found in workflow "
                                 ++ WorkflowDefinition.id workflow)), w)
  | Some step_def =>
      let run := WorkflowRun.start_step (clock w) step_id run in
      match update_run run w with
      | (Raise e, w) => (Escape e, w)
      | (Ok _, w) =>
          let '(r, c) := try_step step_def step_id run (clock w) in
          let w := set_clock c w in
          match r with
          | Raise e => step_failed step_id e run w
          | Ok run =>
              match update_run run w with
              | (Raise e, w) => (Escape e, w)
              | (Ok _, w) => (Next run, w)
              end
          end
      end
  end.

(** How the [while] loop ends; [fuel] bounds the number of passes. *)
Inductive loop_end : Type :=
| Exhausted (run : WorkflowRun.t)   (* no current step is left *)
| Returned                          (* a step failed *)
| Escaped (e : exn)
| OutOfFuel.

Fixpoint loop (fuel : nat) (workflow : WorkflowDefinition.t)
    (run : WorkflowRun.t) (w : world) : loop_end * world :=
  match current_step run with
  | None => (Exhausted run, w)
  | Some step_id =>
      match fuel with
      | O => (OutOfFuel, w)
      | S fuel' =>
          match loop_body workflow step_id run w with
          | (Next run, w) => loop fuel' workflow run w
          | (Return, w) => (Returned, w)
          | (Escape e, w) => (Escaped e, w)
          end
      end
  end.

(** The outermost [except]: reload the run and force it to failed;
    a failure of that is only logged. *)
Definition recover (run_id : string) (e : exn) (w : world) : world :=
  match get_run run_id w with
  | Raise _ => w
  | Ok run =>
      let run := WorkflowRun.set_status RunStatus.FAILED run in
      let run := WorkflowRun.set_error (Some (exn_str e)) run in
      let run := WorkflowRun.set_completed_at (Some (clock w)) run in
      snd (update_run run w)
  end.

(** How the background execution ended. *)
Inductive ending : Type :=
| Completed
| StepFailed
| Crashed (e : exn)
| Unfinished.

Definition _execute_workflow (fuel : nat) (run_id : string) (w : world)
  : ending * world :=
  match get_run run_id w with
  | Raise e => (Crashed e, recover run_id e w)
  | Ok run =>
      match get_workflow (WorkflowRun.workflow_id run) w with
      | Raise e => (Crashed e, recover run_id e w)
      | Ok workflow =>
          match loop fuel workflow run w with
          | (Exhausted run, w) =>
              let run := WorkflowRun.set_status RunStatus.COMPLETED run in
              let run := WorkflowRun.set_completed_at (Some (clock w)) run in
              match update_run run w with
              | (Raise e, w) => (Crashed e, recover run_id e w)
              | (Ok _, w) => (Completed, w)
              end
          | (Returned, w) => (StepFailed, w)
          | (Escaped e, w) => (Crashed e, recover run_id e w)
          | (OutOfFuel, w) => (Unfinished, w)
          end
      end
  end.

(** [context or {}] *)
Definition context_or_empty (context : option dict) : dict :=
  match context with
  | Some d => if Py.truthy_dict d then d else ∅
  | None => ∅
  end.

(** [start_workflow]; [uuid] is the text [str(uuid.uuid4())] yields. *)
Definition start_workflow (uuid : string) (workflow_id : string)
    (context : option dict) (w : world) : result WorkflowRun.t * world :=
  match get_workflow workflow_id w with
  | Raise e => (Raise e, w)
  | Ok workflow =>
      let run := WorkflowRun.new uuid workflow_id RunStatus.PENDING (clock w) in
      match create_run run w with
      | (Raise e, w) => (Raise e, w)
      | (Ok run, w) =>
          let run := WorkflowRun.set_context (context_or_empty context) run in
          let run := WorkflowRun.set_current_step_id
                       (Some (WorkflowDefinition.entry_point workflow)) run in
          let run := WorkflowRun.set_status RunStatus.RUNNING run in
          let run := WorkflowRun.set_started_at (Some (clock w)) run in
          let run := foldl (fun run step => WorkflowRun.add_step (StepDefinition.id step) run)
                       run (WorkflowDefinition.steps workflow) in
          match update_run run w with
          | (Raise e, w) => (Raise e, w)
          | (Ok _, w) => (Ok run, create_task (WorkflowRun.run_id run) w)
          end
      end
  end.
End Engine.

(** The engine object: the attributes [__init__] sets. A storage is
    given by the two queries the status operations would call. *)
Record Storage : Type := mk_storage {
  storage_get_run : string -> world -> result WorkflowRun.t;
  storage_list_runs : option string -> world -> list WorkflowRun.t
}.

Definition __init__ (workflow_storage run_storage : Storage) : gmap string Storage :=
  <["run_storage" := run_storage]> (<["workflow_storage" := workflow_storage]> ∅).

(** [self.<name>] for a name that is no method or class attribute. *)
Definition getattr (self : gmap string Storage) (name : string) : result Storage :=
  match self !! name with
  | Some v => Ok v
  | None => Raise (Exn AttributeError
                     ("'WorkflowEngine' object has no attribute '" ++ name ++ "'"))
  end.

Definition get_run_status (self : gmap string Storage) (run_id : string) (w : world)
  : result WorkflowRun.t :=
  storage ← getattr self "storage"; storage_get_run storage run_id w.

Definition list_workflow_runs (self : gmap string Storage) (workflow_id : string)
    (w : world) : result (list WorkflowRun.t) :=
  storage ← getattr self "storage"; Ok (storage_list_runs storage (Some workflow_id) w).

End WorkflowEngine.

(** * Properties *)

(** ** Workflow definitions are validated at construction *)

Section DefinitionValidation.
Import WorkflowDefinition.

Implicit Types (f : WorkflowDefinition.t) (l : list string).

(** A well-formed chain: unique step ids, a known entry point, and
    every successor that is given is a step of the workflow. *)
Definition well_formed f : Prop :=
  NoDup (step_ids (steps f))
  ∧ entry_point f ∈ step_ids (steps f)
  ∧ Forall (fun step => ∀ n, StepDefinition.next_step_id step = Some n
                             → n ∈ step_ids (steps f)) (steps f).

Lemma size_list_to_set_le l : (size (list_to_set l : gset string) ≤ length l)%nat.
Proof.
  induction l as [|a l IH]; [by rewrite list_to_set_nil, size_empty|].
  rewrite list_to_set_cons; cbn [length].
  destruct (decide (a ∈ l)) as [Hin|Hin].
  - assert ({[a]} ∪ list_to_set l = (list_to_set l : gset string)) as -> by set_solver.
    lia.
  - rewrite size_union by set_solver. rewrite size_singleton. lia.
Qed.

Lemma length_size_NoDup l :
  length l = size (list_to_set l : gset string) ↔ NoDup l.
Proof.
  split; [|intros; by rewrite size_list_to_set].
  induction l as [|a l IH]; [constructor|].
  rewrite list_to_set_cons; cbn [length]; intros Hlen.
  destruct (decide (a ∈ l)) as [Hin|Hin].
  - exfalso.
    assert ({[a]} ∪ list_to_set l = (list_to_set l : gset string)) as Heq by set_solver.
    rewrite Heq in Hlen. pose proof (size_list_to_set_le l). lia.
  - rewrite size_union in Hlen by set_solver. rewrite size_singleton in Hlen.
    constructor; [done|]. apply IH. lia.
Qed.

Lemma validate_steps_ok (ss : list StepDefinition.t) :
  validate_steps ss = Ok ss ↔ NoDup (step_ids ss).
Proof.
  unfold validate_steps. rewrite <- length_size_NoDup.
  case_bool_decide; split; intros; try done; congruence.
Qed.

Lemma validate_steps_raise (ss : list StepDefinition.t) e :
  validate_steps ss = Raise e → ¬ NoDup (step_ids ss).
Proof.
  intros He Hnd. apply validate_steps_ok in Hnd. congruence.
Qed.

Lemma find_dangling_none f :
  List.find (dangling (list_to_set (step_ids (steps f)))) (steps f) = None
  ↔ Forall (fun step => ∀ n, StepDefinition.next_step_id step = Some n
                             → n ∈ step_ids (steps f)) (steps f).
Proof.
  generalize (step_ids (steps f)) as ids. intros ids.
  induction (steps f) as [|s ss IH]; simpl.
  - split; [constructor|done].
  - unfold dangling at 1. destruct (StepDefinition.next_step_id s) as [n|] eqn:Hn.
    + case_bool_decide as Hd.
      * split; [done|]. intros HF. inversion HF as [|? ? H1 _]; subst.
        exfalso. apply Hd. rewrite elem_of_list_to_set. by apply H1.
      * rewrite IH. split.
        -- intros HF. constructor; [|done]. intros m Hm.
           rewrite Hn in Hm. injection Hm as <-.
           by apply elem_of_list_to_set in Hd.
        -- intros HF. by inversion HF.
    + rewrite IH. split.
      * intros HF. constructor; [|done]. intros m Hm. congruence.
      * intros HF. by inversion HF.
Qed.

Lemma validate_entry_point_ok f :
  validate_entry_point f = Ok f
  ↔ entry_point f ∈ step_ids (steps f)
    ∧ Forall (fun step => ∀ n, StepDefinition.next_step_id step = Some n
                               → n ∈ step_ids (steps f)) (steps f).
Proof.
  unfold validate_entry_point. rewrite <- find_dangling_none.
  case_bool_decide as He.
  - split; [done|]. intros [Hin _]. exfalso. apply He.
    by rewrite elem_of_list_to_set.
  - assert (entry_point f ∈ step_ids (steps f)) as Hin
      by (by apply elem_of_list_to_set in He).
    destruct (List.find _ _); split; try done; by intros [_ ?].
Qed.

Lemma construct_ok_iff f : construct f = Ok f ↔ well_formed f.
Proof.
  unfold construct, well_formed.
  destruct (validate_steps (steps f)) as [ss|e] eqn:Hs.
  - assert (NoDup (step_ids (steps f))) as Hnd.
    { apply validate_steps_ok. unfold validate_steps in *.
      case_bool_decide; congruence. }
    destruct (validate_entry_point f) as [g|e] eqn:Hv.
    + assert (g = f) as ->.
      { unfold validate_entry_point in Hv. repeat case_match; by simplify_eq. }
      apply validate_entry_point_ok in Hv. naive_solver.
    + split; [done|]. intros (_ & H1 & H2).
      assert (validate_entry_point f = Ok f) by (by apply validate_entry_point_ok).
      congruence.
  - split; [done|]. intros (Hnd & _). by apply validate_steps_raise in Hs.
Qed.

Lemma construct_raise_class f e : construct f = Raise e → exn_cls e = ValidationError.
Proof.
  unfold construct. destruct (validate_steps _); [destruct (validate_entry_point _)|];
    intros [= <-]; done.
Qed.

Lemma construct_ok_self f g : construct f = Ok g → g = f.
Proof.
  unfold construct, validate_entry_point. intros Hc.
  repeat case_match; by simplify_eq.
Qed.

Lemma construct_result f : ∃ r, construct f = r ∧
  match r with Ok g => g = f | Raise e => exn_cls e = ValidationError end.
Proof.
  exists (construct f). split; [done|].
  destruct (construct f) as [g|e] eqn:Hc.
  - by eapply construct_ok_self.
  - by eapply construct_raise_class.
Qed.

Instance well_formed_dec f : Decision (well_formed f).
Proof.
  destruct (construct f) as [g|e] eqn:Hc.
  - left. apply construct_ok_iff. destruct (construct_result f) as (r & Hr & Hm).
    rewrite Hc in Hr. subst r. by subst g.
  - right. intros Hwf. apply construct_ok_iff in Hwf. congruence.
Defined.

(** The chain of a definition: ids and successors, without the
    connector types and configs. *)
Definition chain f : string * list (string * option string) :=
  (entry_point f,
   map (fun step => (StepDefinition.id step, StepDefinition.next_step_id step)) (steps f)).

Lemma well_formed_chain f g : chain f = chain g → well_formed f → well_formed g.
Proof.
  unfold chain, well_formed, step_ids. intros [= He Hm].
  assert (map StepDefinition.id (steps f) = map StepDefinition.id (steps g)) as Hid.
  { apply (f_equal (map fst)) in Hm. by rewrite !map_map in Hm. }
  rewrite <- He, <- Hid. intros (H1 & H2 & H3). split_and!; try done.
  rewrite Forall_forall in H3. rewrite Forall_forall. intros s Hs n Hn.
  assert ((StepDefinition.id s, Some n) ∈
            map (fun step => (StepDefinition.id step, StepDefinition.next_step_id step))
                (steps f)) as Hin.
  { rewrite Hm. apply list_elem_of_fmap. exists s. by rewrite Hn. }
  apply list_elem_of_fmap in Hin as (s' & [= Hi' Hn'] & Hs'). by eapply H3.
Qed.

Lemma construct_validates_chain_aux f g :
  chain f = chain g → is_ok (construct g) = is_ok (construct f).
Proof.
  intros Hch.
  destruct (construct_result f) as ([f'|e] & Hf & Hmf);
    destruct (construct_result g) as ([g'|e'] & Hg & Hmg);
    rewrite Hf, Hg; try done; subst; exfalso.
  - apply construct_ok_iff in Hf. apply (well_formed_chain f g Hch) in Hf.
    apply construct_ok_iff in Hf. congruence.
  - apply construct_ok_iff in Hg. apply (well_formed_chain g f (eq_sym Hch)) in Hg.
    apply construct_ok_iff in Hg. congruence.
Qed.

(** C4: construction of a workflow definition succeeds exactly for the
    well-formed chains (unique step ids, entry point among them, every
    given successor among them) and fails with a validation error for
    every other definition; whether it succeeds depends on the chain
    alone, so no step config is looked at. *)
Theorem construct_validates_chain f :
  (construct f = Ok f ↔ well_formed f)
  ∧ (¬ well_formed f ↔ ∃ e, construct f = Raise e ∧ exn_cls e = ValidationError)
  ∧ (∀ g, chain f = chain g → is_ok (construct g) = is_ok (construct f)).
Proof.
  split_and!.
  - apply construct_ok_iff.
  - split.
    + intros Hn. destruct (construct_result f) as ([g|e] & Hr & Hm).
      * subst g. by apply construct_ok_iff in Hr.
      * by exists e.
    + intros (e & He & _) Hwf. apply construct_ok_iff in Hwf. congruence.
  - intros g. apply construct_validates_chain_aux.
Qed.
(** *** Looking steps up *)

Lemma get_step_Some f i s :
  get_step f i = Some s → s ∈ steps f ∧ StepDefinition.id s = i.
Proof.
  unfold get_step. intros Hf. apply find_some in Hf as [Hin Hb].
  split; [by apply list_elem_of_In|]. by apply bool_decide_eq_true in Hb.
Qed.

Lemma get_step_None f i : get_step f i = None ↔ i ∉ step_ids (steps f).
Proof.
  unfold get_step, step_ids. split.
  - intros Hn Hin. apply list_elem_of_fmap in Hin as (s & -> & Hs).
    apply list_elem_of_In in Hs. pose proof (find_none _ _ Hn s Hs) as Hb.
    cbn in Hb. by apply bool_decide_eq_false in Hb.
  - intros Hnin. destruct (find _ _) as [s|] eqn:Hf; [|done]. exfalso. apply Hnin.
    apply find_some in Hf as [Hin Hb]. apply bool_decide_eq_true in Hb. subst i.
    apply list_elem_of_fmap. exists s. split; [done|]. by apply list_elem_of_In.
Qed.

Lemma find_unique_id (ss : list StepDefinition.t) s :
  NoDup (step_ids ss) → s ∈ ss →
  find (fun step => bool_decide (StepDefinition.id step = StepDefinition.id s)) ss = Some s.
Proof.
  induction ss as [|a ss IH]; intros Hnd Hin; [by apply elem_of_nil in Hin|].
  unfold step_ids in Hnd. cbn in Hnd. apply NoDup_cons in Hnd as [Ha Hnd].
  apply elem_of_cons in Hin as [->|Hin]; cbn.
  - by rewrite bool_decide_eq_true_2.
  - rewrite bool_decide_eq_false_2; [by apply IH|].
    intros Heq. apply Ha. rewrite Heq. apply list_elem_of_fmap. by exists s.
Qed.

Lemma next_step_known f i n :
  well_formed f → get_next_step_id f i = Some n → n ∈ step_ids (steps f).
Proof.
  intros (_ & _ & Hnext). unfold get_next_step_id.
  destruct (get_step f i) as [s|] eqn:Hs; [|done]. intros Hn.
  apply get_step_Some in Hs as [Hin _].
  rewrite Forall_forall in Hnext. by eapply Hnext.
Qed.

(** X3: in a definition that construction accepts, [get_step] finds
    every step under its own id and nothing under an id that is no
    step's; the entry point is a step; and [get_next_step_id] leads
    from a step to a step of the definition, so following successors
    never leaves the definition. *)
Theorem get_step_closed f :
  construct f = Ok f →
  (∀ s, s ∈ steps f → get_step f (StepDefinition.id s) = Some s)
  ∧ (∀ i, i ∉ step_ids (steps f) → get_step f i = None ∧ get_next_step_id f i = None)
  ∧ is_Some (get_step f (entry_point f))
  ∧ (∀ i n, get_next_step_id f i = Some n → is_Some (get_step f n)).
Proof.
  intros Hc. apply construct_ok_iff in Hc. pose proof Hc as (Hnd & Hentry & Hnext).
  split_and!.
  - intros s Hs. by apply find_unique_id.
  - intros i Hi. apply get_step_None in Hi. unfold get_next_step_id. by rewrite Hi.
  - destruct (get_step f (entry_point f)) eqn:He; [by eexists|].
    by apply get_step_None in He.
  - intros i n Hn. apply (next_step_known f i n Hc) in Hn.
    destruct (get_step f n) eqn:He; [by eexists|]. by apply get_step_None in He.
Qed.

End DefinitionValidation.

(** ** The storage contract of the filesystem storage *)

Section StorageContract.
Import FilesystemStorage.
Context {T D : Type} `{Entity T}.
Variable locate : string -> location.
Variable model_dump_json : T -> result D.
Variable model_validate_json : D -> result T.

Abbreviation create' := (_create locate model_dump_json).
Abbreviation get' := (_get locate model_validate_json).
Abbreviation update' := (_update locate model_dump_json).
Abbreviation delete' := (delete_workflow (T:=T) locate).

Lemma falsy_id_Some (id : string) : id ≠ "" → falsy_id (Some id) = false.
Proof. by destruct id. Qed.

Lemma create_fresh (entity : T) id key text (dir : gmap string D) :
  entity_id entity = Some id → id ≠ "" → locate id = File key → dir !! key = None →
  model_dump_json entity = Ok text →
  create' entity dir = (Ok entity, <[key := text]> dir).
Proof.
  intros Hid Hne Hloc Hnone Hdump. unfold _create. rewrite Hid, falsy_id_Some by done.
  change (default "" (Some id)) with id. rewrite Hloc, Hnone.
  unfold write_text. by rewrite Hdump.
Qed.

Lemma create_taken (entity : T) id key (dir : gmap string D) :
  entity_id entity = Some id → id ≠ "" → locate id = File key → is_Some (dir !! key) →
  create' entity dir = (Raise (exists_error id), dir).
Proof.
  intros Hid Hne Hloc [d Hd]. unfold _create. rewrite Hid, falsy_id_Some by done.
  change (default "" (Some id)) with id. by rewrite Hloc, Hd.
Qed.

Lemma get_missing id key (dir : gmap string D) :
  locate id = File key → dir !! key = None → get' id dir = Raise (missing_error id).
Proof. intros Hloc Hnone. unfold _get. by rewrite Hloc, Hnone. Qed.

Lemma get_stored id key text (dir : gmap string D) :
  locate id = File key → dir !! key = Some text →
  get' id dir = model_validate_json text.
Proof. intros Hloc Hd. unfold _get. by rewrite Hloc, Hd. Qed.

Lemma update_missing (entity : T) id key (dir : gmap string D) :
  entity_id entity = Some id → id ≠ "" → locate id = File key → dir !! key = None →
  update' entity dir = (Raise (missing_error id), dir).
Proof.
  intros Hid Hne Hloc Hnone. unfold _update. rewrite Hid, falsy_id_Some by done.
  change (default "" (Some id)) with id. by rewrite Hloc, Hnone.
Qed.

Lemma update_stored (entity : T) id key text (dir : gmap string D) :
  entity_id entity = Some id → id ≠ "" → locate id = File key → is_Some (dir !! key) →
  model_dump_json entity = Ok text →
  update' entity dir = (Ok entity, <[key := text]> dir).
Proof.
  intros Hid Hne Hloc [d Hd] Hdump. unfold _update. rewrite Hid, falsy_id_Some by done.
  change (default "" (Some id)) with id. rewrite Hloc, Hd.
  unfold write_text. by rewrite Hdump.
Qed.

Lemma update_refused (entity : T) id key e (dir : gmap string D) :
  entity_id entity = Some id → id ≠ "" → locate id = File key → is_Some (dir !! key) →
  model_dump_json entity = Raise e →
  update' entity dir = (Raise e, dir).
Proof.
  intros Hid Hne Hloc [d Hd] Hdump. unfold _update. rewrite Hid, falsy_id_Some by done.
  change (default "" (Some id)) with id. rewrite Hloc, Hd.
  unfold write_text. by rewrite Hdump.
Qed.

Lemma no_id_rejected (entity : T) (dir : gmap string D) :
  falsy_id (entity_id entity) = true →
  create' entity dir = (Raise no_id_error, dir)
  ∧ update' entity dir = (Raise no_id_error, dir).
Proof. intros Hf. unfold _create, _update. by rewrite Hf. Qed.

(** C7, as the code has it: take an entity whose id is not empty and
    names a file [key] of the storage, and whose JSON text the model
    reads back as the entity. Then [create] followed by [get] of its
    id returns the record; a second [create] under the id fails with
    [AlreadyExistsError] and leaves the files as they were; [get] of an
    id whose path does not exist (a file that is not there, or a path
    below a directory that is not there), and [update] of the entity
    when its file is not there, fail with [NotFoundError]; an entity
    whose id is empty is refused by [create] and [update] with a
    [ValueError] before the files are looked at. *)
Theorem storage_contract (entity : T) (id key : string) (text : D)
    (dir : gmap string D) :
  entity_id entity = Some id → id ≠ "" → locate id = File key →
  model_dump_json entity = Ok text → model_validate_json text = Ok entity →
  (dir !! key = None →
     ∃ dir', create' entity dir = (Ok entity, dir')
             ∧ get' id dir' = Ok entity
             ∧ ∀ other, entity_id other = Some id →
                 create' other dir' = (Raise (exists_error id), dir'))
  ∧ exn_cls (exists_error id) = AlreadyExistsError
  ∧ (∀ id' key', locate id' = File key' → dir !! key' = None →
       get' id' dir = Raise (missing_error id'))
  ∧ (∀ id' e, locate id' = NoParent e → get' id' dir = Raise (missing_error id'))
  ∧ (dir !! key = None → update' entity dir = (Raise (missing_error id), dir))
  ∧ exn_cls (missing_error id) = NotFoundError
  ∧ (∀ nameless, falsy_id (entity_id nameless) = true →
       create' nameless dir = (Raise no_id_error, dir)
       ∧ update' nameless dir = (Raise no_id_error, dir))
  ∧ exn_cls no_id_error = ValueError.
Proof.
  intros Hid Hne Hloc Hdump Hback. split_and!; try done.
  - intros Hnone. eexists. split; [by eapply create_fresh|]. split.
    + rewrite (get_stored id key text) by (try done; by rewrite lookup_insert_eq).
      done.
    + intros other Hother. eapply create_taken; [done..|].
      rewrite lookup_insert_eq. by eexists.
  - intros id' key'. apply get_missing.
  - intros id' e Hloc'. unfold _get. by rewrite Hloc'.
  - by eapply update_missing.
  - intros nameless. apply no_id_rejected.
Qed.

(** *** Overwriting, deleting, and files of other ids *)

Lemma append_length_sum (a b : string) :
  String.length (a ++ b) = (String.length a + String.length b)%nat.
Proof. induction a as [|x a IH]; [done|]. cbn. by rewrite <- IH. Qed.

Lemma rev_app_append (a b c : string) :
  String.rev_app (a ++ b) c = String.rev_app b (String.rev_app a c).
Proof.
  revert c. induction a as [|x a IH]; intros c; [done|].
  change (String.rev_app (a ++ b) (String x c)
          = String.rev_app b (String.rev_app a (String x c))). apply IH.
Qed.

Lemma list_ascii_append (a b : string) :
  list_ascii_of_string (a ++ b)
  = (list_ascii_of_string a ++ list_ascii_of_string b)%list.
Proof.
  induction a as [|x a IH]; [done|].
  change (x :: list_ascii_of_string (a ++ b)
          = x :: (list_ascii_of_string a ++ list_ascii_of_string b)%list).
  by rewrite IH.
Qed.

(** A plain file name with [.json] after it is an entry of the
    directory that [glob] finds. *)
Lemma json_file_entity_file (id : string) :
  Py.has_char "/" id = false → json_file (entity_file id) = true.
Proof.
  intros Hplain. unfold json_file, entity_file. apply andb_true_intro. split.
  - apply negb_true_iff. unfold Py.has_char in *.
    apply bool_decide_eq_false in Hplain. apply bool_decide_eq_false.
    rewrite list_ascii_append. intros Hin. apply elem_of_app in Hin as [Hin|Hin];
      [done|]. cbn in Hin. set_solver.
  - unfold String.rev. rewrite rev_app_append.
    cbn [String.rev_app]. by destruct (String.rev_app id "").
Qed.

(** X12: [update] of a stored entity overwrites its file and nothing
    else: afterwards [get] of the id returns what the model reads from
    the text of the entity given, and no file was added or removed; of
    two updates in a row only the last is kept; and an update whose
    entity the model cannot put into JSON raises that error and leaves
    the stored file as it was. *)
Theorem update_then_get (entity : T) (id key : string) (text : D)
    (dir : gmap string D) :
  entity_id entity = Some id → id ≠ "" → locate id = File key →
  is_Some (dir !! key) → model_dump_json entity = Ok text →
  ∃ dir', update' entity dir = (Ok entity, dir')
          ∧ dir' !! key = Some text
          ∧ get' id dir' = model_validate_json text
          ∧ dom dir' = dom dir
          ∧ (∀ later text', entity_id later = Some id →
               model_dump_json later = Ok text' →
               update' later dir' = (Ok later, snd (update' later dir)))
          ∧ (∀ later e, entity_id later = Some id →
               model_dump_json later = Raise e →
               update' later dir' = (Raise e, dir')).
Proof.
  intros Hid Hne Hloc Hsome Hdump. exists (<[key := text]> dir).
  assert (is_Some (<[key := text]> dir !! key)) as Hsome'
    by (rewrite lookup_insert_eq; by eexists).
  split_and!.
  - by eapply update_stored.
  - by rewrite lookup_insert_eq.
  - eapply get_stored; [done|]. by rewrite lookup_insert_eq.
  - apply set_eq. intros k. rewrite !elem_of_dom.
    destruct (decide (k = key)) as [->|Hk].
    + by split.
    + by rewrite lookup_insert_ne.
  - intros later text' Hlater Hdump'.
    rewrite (update_stored later id key text') by done.
    rewrite (update_stored later id key text' dir) by done. cbn [snd].
    by rewrite insert_insert_eq.
  - intros later e Hlater Hdump'. by eapply update_refused.
Qed.

(** X13: for an id that names a file [key] of the storage:
    [delete_workflow] of a stored id returns [True] and removes the
    file, after which [get] of the id and a second delete fail with
    [NotFoundError] and an entity of that id can be created again;
    [delete_workflow] of an id whose file is not there raises
    [NotFoundError] and leaves the files as they were. It never returns
    [False]. *)
Theorem delete_then_get (id key : string) (dir : gmap string D) :
  locate id = File key →
  (is_Some (dir !! key) →
     ∃ dir', delete' id dir = (Ok true, dir')
             ∧ dir' !! key = None
             ∧ get' id dir' = Raise (missing_error id)
             ∧ delete' id dir' = (Raise (missing_error id), dir')
             ∧ ∀ entity text, entity_id entity = Some id → id ≠ "" →
                 model_dump_json entity = Ok text →
                 fst (create' entity dir') = Ok entity)
  ∧ (dir !! key = None → delete' id dir = (Raise (missing_error id), dir))
  ∧ exn_cls (missing_error (T:=T) id) = NotFoundError
  ∧ (∀ dir', delete' id dir ≠ (Ok false, dir')).
Proof.
  intros Hloc. split_and!.
  - intros [d Hd]. exists (delete key dir).
    unfold delete_workflow, _delete. rewrite Hloc, Hd, lookup_delete_eq.
    split_and!; try done.
    + eapply get_missing; [done|]. by rewrite lookup_delete_eq.
    + intros entity text Hid Hne Hdump.
      rewrite (create_fresh entity id key text); [done..| |done].
      by rewrite lookup_delete_eq.
  - intros Hnone. unfold delete_workflow, _delete. by rewrite Hloc, Hnone.
  - done.
  - intros dir'. unfold delete_workflow, _delete. rewrite Hloc.
    by destruct (dir !! key).
Qed.

(** X14: the operations on one id leave every id that names another
    file alone: when [id'] does not name the file that [id] names, then
    after a [create], an [update] or a delete under [id], whether it
    succeeds or not, [get] of [id'] returns what it returned before. *)
Theorem storage_isolation (entity : T) (id id' : string) (dir : gmap string D) :
  entity_id entity = Some id →
  (∀ key, locate id = File key → locate id' ≠ File key) →
  get' id' (snd (create' entity dir)) = get' id' dir
  ∧ get' id' (snd (update' entity dir)) = get' id' dir
  ∧ get' id' (snd (delete' id dir)) = get' id' dir.
Proof.
  intros Hid Hother.
  assert (∀ key text, locate id = File key →
            get' id' (<[key := text]> dir) = get' id' dir) as Hinsert.
  { intros key text Hloc. unfold _get.
    destruct (locate id') as [key'| |] eqn:Hloc'; [|done..].
    rewrite lookup_insert_ne; [done|]. intros ->. by apply (Hother key'). }
  assert (∀ key, locate id = File key →
            get' id' (delete key dir) = get' id' dir) as Hdelete.
  { intros key Hloc. unfold _get.
    destruct (locate id') as [key'| |] eqn:Hloc'; [|done..].
    rewrite lookup_delete_ne; [done|]. intros ->. by apply (Hother key'). }
  unfold _create, _update, delete_workflow, _delete, write_text. rewrite Hid.
  change (default "" (Some id)) with id. split_and!.
  - destruct (falsy_id (Some id)); [done|].
    destruct (locate id) as [key|e|e] eqn:Hloc.
    + destruct (dir !! key); [done|].
      destruct (model_dump_json entity); [|done]. cbn [snd]. by apply Hinsert.
    + by destruct (model_dump_json entity).
    + done.
  - destruct (falsy_id (Some id)); [done|].
    destruct (locate id) as [key|e|e] eqn:Hloc; [|done..].
    destruct (dir !! key); [|done].
    destruct (model_dump_json entity); [|done]. cbn [snd]. by apply Hinsert.
  - destruct (locate id) as [key|e|e] eqn:Hloc; [|done..].
    destruct (dir !! key); [|done]. cbn [snd]. by apply Hdelete.
Qed.

Lemma elem_of_list_entities (filters : T → bool) (dir : gmap string D) (entity : T) :
  entity ∈ _list model_validate_json filters dir
  ↔ ∃ name text, dir !! name = Some text ∧ json_file name = true
                 ∧ model_validate_json text = Ok entity
                 ∧ filters entity = true.
Proof.
  unfold _list. rewrite list_elem_of_omap. split.
  - intros ([name text] & Hin & Hsome). apply elem_of_map_to_list in Hin.
    cbn [fst snd] in Hsome. exists name, text.
    destruct (json_file name); [|done].
    destruct (model_validate_json text) as [e'|]; [|done].
    destruct (filters e') eqn:Hf; [|done]. by injection Hsome as ->.
  - intros (name & text & Hd & Hj & Hv & Hf). exists (name, text).
    split; [by apply elem_of_map_to_list|]. cbn [fst snd]. by rewrite Hj, Hv, Hf.
Qed.

(** X15: [_list] returns exactly the entities read from the entries of
    the storage directory named [*.json] that parse and pass the
    filters; a file that does not parse is passed over without an
    error. An entity that [get] returns for a plain file name as id
    (no separator in it, the path naming the entry of that name) is
    among those listed, when it passes the filters. *)
Theorem list_lists_stored (filters : T → bool) (dir : gmap string D) :
  (∀ entity, entity ∈ _list model_validate_json filters dir
             ↔ ∃ name text, dir !! name = Some text ∧ json_file name = true
                            ∧ model_validate_json text = Ok entity
                            ∧ filters entity = true)
  ∧ (∀ id entity, Py.has_char "/" id = false → locate id = File (entity_file id) →
       get' id dir = Ok entity → filters entity = true →
       entity ∈ _list model_validate_json filters dir).
Proof.
  split; [apply elem_of_list_entities|]. intros id entity Hplain Hloc Hget Hf.
  apply elem_of_list_entities.
  unfold _get in Hget. rewrite Hloc in Hget.
  destruct (dir !! entity_file id) as [text|] eqn:Hd; [|done].
  exists (entity_file id), text. split_and!; try done.
  by apply json_file_entity_file.
Qed.

End StorageContract.

(** A host for the examples: every id they use is a plain file name,
    and the path of such an id names the entry [id.json]. *)
Definition sample_locate (id : string) : FilesystemStorage.location :=
  FilesystemStorage.File (FilesystemStorage.entity_file id).

Definition nameless_workflow : WorkflowDefinition.t :=
  WorkflowDefinition.mk "" "untitled" None "a"
    [StepDefinition.mk "a" StepType.DELAY ∅ None] WorkflowStatus.ACTIVE 0 0.

Definition sample_workflow_id : WorkflowDefinition.t :=
  WorkflowDefinition.mk "wf" "untitled" None "a"
    [StepDefinition.mk "a" StepType.DELAY ∅ None] WorkflowStatus.ACTIVE 0 0.

(** The storage contract at a workflow stored under the id [wf] in an
    empty directory. *)
Lemma storage_contract_witness :
  (∅ : gmap string WorkflowDefinition.t) !! "wf.json" = None
  ∧ FilesystemStorage._get sample_locate WorkflowDefinition.construct "wf"
      (snd (FilesystemStorage._create sample_locate Ok sample_workflow_id ∅))
    = Ok sample_workflow_id.
Proof.
  split; [done|].
  destruct (@storage_contract WorkflowDefinition.t WorkflowDefinition.t
              WorkflowDefinition_entity sample_locate Ok WorkflowDefinition.construct
              sample_workflow_id "wf" "wf.json" sample_workflow_id ∅
              eq_refl ltac:(discriminate) eq_refl eq_refl eq_refl) as (Hc & _).
  destruct (Hc eq_refl) as (dir' & Hcreate & Hget & _). by rewrite Hcreate.
Defined.

(** C7 as stated fails on an entity whose id is the empty string: with
    no record stored, [update] raises [ValueError], not [NotFoundError],
    and [create] never stores it. *)
Lemma storage_empty_id_counterexample :
  WorkflowDefinition.construct nameless_workflow = Ok nameless_workflow
  ∧ (∅ : gmap string WorkflowDefinition.t) !! FilesystemStorage.entity_file "" = None
  ∧ FilesystemStorage._update sample_locate Ok nameless_workflow ∅
    = (Raise (Exn ValueError "Entity must have an 'id' or 'run_id' attribute."), ∅)
  ∧ FilesystemStorage._create sample_locate Ok nameless_workflow ∅
    = (Raise (Exn ValueError "Entity must have an 'id' or 'run_id' attribute."), ∅).
Proof. split_and!; by vm_compute. Qed.

Definition renamed_workflow : WorkflowDefinition.t :=
  WorkflowDefinition.mk "wf" "renamed" None "a"
    [StepDefinition.mk "a" StepType.DELAY ∅ None] WorkflowStatus.ACTIVE 0 0.

Lemma update_then_get_witness :
  ∃ dir',
    FilesystemStorage._update sample_locate Ok renamed_workflow
      {[ "wf.json" := sample_workflow_id ]}
    = (Ok renamed_workflow, dir')
    ∧ FilesystemStorage._get sample_locate Ok "wf" dir' = Ok renamed_workflow.
Proof.
  destruct (@update_then_get WorkflowDefinition.t WorkflowDefinition.t
              WorkflowDefinition_entity sample_locate Ok Ok
              renamed_workflow "wf" "wf.json" renamed_workflow
              {[ "wf.json" := sample_workflow_id ]})
    as (dir' & Hupdate & _ & Hget & _).
  - done.
  - done.
  - done.
  - vm_compute. by eexists.
  - done.
  - by exists dir'.
Defined.

Lemma delete_then_get_witness :
  ∃ dir',
    FilesystemStorage.delete_workflow (T:=WorkflowDefinition.t) sample_locate "wf"
      {[ "wf.json" := sample_workflow_id ]}
    = (Ok true, dir')
    ∧ FilesystemStorage._get sample_locate Ok "wf" dir'
      = Raise (Exn NotFoundError "WorkflowDefinition with ID wf not found.").
Proof.
  destruct (@delete_then_get WorkflowDefinition.t WorkflowDefinition.t
              WorkflowDefinition_entity sample_locate Ok Ok "wf" "wf.json"
              {[ "wf.json" := sample_workflow_id ]} eq_refl)
    as (Hstored & _).
  destruct Hstored as (dir' & Hdelete & _ & Hget & _).
  - vm_compute. by eexists.
  - by exists dir'.
Defined.

Lemma storage_isolation_witness :
  FilesystemStorage._get sample_locate Ok "wf"
    (snd (FilesystemStorage.delete_workflow (T:=WorkflowDefinition.t) sample_locate
            "other"
            {[ "wf.json" := sample_workflow_id; "other.json" := renamed_workflow ]}))
  = Ok sample_workflow_id.
Proof.
  destruct (@storage_isolation WorkflowDefinition.t WorkflowDefinition.t
              WorkflowDefinition_entity sample_locate Ok Ok
              (WorkflowDefinition.mk "other" "renamed" None "a" [] WorkflowStatus.ACTIVE 0 0)
              "other" "wf"
              {[ "wf.json" := sample_workflow_id; "other.json" := renamed_workflow ]})
    as (_ & _ & Hdelete).
  - done.
  - intros key [= <-]. discriminate.
  - rewrite Hdelete. by vm_compute.
Defined.

(** ** The Delay connector *)

Section DelayContract.
Variable int_of_str : string -> option Z.

Lemma extra_key_None (fields : list string) (config : dict) :
  BaseConnector.extra_key fields config = None
  ↔ ∀ k, is_Some (config !! k) → k ∈ fields.
Proof.
  unfold BaseConnector.extra_key. split.
  - intros Hnone k [v Hk].
    assert (In k (map fst (map_to_list config))) as Hin.
    { apply in_map_iff. exists (k, v). split; [done|].
      apply list_elem_of_In. by apply elem_of_map_to_list. }
    pose proof (find_none _ _ Hnone k Hin) as Hf. simpl in Hf.
    apply negb_false_iff, bool_decide_eq_true in Hf. done.
  - intros Hall. destruct (find _ _) as [k|] eqn:Hf; [|done].
    apply find_some in Hf as [Hin Hk]. exfalso.
    apply negb_true_iff, bool_decide_eq_false in Hk. apply Hk, Hall.
    apply in_map_iff in Hin as ([k' v] & <- & Hin).
    apply list_elem_of_In, elem_of_map_to_list in Hin. by exists v.
Qed.

(** The values an integer field takes outside strict mode, in the
    words of pydantic's conversion table: an integer as it is, [True]
    as 1 and [False] as 0, and a string that reads as an integer. *)
Inductive lax_int : value → Z → Prop :=
| lax_int_int (n : Z) : lax_int (VInt n) n
| lax_int_true : lax_int (VBool true) 1
| lax_int_false : lax_int (VBool false) 0
| lax_int_str (s : string) (n : Z) : int_of_str s = Some n → lax_int (VStr s) n.

(** The raw configs the Delay schema takes, with the number of seconds
    they give: no key besides [type] and [seconds], a string for
    [type] when it is given, and for [seconds] a value that converts to
    a number above zero. *)
Definition delay_config_takes (config : dict) (n : Z) : Prop :=
  (∀ k, is_Some (config !! k) → k = "type" ∨ k = "seconds")
  ∧ (∀ v, config !! "type" = Some v → ∃ s, v = VStr s)
  ∧ ∃ v, config !! "seconds" = Some v ∧ lax_int v n ∧ 0 < n.

Lemma as_int_lax (v : value) (n : Z) :
  DelayConfig.as_int int_of_str v = Some n ↔ lax_int v n.
Proof.
  split.
  - destruct v as [|[]| | | |]; cbn; intros Hv; simplify_eq; by constructor.
  - by destruct 1.
Qed.

Lemma delay_parse_taken (config : dict) (n : Z) :
  delay_config_takes config n
  ↔ ∃ c, DelayConfig.parse int_of_str config = Ok c ∧ DelayConfig.seconds c = n.
Proof.
  unfold DelayConfig.parse, delay_config_takes.
  assert ((∀ k, is_Some (config !! k) → k = "type" ∨ k = "seconds")
          ↔ BaseConnector.extra_key ["type"; "seconds"] config = None) as ->.
  { rewrite extra_key_None. split; intros Hk k Hsome; specialize (Hk k Hsome);
      set_solver. }
  destruct (BaseConnector.extra_key _ _) as [k|]; [naive_solver|].
  assert (∀ ty,
    (∃ v, config !! "seconds" = Some v ∧ lax_int v n ∧ 0 < n)
    ↔ ∃ c, match config !! "seconds" with
           | None => Raise (DelayConfig.err "seconds" "Field required")
           | Some v =>
               match DelayConfig.as_int int_of_str v with
               | None => Raise (DelayConfig.err "seconds" "Input should be a valid integer")
               | Some n => if bool_decide (0 < n) then Ok (DelayConfig.mk ty n)
                           else Raise (DelayConfig.err "seconds"
                                         "Input should be greater than 0")
               end
           end = Ok c ∧ DelayConfig.seconds c = n) as Hsec.
  { intros ty. destruct (config !! "seconds") as [v|];
      [|split; [by intros (v & ? & _)|by intros (c & ? & _)]].
    setoid_rewrite <- as_int_lax.
    destruct (DelayConfig.as_int int_of_str v) as [m|] eqn:Hv;
      [|split; [intros (v' & [= <-] & ? & _); congruence|by intros (c & ? & _)]].
    case_bool_decide as Hpos.
    - split.
      + intros (v' & [= <-] & Hm & _). exists (DelayConfig.mk ty m).
        split; [done|]. cbn. congruence.
      + intros (c & [= <-] & <-). by exists v.
    - split.
      + intros (v' & [= <-] & Hm & Hn). rewrite Hv in Hm. simplify_eq. lia.
      + by intros (c & ? & _). }
  destruct (config !! "type") as [ty|] eqn:Hty.
  - destruct ty; cbn;
      try (split; [intros (_ & Ht & _); by destruct (Ht _ eq_refl)
                  |by intros (c & ? & _)]).
    rewrite <- Hsec. naive_solver.
  - cbn. rewrite <- Hsec. naive_solver.
Qed.

Lemma delay_parse_raise (config : dict) e :
  DelayConfig.parse int_of_str config = Raise e → exn_cls e = ValidationError.
Proof.
  unfold DelayConfig.parse. intros Hp.
  repeat (case_match; simpl in *; simplify_eq); done.
Qed.

(** What a Delay connector built from a config of [n] seconds does
    when executed. *)
Lemma delay_execute (c : DelayConfig.t) (context : dict) (clock : datetime) :
  DelayConnector.execute (DelayConnector.init c) context clock
  = if bool_decide (DelayConfig.seconds c < 2 ^ 1024 - 2 ^ 970)
    then (Ok BaseConnector.Argument, clock + DelayConfig.seconds c)
    else (Raise DelayConnector.overflow_error, clock).
Proof.
  unfold DelayConnector.execute, Py.float_overflow, DelayConnector.init.
  cbn [DelayConnector.seconds]. repeat case_bool_decide; try done; lia.
Qed.

(** C8, as the code has it. The raw config is taken exactly when
    [seconds] is there and converts to an integer above zero, [type] if
    given is a string, and there is no other key; a config that is not
    taken fails with a validation error. The connector built from a
    config of [n] seconds hands back the very context it was given,
    with the clock [n] seconds on, when [n] is below
    [2**1024 - 2**970]; from that number on the sleep raises
    [OverflowError] and nothing is handed back. *)
Theorem delay_contract (config : dict) (context : dict) (clock : datetime) :
  (is_ok (DelayConfig.parse int_of_str config) = true
   ↔ ∃ n, delay_config_takes config n)
  ∧ (∀ e, DelayConfig.parse int_of_str config = Raise e → exn_cls e = ValidationError)
  ∧ (∀ n, delay_config_takes config n →
       ∃ c, DelayConfig.parse int_of_str config = Ok c
            ∧ (n < 2 ^ 1024 - 2 ^ 970 →
                 ∃ out, DelayConnector.execute (DelayConnector.init c) context clock
                        = (Ok out, clock + n)
                        ∧ BaseConnector.value_of context out = context
                        ∧ WorkflowEngine.as_output out = StepRun.RunContext)
            ∧ (2 ^ 1024 - 2 ^ 970 ≤ n →
                 DelayConnector.execute (DelayConnector.init c) context clock
                 = (Raise (Exn (OtherError "OverflowError")
                             "int too large to convert to float"), clock))).
Proof.
  split_and!.
  - split.
    + destruct (DelayConfig.parse int_of_str config) as [c|] eqn:Hc; [|done].
      intros _. exists (DelayConfig.seconds c). apply delay_parse_taken. by exists c.
    + intros [n Hn]. apply delay_parse_taken in Hn as (c & -> & _). done.
  - apply delay_parse_raise.
  - intros n Hn. apply delay_parse_taken in Hn as (c & Hc & <-). exists c.
    split; [done|]. rewrite delay_execute. split.
    + intros Hlt. rewrite bool_decide_eq_true_2 by done. by eexists.
    + intros Hge. by rewrite bool_decide_eq_false_2 by lia.
Qed.
End DelayContract.

(** C8 as stated fails twice. A config that names the schema's second
    field is accepted: [type] besides [seconds]. And execution has a
    failure of its own: [2**1024] seconds are a valid config, and the
    sleep raises [OverflowError]. *)
Lemma delay_config_counterexample :
  size ({[ "type" := VStr "pause"; "seconds" := VInt 2 ]} : dict) = 2%nat
  ∧ DelayConfig.parse (fun _ => None) {[ "type" := VStr "pause"; "seconds" := VInt 2 ]}
    = Ok (DelayConfig.mk "pause" 2)
  ∧ DelayConfig.parse (fun _ => None) {[ "seconds" := VInt (2 ^ 1024) ]}
    = Ok (DelayConfig.mk "delay" (2 ^ 1024))
  ∧ DelayConnector.execute (DelayConnector.init (DelayConfig.mk "delay" (2 ^ 1024))) ∅ 0
    = (Raise (Exn (OtherError "OverflowError") "int too large to convert to float"), 0).
Proof. split_and!; by vm_compute. Qed.

(** ** The Webhook connector's config *)

Section WebhookContract.
Variable has_scheme_and_netloc : string -> bool.

Lemma upper_char_idemp (c : ascii) : Py.upper_char (Py.upper_char c) = Py.upper_char c.
Proof. destruct c as [[] [] [] [] [] [] [] []]; reflexivity. Qed.

Lemma upper_idemp (s : string) : Py.upper (Py.upper s) = Py.upper s.
Proof.
  unfold Py.upper. rewrite list_ascii_of_string_of_list_ascii, map_map. f_equal.
  apply map_ext. intros c. apply upper_char_idemp.
Qed.

(** The method the raw config asks for: [POST] when it names none. *)
Definition asked_method (config : dict) : option string :=
  match config !! "method" with
  | None => Some "POST"
  | Some v => BaseConnector.as_str v
  end.

(** X21: what a raw config the Webhook schema takes is turned into:
    the url is the text given, which has a scheme and a host; the
    method is the one asked for ([POST] when none is) in upper case, and
    the connector built from the config sends under exactly that
    method; headers not given are empty; and the raw config has no key
    besides the five fields. *)
Theorem webhook_config_normalised (config : dict) (c : WebhookConfig.t) :
  WebhookConfig.parse has_scheme_and_netloc config = Ok c →
  config !! "url" = Some (VStr (WebhookConfig.url c))
  ∧ has_scheme_and_netloc (WebhookConfig.url c) = true
  ∧ (∃ m, asked_method config = Some m ∧ WebhookConfig.method c = Py.upper m)
  ∧ WebhookConnector.method (WebhookConnector.init c) = WebhookConfig.method c
  ∧ WebhookConnector.url (WebhookConnector.init c) = WebhookConfig.url c
  ∧ (config !! "headers" = None → WebhookConfig.headers c = [])
  ∧ (∀ k, is_Some (config !! k) → k ∈ ["type"; "url"; "method"; "headers"; "body"]).
Proof.
  unfold WebhookConfig.parse, WebhookConfig.str_field, asked_method. intros Hp.
  destruct (BaseConnector.extra_key _ config) as [k|] eqn:Hextra; [done|].
  pose proof (proj1 (extra_key_None _ _) Hextra) as Hkeys.
  destruct (match config !! "type" with Some _ => _ | None => _ end) as [ty|];
    [|done]. cbn in Hp.
  destruct (config !! "url") as [[| | |u| |]|]; try done.
  destruct (has_scheme_and_netloc u) eqn:Hu; [|done]. cbn in Hp.
  destruct (config !! "method") as [vm|].
  - destruct (BaseConnector.as_str vm) as [m|]; [|done]. cbn in Hp.
    destruct (match config !! "headers" with Some _ => _ | None => _ end) as [h|] eqn:Hh;
      [|done]. cbn in Hp.
    destruct (match config !! "body" with Some _ => _ | None => _ end) as [b|];
      [|done]. cbn in Hp. injection Hp as <-. cbn.
    split_and!; try done.
    + by exists m.
    + apply upper_idemp.
    + intros Hnone. rewrite Hnone in Hh. by injection Hh as <-.
  - cbn in Hp.
    destruct (match config !! "headers" with Some _ => _ | None => _ end) as [h|] eqn:Hh;
      [|done]. cbn in Hp.
    destruct (match config !! "body" with Some _ => _ | None => _ end) as [b|];
      [|done]. cbn in Hp. injection Hp as <-. cbn.
    split_and!; try done.
    + by exists "POST".
    + intros Hnone. rewrite Hnone in Hh. by injection Hh as <-.
Qed.
End WebhookContract.

(** ** The status operations of the engine *)

(** C10: on an engine as [__init__] builds it, [get_run_status] and
    [list_workflow_runs] fail with [AttributeError] for every argument:
    they read [self.storage], and the constructor sets only
    [workflow_storage] and [run_storage]. *)
Theorem status_operations_fail (workflow_storage run_storage : WorkflowEngine.Storage)
    (run_id workflow_id : string) (w : WorkflowEngine.world) :
  WorkflowEngine.get_run_status
    (WorkflowEngine.__init__ workflow_storage run_storage) run_id w
  = Raise (Exn AttributeError "'WorkflowEngine' object has no attribute 'storage'")
  ∧ WorkflowEngine.list_workflow_runs
      (WorkflowEngine.__init__ workflow_storage run_storage) workflow_id w
    = Raise (Exn AttributeError "'WorkflowEngine' object has no attribute 'storage'")
  ∧ dom (WorkflowEngine.__init__ workflow_storage run_storage)
    = ({[ "workflow_storage"; "run_storage" ]} : gset string).
Proof.
  unfold WorkflowEngine.get_run_status, WorkflowEngine.list_workflow_runs,
    WorkflowEngine.getattr, WorkflowEngine.__init__.
  rewrite !lookup_insert_ne, lookup_empty by done. split_and!; [done..|].
  rewrite !dom_insert_L, dom_empty_L. set_solver.
Qed.

(** ** The run state machine *)

Section RunStateMachine.
Import WorkflowEngine.
Variable format_tail : string -> dict -> result string.
Variable int_of_str : string -> option Z.
Variable has_scheme_and_netloc : string -> bool.
Variable client_request : datetime -> httpx.request -> result httpx.response.
Variable locate_workflow : string -> FilesystemStorage.location.
Variable workflow_invalid : WorkflowDefinition.t -> option string.
Variable locate_run : string -> FilesystemStorage.location.
Variable run_json_error : WorkflowRun.t -> option exn.
Variable run_validate : WorkflowRun.t -> result WorkflowRun.t.

Abbreviation execute_step :=
  (_execute_step format_tail int_of_str has_scheme_and_netloc client_request).
Abbreviation try_step' :=
  (try_step format_tail int_of_str has_scheme_and_netloc client_request).
Abbreviation update_run' := (update_run locate_run run_json_error).
Abbreviation get_run' := (get_run locate_run run_validate).
Abbreviation get_workflow' := (get_workflow locate_workflow workflow_invalid).
Abbreviation list_runs' := (list_runs run_validate).
Abbreviation step_failed' := (step_failed locate_run run_json_error).
Abbreviation loop_body' :=
  (loop_body format_tail int_of_str has_scheme_and_netloc client_request
     locate_run run_json_error).
Abbreviation loop' :=
  (loop format_tail int_of_str has_scheme_and_netloc client_request
     locate_run run_json_error).
Abbreviation recover' := (recover locate_run run_json_error run_validate).
Abbreviation execute_workflow :=
  (_execute_workflow format_tail int_of_str has_scheme_and_netloc client_request
     locate_workflow workflow_invalid locate_run run_json_error run_validate).
Abbreviation start_workflow' :=
  (start_workflow locate_workflow workflow_invalid locate_run run_json_error).

Implicit Types (run r : WorkflowRun.t) (w : world) (e : exn).

(** The file of a run holds what [update_run] last wrote. *)
Definition run_file (run_id : string) : string := FilesystemStorage.entity_file run_id.

Definition persist run w : world :=
  set_runs (<[run_file (WorkflowRun.run_id run) := WorkflowRun.model_dump run]> (runs w)) w.

Definition stored (run_id : string) w : Prop := is_Some (runs w !! run_file run_id).

(** The id of the run is a plain file name, as the text of a uuid is:
    its path is the entry of that name in the directory of the runs. *)
Definition located (run_id : string) : Prop :=
  locate_run run_id = FilesystemStorage.File (run_file run_id).

(** The error of the serialiser for the run, and the runs it takes. *)
Definition unwritable run : option exn := run_json_error (WorkflowRun.model_dump run).

Definition writable run : Prop := unwritable run = None.

Lemma set_runs_same w : set_runs (runs w) w = w.
Proof. by destruct w. Qed.

(** [update_run] of a run whose file is there: the file is rewritten,
    unless the serialiser raises, and then nothing is written. *)
Lemma update_run_located run w :
  WorkflowRun.run_id run ≠ "" → located (WorkflowRun.run_id run) →
  stored (WorkflowRun.run_id run) w →
  update_run' run w
  = match unwritable run with
    | Some e => (Raise e, w)
    | None => (Ok tt, persist run w)
    end.
Proof.
  intros Hne Hloc [d Hd]. unfold update_run, FilesystemStorage._update, persist.
  cbn. destruct (WorkflowRun.run_id run) eqn:Hid; [done|]. cbn.
  rewrite <- Hid in *. rewrite Hloc, Hd.
  unfold FilesystemStorage.write_text, dump_run, unwritable.
  destruct (run_json_error _); cbn; [by rewrite set_runs_same|done].
Qed.

Lemma update_run_stored run w :
  WorkflowRun.run_id run ≠ "" → located (WorkflowRun.run_id run) →
  stored (WorkflowRun.run_id run) w → writable run →
  update_run' run w = (Ok tt, persist run w).
Proof. intros Hne Hloc Hst Hw. by rewrite update_run_located, Hw. Qed.

(** [update_run] writes to the directory of the runs and nowhere
    else. *)
Lemma update_run_frame run w res w' :
  update_run' run w = (res, w') →
  clock w' = clock w ∧ workflows w' = workflows w ∧ tasks w' = tasks w.
Proof.
  unfold update_run. destruct (FilesystemStorage._update _ _ _ _) as [r d].
  by intros [= _ <-].
Qed.

Lemma stored_persist run w : stored (WorkflowRun.run_id run) (persist run w).
Proof. unfold stored, persist. cbn. rewrite lookup_insert_eq. by eexists. Qed.

Lemma stored_set_clock i c w : stored i (set_clock c w) ↔ stored i w.
Proof. done. Qed.

Lemma file_persist run w :
  runs (persist run w) !! run_file (WorkflowRun.run_id run)
  = Some (WorkflowRun.model_dump run).
Proof. unfold persist. cbn. by rewrite lookup_insert_eq. Qed.

(** Reading a run gives what the model makes of its file. *)
Lemma get_run_file run_id file w :
  located run_id → runs w !! run_file run_id = Some file →
  get_run' run_id w = run_validate file.
Proof.
  intros Hloc Hfile. unfold get_run, FilesystemStorage._get. by rewrite Hloc, Hfile.
Qed.

(** The run as the [except] branch of a step leaves it. *)
Definition failed_run (step_id : string) e (now : datetime) run : WorkflowRun.t :=
  WorkflowRun.set_completed_at (Some now)
    (WorkflowRun.set_error (Some ("Step " ++ step_id ++ " failed: " ++ exn_str e))
       (WorkflowRun.set_status RunStatus.FAILED
          (WorkflowRun.fail_step now step_id (exn_str e) run))).

Lemma run_id_start_step now i run :
  WorkflowRun.run_id (WorkflowRun.start_step now i run) = WorkflowRun.run_id run.
Proof.
  unfold WorkflowRun.start_step, WorkflowRun.add_step.
  repeat case_match; done.
Qed.

Lemma run_id_fail_step now i m run :
  WorkflowRun.run_id (WorkflowRun.fail_step now i m run) = WorkflowRun.run_id run.
Proof. unfold WorkflowRun.fail_step. by case_match. Qed.

Lemma run_id_complete_step now i o run :
  WorkflowRun.run_id (WorkflowRun.complete_step now i o run) = WorkflowRun.run_id run.
Proof. unfold WorkflowRun.complete_step. by case_match. Qed.

Lemma run_id_failed_run i e now run :
  WorkflowRun.run_id (failed_run i e now run) = WorkflowRun.run_id run.
Proof. unfold failed_run. cbn. apply run_id_fail_step. Qed.

Lemma step_failed_located i e run w :
  WorkflowRun.run_id run ≠ "" → located (WorkflowRun.run_id run) →
  stored (WorkflowRun.run_id run) w →
  step_failed' i e run w
  = match unwritable (failed_run i e (clock w) run) with
    | Some e' => (Escape e', w)
    | None => (Return, persist (failed_run i e (clock w) run) w)
    end.
Proof.
  intros Hne Hloc Hst. unfold step_failed.
  change (WorkflowRun.set_completed_at _ _) with (failed_run i e (clock w) run).
  rewrite update_run_located by (by rewrite run_id_failed_run).
  by destruct (unwritable _).
Qed.

(** What a successful [try] makes of the run. *)
Definition stepped_run (step_def : StepDefinition.t) (step_id : string)
    (output : BaseConnector.returned) (now : datetime) run : WorkflowRun.t :=
  let out := BaseConnector.value_of (WorkflowRun.context run) output in
  WorkflowRun.set_current_step_id (StepDefinition.next_step_id step_def)
    (WorkflowRun.complete_step now step_id (Some (as_output output))
       (WorkflowRun.set_context (out ∪ WorkflowRun.context run) run)).

Lemma set_context_same run : WorkflowRun.set_context (WorkflowRun.context run) run = run.
Proof. by destruct run. Qed.

Lemma try_step_Ok step_def i run c r c' :
  try_step' step_def i run c = (Ok r, c') →
  ∃ output,
    execute_step step_def (WorkflowRun.context run) c = (Ok output, c')
    ∧ (BaseConnector.value_of (WorkflowRun.context run) output ≠ ∅ →
         BaseConnector.value_of (WorkflowRun.context run) output !! "self" = None)
    ∧ r = stepped_run step_def i output c' run.
Proof.
  unfold try_step. destruct (execute_step _ _ _) as [[output|e] c''] eqn:He; [|done].
  cbn. unfold Py.truthy_dict. case_bool_decide as Hempty; cbn.
  - intros [= <- <-]. exists output. split_and!; [done..|].
    unfold stepped_run. rewrite Hempty, (left_id_L ∅ (∪)). by rewrite set_context_same.
  - unfold WorkflowRun.update_context. case_bool_decide as Hself; cbn; [done|].
    intros [= <- <-]. exists output. split_and!; [done| |done].
    intros _. destruct (_ !! "self") eqn:Hs; [|done]. exfalso. apply Hself. by eexists.
Qed.

Lemma try_step_Ok_intro step_def i run c output c' :
  execute_step step_def (WorkflowRun.context run) c = (Ok output, c') →
  BaseConnector.value_of (WorkflowRun.context run) output !! "self" = None →
  try_step' step_def i run c = (Ok (stepped_run step_def i output c' run), c').
Proof.
  intros He Hself. unfold try_step. rewrite He. cbn.
  unfold Py.truthy_dict. case_bool_decide as Hempty; cbn.
  - unfold stepped_run. rewrite Hempty, (left_id_L ∅ (∪)). by rewrite set_context_same.
  - unfold WorkflowRun.update_context. rewrite Hself.
    case_bool_decide as Hs; [by destruct Hs|done].
Qed.

Lemma run_id_stepped_run step_def i output now run :
  WorkflowRun.run_id (stepped_run step_def i output now run) = WorkflowRun.run_id run.
Proof. unfold stepped_run. cbn. by rewrite run_id_complete_step. Qed.

(** One pass of the loop over a stored run: the step is marked running
    and persisted, then either the [try] succeeds and the run goes on,
    or it raises and the failed run is persisted. Every write can be
    refused by the serialiser, and the error then leaves the loop. *)
Lemma loop_body_stored workflow step_def i run w :
  WorkflowDefinition.get_step workflow i = Some step_def →
  WorkflowRun.run_id run ≠ "" → located (WorkflowRun.run_id run) →
  stored (WorkflowRun.run_id run) w →
  let run1 := WorkflowRun.start_step (clock w) i run in
  let w1 := persist run1 w in
  loop_body' workflow i run w =
  match unwritable run1 with
  | Some e => (Escape e, w)
  | None =>
      match try_step' step_def i run1 (clock w) with
      | (Raise e, c) =>
          match unwritable (failed_run i e c run1) with
          | Some e' => (Escape e', set_clock c w1)
          | None => (Return, persist (failed_run i e c run1) (set_clock c w1))
          end
      | (Ok run2, c) =>
          match unwritable run2 with
          | Some e' => (Escape e', set_clock c w1)
          | None => (Next run2, persist run2 (set_clock c w1))
          end
      end
  end.
Proof.
  intros Hdef Hne Hloc Hst run1 w1. unfold loop_body. rewrite Hdef.
  fold run1.
  assert (WorkflowRun.run_id run1 = WorkflowRun.run_id run) as Hid1
    by apply run_id_start_step.
  rewrite update_run_located by (by rewrite Hid1).
  destruct (unwritable run1); [done|].
  fold w1. change (clock w1) with (clock w).
  assert (stored (WorkflowRun.run_id run) w1) as Hst1.
  { rewrite <- Hid1. apply stored_persist. }
  destruct (try_step' step_def i run1 (clock w)) as [[run2|e] c] eqn:Ht.
  - apply try_step_Ok in Ht as (output & _ & _ & ->).
    rewrite update_run_located by (by rewrite run_id_stepped_run, Hid1).
    by destruct (unwritable _).
  - rewrite step_failed_located by (by rewrite Hid1).
    done.
Qed.

(** *** What a pass does to the step records *)

Lemma steps_start_step_ne now i j run :
  j ≠ i → WorkflowRun.steps (WorkflowRun.start_step now i run) !! j
          = WorkflowRun.steps run !! j.
Proof.
  intros Hne. unfold WorkflowRun.start_step, WorkflowRun.add_step.
  repeat case_match; cbn; rewrite ?lookup_alter_ne, ?lookup_insert_ne by done; done.
Qed.

Lemma steps_start_step_eq now i run :
  ∃ sr, WorkflowRun.steps (WorkflowRun.start_step now i run) !! i = Some sr
        ∧ StepRun.status sr = StepStatus.RUNNING
        ∧ StepRun.start_time sr = Some now.
Proof.
  unfold WorkflowRun.start_step, WorkflowRun.add_step.
  destruct (WorkflowRun.steps run !! i) as [sr|] eqn:Hi.
  - exists (StepRun.mk (StepRun.step_id sr) StepStatus.RUNNING (Some now)
              (StepRun.end_time sr) (StepRun.error sr) (StepRun.output sr)).
    split; [|done].
    case_bool_decide; cbn; rewrite lookup_alter_eq, Hi; reflexivity.
  - exists (StepRun.mk i StepStatus.RUNNING (Some now) None None None).
    split; [|done].
    case_bool_decide; cbn; rewrite lookup_alter_eq, lookup_insert_eq; reflexivity.
Qed.

Lemma context_start_step now i run :
  WorkflowRun.context (WorkflowRun.start_step now i run) = WorkflowRun.context run.
Proof.
  unfold WorkflowRun.start_step, WorkflowRun.add_step. repeat case_match; done.
Qed.

Lemma steps_failed_run_ne i j e now run :
  j ≠ i → WorkflowRun.steps (failed_run i e now run) !! j = WorkflowRun.steps run !! j.
Proof.
  intros Hne. unfold failed_run, WorkflowRun.fail_step.
  case_match; cbn; rewrite ?lookup_alter_ne by done; done.
Qed.

Lemma steps_failed_run_eq i e now run sr :
  WorkflowRun.steps run !! i = Some sr →
  WorkflowRun.steps (failed_run i e now run) !! i
  = Some (StepRun.mk (StepRun.step_id sr) StepStatus.FAILED (StepRun.start_time sr)
            (Some now) (Some (exn_str e)) (StepRun.output sr)).
Proof.
  intros Hi. unfold failed_run, WorkflowRun.fail_step. rewrite Hi. cbn.
  by rewrite lookup_alter_eq, Hi.
Qed.

Lemma steps_stepped_run_ne step_def i j output now run :
  j ≠ i → WorkflowRun.steps (stepped_run step_def i output now run) !! j
          = WorkflowRun.steps run !! j.
Proof.
  intros Hne. unfold stepped_run, WorkflowRun.complete_step. cbn.
  case_match; cbn; rewrite ?lookup_alter_ne by done; done.
Qed.

Lemma steps_stepped_run_eq step_def i output now run sr :
  WorkflowRun.steps run !! i = Some sr →
  ∃ out, WorkflowRun.steps (stepped_run step_def i output now run) !! i
         = Some (StepRun.mk (StepRun.step_id sr) StepStatus.COMPLETED
                   (StepRun.start_time sr) (Some now) (StepRun.error sr) (Some out)).
Proof.
  intros Hi. unfold stepped_run, WorkflowRun.complete_step. cbn. rewrite Hi. cbn.
  eexists. by rewrite lookup_alter_eq, Hi.
Qed.

(** No step record is marked skipped. *)
Definition none_skipped run : Prop :=
  ∀ j sr, WorkflowRun.steps run !! j = Some sr → StepRun.status sr ≠ StepStatus.SKIPPED.

Lemma none_skipped_start_step now i run :
  none_skipped run → none_skipped (WorkflowRun.start_step now i run).
Proof.
  intros Hns j sr. destruct (decide (j = i)) as [->|Hne].
  - destruct (steps_start_step_eq now i run) as (sr' & -> & Hst & _).
    intros [= <-]. by rewrite Hst.
  - rewrite steps_start_step_ne by done. apply Hns.
Qed.

Lemma none_skipped_stepped_run step_def i output now run :
  none_skipped run → none_skipped (stepped_run step_def i output now run).
Proof.
  intros Hns j sr. destruct (decide (j = i)) as [->|Hne].
  - destruct (WorkflowRun.steps run !! i) as [sr'|] eqn:Hi.
    + destruct (steps_stepped_run_eq step_def i output now run sr' Hi) as (out & ->).
      by intros [= <-].
    + unfold stepped_run, WorkflowRun.complete_step. cbn. rewrite Hi. cbn.
      by rewrite Hi.
  - rewrite steps_stepped_run_ne by done. apply Hns.
Qed.

Lemma none_skipped_failed_run i e now run :
  none_skipped run → none_skipped (failed_run i e now run).
Proof.
  intros Hns j sr. destruct (decide (j = i)) as [->|Hne].
  - destruct (WorkflowRun.steps run !! i) as [sr'|] eqn:Hi.
    + rewrite (steps_failed_run_eq i e now run sr' Hi). by intros [= <-].
    + unfold failed_run, WorkflowRun.fail_step. rewrite Hi. cbn. by rewrite Hi.
  - rewrite steps_failed_run_ne by done. apply Hns.
Qed.

(** *** Passes of the loop that succeed *)

(** [passes workflow run w ids run' w']: from [run] in [w], the loop
    makes one successful pass for each of [ids] in turn and stands at
    [run'] in [w']. *)
Inductive passes (workflow : WorkflowDefinition.t)
  : WorkflowRun.t → world → list string → WorkflowRun.t → world → Prop :=
| passes_nil run w : passes workflow run w [] run w
| passes_cons run w i run1 w1 ids run2 w2 :
    current_step run = Some i →
    loop_body' workflow i run w = (Next run1, w1) →
    passes workflow run1 w1 ids run2 w2 →
    passes workflow run w (i :: ids) run2 w2.

(** What a pass that goes on has done to the run object, whatever the
    storage holds. *)
Lemma pass_run workflow i run w run1 w1 :
  loop_body' workflow i run w = (Next run1, w1) →
  ∃ step_def output c,
    WorkflowDefinition.get_step workflow i = Some step_def
    ∧ execute_step step_def (WorkflowRun.context run) (clock w) = (Ok output, c)
    ∧ run1 = stepped_run step_def i output c (WorkflowRun.start_step (clock w) i run)
    ∧ clock w1 = c.
Proof.
  unfold loop_body.
  destruct (WorkflowDefinition.get_step workflow i) as [step_def|]; [|done].
  destruct (update_run' _ w) as [[[]|e] wa] eqn:Hu; [|done].
  apply update_run_frame in Hu as (Hclock & _). rewrite Hclock.
  destruct (try_step' _ _ _ _) as [[run2|e] c] eqn:Ht.
  - destruct (update_run' run2 _) as [[[]|e] wb] eqn:Hu'; [|done].
    intros [= <- <-]. apply update_run_frame in Hu' as (Hclock' & _).
    apply try_step_Ok in Ht as (output & Hexec & _ & ->).
    rewrite context_start_step in Hexec. by exists step_def, output, c.
  - unfold step_failed. by destruct (update_run' _ _) as [[[]|?] ?].
Qed.

(** All there is to a pass that goes on over a stored run. *)
Lemma pass_next workflow i run w run1 w1 :
  WorkflowRun.run_id run ≠ "" → located (WorkflowRun.run_id run) →
  stored (WorkflowRun.run_id run) w →
  loop_body' workflow i run w = (Next run1, w1) →
  ∃ step_def output c,
    WorkflowDefinition.get_step workflow i = Some step_def
    ∧ execute_step step_def (WorkflowRun.context run) (clock w) = (Ok output, c)
    ∧ run1 = stepped_run step_def i output c (WorkflowRun.start_step (clock w) i run)
    ∧ w1 = persist run1
             (set_clock c (persist (WorkflowRun.start_step (clock w) i run) w))
    ∧ WorkflowRun.run_id run1 = WorkflowRun.run_id run
    ∧ writable (WorkflowRun.start_step (clock w) i run)
    ∧ writable run1.
Proof.
  intros Hne Hloc Hst Hb.
  destruct (pass_run _ _ _ _ _ _ Hb) as (sd & output & c & Hdef & Hexec & Hrun1 & Hc).
  rewrite (loop_body_stored workflow sd i run w Hdef Hne Hloc Hst) in Hb. cbn zeta in Hb.
  destruct (unwritable (WorkflowRun.start_step (clock w) i run)) eqn:Hw0; [done|].
  destruct (try_step' _ _ _ _) as [[r2|e] c'] eqn:Ht.
  - destruct (unwritable r2) eqn:Hw2; [done|]. injection Hb as <- <-.
    cbn in Hc. subst c'. exists sd, output, c. split_and!; try done.
    rewrite Hrun1, run_id_stepped_run. apply run_id_start_step.
  - by destruct (unwritable (failed_run _ _ _ _)).
Qed.

Lemma passes_invariant workflow run w ids run' w' :
  passes workflow run w ids run' w' →
  WorkflowRun.run_id run ≠ "" → located (WorkflowRun.run_id run) →
  stored (WorkflowRun.run_id run) w →
  WorkflowRun.run_id run' = WorkflowRun.run_id run
  ∧ stored (WorkflowRun.run_id run) w'
  ∧ workflows w' = workflows w
  ∧ (none_skipped run → none_skipped run')
  ∧ (∀ j, j ∉ ids → WorkflowRun.steps run' !! j = WorkflowRun.steps run !! j).
Proof.
  clear locate_workflow workflow_invalid run_validate.
  induction 1 as [run w|run w i run1 w1 ids run2 w2 Hcur Hb Hp IH]; intros Hne Hloc Hst.
  - done.
  - destruct (pass_next _ _ _ _ _ _ Hne Hloc Hst Hb)
      as (sd & output & c & Hdef & _ & Hrun1 & -> & Hid & _).
    destruct IH as (Hid' & Hst' & Hw & Hns & Hsteps).
    { by rewrite Hid. }
    { by rewrite Hid. }
    { rewrite Hid. rewrite <- Hid. apply stored_persist. }
    split_and!.
    + by rewrite Hid', Hid.
    + by rewrite <- Hid.
    + by rewrite Hw.
    + intros H0. apply Hns. rewrite Hrun1.
      by apply none_skipped_stepped_run, none_skipped_start_step.
    + intros j Hj. rewrite Hsteps by set_solver. rewrite Hrun1.
      rewrite steps_stepped_run_ne by set_solver.
      by rewrite steps_start_step_ne by set_solver.
Qed.

Lemma loop_passes workflow run w ids run' w' n :
  passes workflow run w ids run' w' →
  loop' (length ids + n) workflow run w = loop' n workflow run' w'.
Proof.
  induction 1 as [run w|run w i run1 w1 ids run2 w2 Hcur Hb Hp IH]; [done|].
  cbn [length Nat.add loop]. by rewrite Hcur, Hb.
Qed.

(** *** Starting a run *)

Lemma model_dump_no_output run :
  (∀ j sr, WorkflowRun.steps run !! j = Some sr → StepRun.output sr = None) →
  WorkflowRun.model_dump run = run.
Proof.
  intros Hout. unfold WorkflowRun.model_dump, WorkflowRun.set_steps.
  destruct run as [i wi st cr sa ca cx steps cur err]. cbn in *. f_equal.
  rewrite <- (map_fmap_id steps) at 2. apply map_fmap_ext.
  intros j sr Hj. pose proof (Hout j _ Hj) as Ho.
  destruct sr as [si ss t0 t1 se so]. cbn in *. by subst so.
Qed.

Definition add_steps (run : WorkflowRun.t) (steps : list StepDefinition.t) : WorkflowRun.t :=
  foldl (fun run step => WorkflowRun.add_step (StepDefinition.id step) run) run steps.

Lemma add_steps_fields run steps :
  WorkflowRun.run_id (add_steps run steps) = WorkflowRun.run_id run
  ∧ WorkflowRun.workflow_id (add_steps run steps) = WorkflowRun.workflow_id run
  ∧ WorkflowRun.status (add_steps run steps) = WorkflowRun.status run
  ∧ WorkflowRun.started_at (add_steps run steps) = WorkflowRun.started_at run
  ∧ WorkflowRun.context (add_steps run steps) = WorkflowRun.context run
  ∧ WorkflowRun.current_step_id (add_steps run steps) = WorkflowRun.current_step_id run.
Proof.
  revert run. induction steps as [|s steps IH]; intros run; [done|].
  change (add_steps run (s :: steps))
    with (add_steps (WorkflowRun.add_step (StepDefinition.id s) run) steps).
  destruct (IH (WorkflowRun.add_step (StepDefinition.id s) run))
    as (-> & -> & -> & -> & -> & ->).
  unfold WorkflowRun.add_step. by case_match.
Qed.

Lemma add_steps_lookup run steps j :
  WorkflowRun.steps (add_steps run steps) !! j
  = match WorkflowRun.steps run !! j with
    | Some sr => Some sr
    | None => if bool_decide (j ∈ WorkflowDefinition.step_ids steps)
              then Some (StepRun.new j) else None
    end.
Proof.
  clear format_tail int_of_str has_scheme_and_netloc client_request
        locate_workflow workflow_invalid locate_run run_json_error run_validate.
  revert run. induction steps as [|s steps IH]; intros run.
  - cbn. by destruct (_ !! j).
  - change (add_steps run (s :: steps))
      with (add_steps (WorkflowRun.add_step (StepDefinition.id s) run) steps).
    rewrite IH. unfold WorkflowRun.add_step.
    destruct (decide (j = StepDefinition.id s)) as [->|Hne].
    + destruct (WorkflowRun.steps run !! StepDefinition.id s) as [sr|] eqn:Hs.
      * by rewrite Hs.
      * cbn. rewrite lookup_insert_eq. rewrite bool_decide_eq_true_2; [done|].
        unfold WorkflowDefinition.step_ids. cbn. set_solver.
    + assert (bool_decide (j ∈ WorkflowDefinition.step_ids (s :: steps))
              = bool_decide (j ∈ WorkflowDefinition.step_ids steps)) as ->.
      { apply bool_decide_ext. unfold WorkflowDefinition.step_ids. cbn. set_solver. }
      destruct (WorkflowRun.steps run !! StepDefinition.id s); [done|].
      cbn. by rewrite lookup_insert_ne.
Qed.

Lemma add_steps_error run steps :
  WorkflowRun.error (add_steps run steps) = WorkflowRun.error run.
Proof.
  revert run. induction steps as [|s steps IH]; intros run; [done|].
  change (add_steps run (s :: steps))
    with (add_steps (WorkflowRun.add_step (StepDefinition.id s) run) steps).
  rewrite IH. unfold WorkflowRun.add_step. by case_match.
Qed.

Lemma context_or_empty_default (context : option dict) :
  context_or_empty context = default ∅ context.
Proof.
  destruct context as [d|]; [|done]. cbn. unfold Py.truthy_dict.
  by case_bool_decide.
Qed.

(** A definition that [get_workflow] returns is the record of a file
    of the workflow directory, and it passes the validators. *)
Lemma get_workflow_stored wid w wf :
  get_workflow' wid w = Ok wf →
  WorkflowDefinition.construct wf = Ok wf
  ∧ ∃ key, locate_workflow wid = FilesystemStorage.File key
           ∧ workflows w !! key = Some wf.
Proof.
  unfold get_workflow, FilesystemStorage._get, load_workflow.
  destruct (locate_workflow wid) as [key| |] eqn:Hloc; [|done..].
  destruct (workflows w !! key) as [wf'|] eqn:Hfile; [|done].
  destruct (workflow_invalid wf'); [done|]. intros Hc.
  pose proof (construct_ok_self _ _ Hc) as ->. split; [done|]. by exists key.
Qed.

(** The run [start_workflow] creates, and the run it builds for a
    stored definition. *)
Definition pending_run (uuid wid : string) (now : datetime) : WorkflowRun.t :=
  WorkflowRun.new uuid wid RunStatus.PENDING now.

Definition started_run (uuid wid : string) (context : option dict)
    (wf : WorkflowDefinition.t) (now : datetime) : WorkflowRun.t :=
  add_steps
    (WorkflowRun.set_started_at (Some now)
       (WorkflowRun.set_status RunStatus.RUNNING
          (WorkflowRun.set_current_step_id (Some (WorkflowDefinition.entry_point wf))
             (WorkflowRun.set_context (context_or_empty context)
                (WorkflowRun.new uuid wid RunStatus.PENDING now)))))
    (WorkflowDefinition.steps wf).

Lemma started_run_steps uuid wid context wf now j :
  WorkflowRun.steps (started_run uuid wid context wf now) !! j
  = if bool_decide (j ∈ WorkflowDefinition.step_ids (WorkflowDefinition.steps wf))
    then Some (StepRun.new j) else None.
Proof. unfold started_run. by rewrite add_steps_lookup. Qed.

Lemma started_run_dump uuid wid context wf now :
  WorkflowRun.model_dump (started_run uuid wid context wf now)
  = started_run uuid wid context wf now.
Proof.
  apply model_dump_no_output. intros j sr. rewrite started_run_steps.
  case_bool_decide; [|done]. by intros [= <-].
Qed.

Lemma started_run_fields uuid wid context wf now :
  WorkflowRun.run_id (started_run uuid wid context wf now) = uuid
  ∧ WorkflowRun.workflow_id (started_run uuid wid context wf now) = wid
  ∧ WorkflowRun.status (started_run uuid wid context wf now) = RunStatus.RUNNING
  ∧ WorkflowRun.context (started_run uuid wid context wf now) = default ∅ context
  ∧ WorkflowRun.current_step_id (started_run uuid wid context wf now)
    = Some (WorkflowDefinition.entry_point wf)
  ∧ WorkflowRun.error (started_run uuid wid context wf now) = None
  ∧ WorkflowRun.started_at (started_run uuid wid context wf now) = Some now.
Proof.
  unfold started_run. rewrite add_steps_error.
  destruct (add_steps_fields
    (WorkflowRun.set_started_at (Some now)
       (WorkflowRun.set_status RunStatus.RUNNING
          (WorkflowRun.set_current_step_id (Some (WorkflowDefinition.entry_point wf))
             (WorkflowRun.set_context (context_or_empty context)
                (WorkflowRun.new uuid wid RunStatus.PENDING now)))))
    (WorkflowDefinition.steps wf)) as (-> & -> & -> & -> & -> & ->).
  cbn. by rewrite context_or_empty_default.
Qed.

(** [start_workflow] for a stored definition and a fresh run id: the
    pending run is created, then the run is filled in and written
    again. The serialiser can refuse either write; when it refuses the
    second, the pending run stays behind. *)
Lemma start_workflow_located uuid wid context w wf :
  get_workflow' wid w = Ok wf → uuid ≠ "" → located uuid →
  runs w !! run_file uuid = None →
  start_workflow' uuid wid context w
  = match unwritable (pending_run uuid wid (clock w)) with
    | Some e => (Raise e, w)
    | None =>
        match unwritable (started_run uuid wid context wf (clock w)) with
        | Some e => (Raise e, persist (pending_run uuid wid (clock w)) w)
        | None =>
            (Ok (started_run uuid wid context wf (clock w)),
             create_task uuid
               (persist (started_run uuid wid context wf (clock w))
                  (persist (pending_run uuid wid (clock w)) w)))
        end
    end.
Proof.
  intros Hwf Hne Hloc Hfree. unfold start_workflow. rewrite Hwf.
  unfold create_run, FilesystemStorage._create. cbn.
  assert (negb (Py.truthy_str uuid) = false) as -> by (by destruct uuid).
  rewrite Hloc, Hfree. unfold FilesystemStorage.write_text, dump_run.
  fold (pending_run uuid wid (clock w)). fold (unwritable (pending_run uuid wid (clock w))).
  destruct (unwritable (pending_run uuid wid (clock w))) as [e|]; cbn.
  { by rewrite set_runs_same. }
  change (set_runs _ w) with (persist (pending_run uuid wid (clock w)) w).
  set (w1 := persist _ w).
  change (foldl _ _ _) with (started_run uuid wid context wf (clock w)).
  destruct (started_run_fields uuid wid context wf (clock w)) as (Hid & _).
  rewrite update_run_located.
  - destruct (unwritable _); [done|]. by rewrite Hid.
  - by rewrite Hid.
  - by rewrite Hid.
  - rewrite Hid. apply (stored_persist (pending_run uuid wid (clock w)) w).
Qed.

(** C1, as the code has it. For a stored workflow definition, a fresh
    run id that is a plain file name, and an initial context with which
    the serialiser takes the run, [start_workflow] returns a run that is
    running, stands at the entry point, holds the given context (the
    empty map when none is given), has [started_at] set, and has exactly
    one pending step record for every step of the definition; the file
    of the run holds that run, and its execution is scheduled. When the
    serialiser refuses the run with its context, [start_workflow]
    raises that error, nothing is scheduled, and the pending run created
    before stays in the storage. When the path of the workflow id does
    not exist, [start_workflow] fails with [NotFoundError] and the world
    is left as it was: no run is created. *)
Theorem start_workflow_creates_run (uuid wid : string) (context : option dict) w :
  ((∃ key, locate_workflow wid = FilesystemStorage.File key ∧ workflows w !! key = None)
   ∨ (∃ e, locate_workflow wid = FilesystemStorage.NoParent e) →
     ∃ e, start_workflow' uuid wid context w = (Raise e, w) ∧ exn_cls e = NotFoundError)
  ∧ (∀ wf, get_workflow' wid w = Ok wf → uuid ≠ "" → located uuid →
       runs w !! run_file uuid = None →
       writable (pending_run uuid wid (clock w)) →
       (writable (started_run uuid wid context wf (clock w)) →
        ∃ run w',
          start_workflow' uuid wid context w = (Ok run, w')
          ∧ WorkflowRun.run_id run = uuid
          ∧ WorkflowRun.workflow_id run = wid
          ∧ WorkflowRun.status run = RunStatus.RUNNING
          ∧ WorkflowRun.current_step_id run = Some (WorkflowDefinition.entry_point wf)
          ∧ WorkflowRun.context run = default ∅ context
          ∧ WorkflowRun.started_at run = Some (clock w)
          ∧ dom (WorkflowRun.steps run)
            = list_to_set (WorkflowDefinition.step_ids (WorkflowDefinition.steps wf))
          ∧ (∀ j sr, WorkflowRun.steps run !! j = Some sr → sr = StepRun.new j)
          ∧ runs w' !! run_file uuid = Some run
          ∧ get_run' uuid w' = run_validate run
          ∧ workflows w' = workflows w
          ∧ tasks w' = (tasks w ++ [uuid])%list)
       ∧ (∀ e, unwritable (started_run uuid wid context wf (clock w)) = Some e →
            ∃ w', start_workflow' uuid wid context w = (Raise e, w')
                  ∧ runs w' !! run_file uuid = Some (pending_run uuid wid (clock w))
                  ∧ WorkflowRun.status (pending_run uuid wid (clock w)) = RunStatus.PENDING
                  ∧ tasks w' = tasks w)).
Proof.
  split.
  - intros Hnone. unfold start_workflow, get_workflow, FilesystemStorage._get.
    destruct Hnone as [(key & -> & ->)|(e & ->)]; by eexists.
  - intros wf Hwf Hne Hloc Hfree Hnew.
    pose proof (start_workflow_located uuid wid context w wf Hwf Hne Hloc Hfree) as Hstart.
    rewrite Hnew in Hstart. split.
    + intros Hrun. rewrite Hrun in Hstart. do 2 eexists. split; [exact Hstart|].
      destruct (started_run_fields uuid wid context wf (clock w))
        as (Hid & Hwid & Hst & Hcx & Hcur & _ & Hsa).
      assert (runs (create_task uuid
                      (persist (started_run uuid wid context wf (clock w))
                         (persist (pending_run uuid wid (clock w)) w))) !! run_file uuid
              = Some (started_run uuid wid context wf (clock w))) as Hfile.
      { cbn. rewrite Hid, lookup_insert_eq. by rewrite started_run_dump. }
      split_and!; try done.
      * apply set_eq. intros j. rewrite elem_of_dom, started_run_steps.
        rewrite elem_of_list_to_set. case_bool_decide; split; try done.
      * intros j sr. rewrite started_run_steps. case_bool_decide; [|done].
        by intros [= <-].
      * by apply get_run_file.
    + intros e He. rewrite He in Hstart. eexists. split; [exact Hstart|].
      split_and!; try done. cbn. by rewrite lookup_insert_eq.
Qed.

(** X10: a [start_workflow] that raises schedules nothing and leaves
    the stored definitions alone. Either it leaves the whole world as
    it was, or the definition was read, the pending run was created in a
    file that was not there, and the error is that of the serialiser
    for the run with its context: the pending run stays behind. *)
Theorem failed_start_trace (uuid wid : string) (context : option dict)
    (w w' : world) e :
  start_workflow' uuid wid context w = (Raise e, w') →
  tasks w' = tasks w ∧ workflows w' = workflows w ∧ clock w' = clock w
  ∧ (w' = w
     ∨ ∃ wf key,
         get_workflow' wid w = Ok wf
         ∧ locate_run uuid = FilesystemStorage.File key
         ∧ runs w !! key = None
         ∧ runs w' = <[key := pending_run uuid wid (clock w)]> (runs w)
         ∧ unwritable (started_run uuid wid context wf (clock w)) = Some e).
Proof.
  unfold start_workflow. destruct (get_workflow' wid w) as [wf|e0] eqn:Hwf.
  2:{ intros [= <- <-]. split_and!; try done. by left. }
  unfold create_run, FilesystemStorage._create. cbn.
  destruct (negb (Py.truthy_str uuid)) eqn:Hf.
  { rewrite set_runs_same. intros [= <- <-]. split_and!; try done. by left. }
  destruct (locate_run uuid) as [key|e1|e1] eqn:Hloc.
  - destruct (runs w !! key) as [r|] eqn:Hkey.
    { rewrite set_runs_same. intros [= <- <-]. split_and!; try done. by left. }
    unfold FilesystemStorage.write_text, dump_run.
    fold (pending_run uuid wid (clock w)).
    destruct (run_json_error _) as [e2|] eqn:Hnew.
    { rewrite set_runs_same. intros [= <- <-]. split_and!; try done. by left. }
    change (foldl _ _ _) with (started_run uuid wid context wf (clock w)).
    destruct (update_run' _ _) as [[[]|e3] w2] eqn:Hu; [done|].
    intros [= <- <-]. pose proof Hu as Hframe.
    apply update_run_frame in Hframe as (Hc & Hwfs & Ht).
    split_and!; try done. right. exists wf, key.
    revert Hu. unfold update_run, FilesystemStorage._update.
    destruct (started_run_fields uuid wid context wf (clock w)) as (Hid & _).
    cbn [FilesystemStorage.entity_id attr_id attr_run_id WorkflowRun_entity].
    rewrite Hid. unfold FilesystemStorage.falsy_id. rewrite Hf.
    change (default "" (Some uuid)) with uuid. rewrite Hloc.
    cbn [runs set_runs]. rewrite lookup_insert_eq.
    unfold FilesystemStorage.write_text, dump_run.
    fold (unwritable (started_run uuid wid context wf (clock w))).
    destruct (unwritable _) as [e4|]; [|done].
    intros [= <- <-]. split_and!; done.
  - unfold FilesystemStorage.write_text.
    destruct (dump_run _ _); rewrite set_runs_same; intros [= <- <-];
      split_and!; try done; by left.
  - rewrite set_runs_same. intros [= <- <-]. split_and!; try done. by left.
Qed.

(** *** A step that raises *)

Lemma none_skipped_model_dump run : none_skipped run → none_skipped (WorkflowRun.model_dump run).
Proof.
  intros Hns j sr. unfold WorkflowRun.model_dump. cbn. rewrite lookup_fmap.
  destruct (WorkflowRun.steps run !! j) as [sr'|] eqn:Hj; [|done].
  intros [= <-]. cbn. by eapply Hns.
Qed.

Lemma try_step_raise step_def i run c e c' :
  execute_step step_def (WorkflowRun.context run) c = (Raise e, c') →
  try_step' step_def i run c = (Raise e, c').
Proof. intros He. unfold try_step. by rewrite He. Qed.

Lemma status_model_dump run j :
  StepRun.status <$> WorkflowRun.steps (WorkflowRun.model_dump run) !! j
  = StepRun.status <$> WorkflowRun.steps run !! j.
Proof.
  unfold WorkflowRun.model_dump. cbn [WorkflowRun.steps WorkflowRun.set_steps].
  rewrite lookup_fmap. by destruct (WorkflowRun.steps run !! j).
Qed.

(** The pass in which the [try] raises: the failed run is persisted and
    the loop returns. *)
Lemma failing_pass workflow step_def i run w e c :
  WorkflowDefinition.get_step workflow i = Some step_def →
  WorkflowRun.run_id run ≠ "" → located (WorkflowRun.run_id run) →
  stored (WorkflowRun.run_id run) w →
  try_step' step_def i (WorkflowRun.start_step (clock w) i run) (clock w) = (Raise e, c) →
  writable (WorkflowRun.start_step (clock w) i run) →
  writable (failed_run i e c (WorkflowRun.start_step (clock w) i run)) →
  let failed := failed_run i e c (WorkflowRun.start_step (clock w) i run) in
  let w' := persist failed
              (set_clock c (persist (WorkflowRun.start_step (clock w) i run) w)) in
  loop_body' workflow i run w = (Return, w')
  ∧ runs w' !! run_file (WorkflowRun.run_id run) = Some (WorkflowRun.model_dump failed)
  ∧ WorkflowRun.status (WorkflowRun.model_dump failed) = RunStatus.FAILED
  ∧ WorkflowRun.completed_at (WorkflowRun.model_dump failed) = Some c
  ∧ WorkflowRun.error (WorkflowRun.model_dump failed)
    = Some ("Step " ++ i ++ " failed: " ++ exn_str e)
  ∧ (∃ sr, WorkflowRun.steps (WorkflowRun.model_dump failed) !! i = Some sr
           ∧ StepRun.status sr = StepStatus.FAILED
           ∧ StepRun.end_time sr = Some c
           ∧ StepRun.error sr = Some (exn_str e))
  ∧ (∀ j, j ≠ i → WorkflowRun.steps run !! j = Some (StepRun.new j) →
       WorkflowRun.steps (WorkflowRun.model_dump failed) !! j = Some (StepRun.new j))
  ∧ (∀ j, j ≠ i →
       StepRun.status <$> WorkflowRun.steps (WorkflowRun.model_dump failed) !! j
       = StepRun.status <$> WorkflowRun.steps run !! j)
  ∧ (none_skipped run → none_skipped (WorkflowRun.model_dump failed)).
Proof.
  intros Hdef Hne Hloc Hst Htry Hw0 Hwf failed w'.
  assert (WorkflowRun.run_id failed = WorkflowRun.run_id run) as Hid.
  { unfold failed. by rewrite run_id_failed_run, run_id_start_step. }
  split_and!; try done.
  - rewrite (loop_body_stored workflow step_def i run w Hdef Hne Hloc Hst). cbn zeta.
    by rewrite Hw0, Htry, Hwf.
  - rewrite <- Hid. apply file_persist.
  - destruct (steps_start_step_eq (clock w) i run) as (sr & Hsr & _).
    eexists. split.
    + unfold WorkflowRun.model_dump. cbn [WorkflowRun.steps WorkflowRun.set_steps].
      rewrite lookup_fmap. unfold failed.
      rewrite (steps_failed_run_eq i e c _ sr Hsr). reflexivity.
    + done.
  - intros j Hne' Hj. unfold WorkflowRun.model_dump.
    cbn [WorkflowRun.steps WorkflowRun.set_steps]. rewrite lookup_fmap. unfold failed.
    rewrite steps_failed_run_ne, steps_start_step_ne, Hj by done. done.
  - intros j Hne'. rewrite status_model_dump. unfold failed.
    by rewrite steps_failed_run_ne, steps_start_step_ne.
  - intros Hns. apply none_skipped_model_dump. unfold failed.
    by apply none_skipped_failed_run, none_skipped_start_step.
Qed.

Lemma started_run_none_skipped uuid wid context wf now :
  none_skipped (started_run uuid wid context wf now).
Proof.
  intros j sr. rewrite started_run_steps. case_bool_decide; [|done]. by intros [= <-].
Qed.

(** The file of the run holds the run object as it stands. *)
Definition synced run w : Prop :=
  runs w !! run_file (WorkflowRun.run_id run) = Some (WorkflowRun.model_dump run).

Lemma synced_stored run w : synced run w → stored (WorkflowRun.run_id run) w.
Proof. intros Hs. unfold stored. rewrite Hs. by eexists. Qed.

Lemma synced_persist run w : synced run (persist run w).
Proof. unfold synced, persist. cbn. by rewrite lookup_insert_eq. Qed.

(** The world a [start_workflow] that returned leaves for the
    background execution. *)
Lemma start_workflow_world uuid wid context w0 wf run0 w1 :
  get_workflow' wid w0 = Ok wf → uuid ≠ "" → located uuid →
  runs w0 !! run_file uuid = None →
  start_workflow' uuid wid context w0 = (Ok run0, w1) →
  run0 = started_run uuid wid context wf (clock w0)
  ∧ synced run0 w1
  ∧ runs w1 !! run_file uuid = Some run0
  ∧ get_workflow' wid w1 = Ok wf
  ∧ clock w1 = clock w0.
Proof.
  intros Hwf Hne Hloc Hfree Hstart.
  rewrite (start_workflow_located uuid wid context w0 wf Hwf Hne Hloc Hfree) in Hstart.
  destruct (unwritable (pending_run _ _ _)); [done|].
  destruct (unwritable (started_run _ _ _ _ _)); [done|].
  injection Hstart as <- <-.
  destruct (started_run_fields uuid wid context wf (clock w0)) as (Hid & _).
  assert (synced (started_run uuid wid context wf (clock w0))
            (create_task uuid
               (persist (started_run uuid wid context wf (clock w0))
                  (persist (pending_run uuid wid (clock w0)) w0))))
    as Hs.
  { unfold synced. cbn. by rewrite lookup_insert_eq. }
  split_and!; try done.
  unfold synced in Hs. rewrite Hid in Hs. rewrite Hs. by rewrite started_run_dump.
Qed.

Lemma execute_workflow_loop fuel uuid wid wf run0 w1 :
  get_run' uuid w1 = Ok run0 → WorkflowRun.workflow_id run0 = wid →
  get_workflow' wid w1 = Ok wf →
  execute_workflow fuel uuid w1
  = match loop' fuel wf run0 w1 with
    | (Exhausted run, w) =>
        match update_run' (WorkflowRun.set_completed_at (Some (clock w))
                             (WorkflowRun.set_status RunStatus.COMPLETED run)) w with
        | (Raise e, w) => (Crashed e, recover' uuid e w)
        | (Ok _, w) => (Completed, w)
        end
    | (Returned, w) => (StepFailed, w)
    | (Escaped e, w) => (Crashed e, recover' uuid e w)
    | (OutOfFuel, w) => (Unfinished, w)
    end.
Proof. intros Hget Hwid Hwf. unfold _execute_workflow. by rewrite Hget, Hwid, Hwf. Qed.


(** *** A step that succeeds *)

Lemma context_complete_step now i o run :
  WorkflowRun.context (WorkflowRun.complete_step now i o run) = WorkflowRun.context run.
Proof. unfold WorkflowRun.complete_step. by case_match. Qed.

Lemma context_stepped_run step_def i output now run :
  WorkflowRun.context (stepped_run step_def i output now run)
  = BaseConnector.value_of (WorkflowRun.context run) output ∪ WorkflowRun.context run.
Proof. unfold stepped_run. cbn. by rewrite context_complete_step. Qed.

Lemma current_stepped_run step_def i output now run :
  WorkflowRun.current_step_id (stepped_run step_def i output now run)
  = StepDefinition.next_step_id step_def.
Proof. done. Qed.

Lemma union_self (m : dict) : m ∪ m = m.
Proof. apply (idemp _). Qed.

(** The output recorded for the step, as the file written at the end
    of the pass shows it: the context the connector returned. *)
Lemma dumped_output step_def i output now run sr :
  WorkflowRun.steps run !! i = Some sr →
  WorkflowRun.steps (WorkflowRun.model_dump (stepped_run step_def i output now run)) !! i
  = Some (StepRun.mk (StepRun.step_id sr) StepStatus.COMPLETED (StepRun.start_time sr)
            (Some now) (StepRun.error sr)
            (Some (StepRun.Own (BaseConnector.value_of (WorkflowRun.context run) output)))).
Proof.
  intros Hi. unfold WorkflowRun.model_dump.
  cbn [WorkflowRun.steps WorkflowRun.set_steps]. rewrite lookup_fmap.
  pose proof (context_stepped_run step_def i output now run) as Hctx.
  unfold stepped_run in *. cbn [WorkflowRun.steps WorkflowRun.set_current_step_id] in *.
  unfold WorkflowRun.complete_step in *.
  cbn [WorkflowRun.steps WorkflowRun.set_context] in *. rewrite Hi in *.
  cbn [WorkflowRun.steps WorkflowRun.set_steps]. rewrite lookup_alter_eq, Hi.
  cbn. do 3 f_equal.
  destruct output as [|d]; cbn in *.
  - rewrite !union_self. unfold Py.truthy_dict.
    case_bool_decide as He; cbn; by rewrite ?He.
  - unfold Py.truthy_dict. case_bool_decide as He; cbn; by rewrite ?He.
Qed.

(** The pass in which the [try] succeeds. *)
Lemma successful_pass (wf : WorkflowDefinition.t) (i : string)
    (step_def : StepDefinition.t) run w (output : BaseConnector.returned) (c : datetime) :
  WorkflowDefinition.get_step wf i = Some step_def →
  WorkflowRun.run_id run ≠ "" → located (WorkflowRun.run_id run) →
  stored (WorkflowRun.run_id run) w →
  execute_step step_def (WorkflowRun.context run) (clock w) = (Ok output, c) →
  BaseConnector.value_of (WorkflowRun.context run) output !! "self" = None →
  writable (WorkflowRun.start_step (clock w) i run) →
  writable (stepped_run step_def i output c (WorkflowRun.start_step (clock w) i run)) →
  ∃ run1 w1 final,
    loop_body' wf i run w = (Next run1, w1)
    ∧ runs w1 !! run_file (WorkflowRun.run_id run) = Some final
    ∧ final = WorkflowRun.model_dump run1
    ∧ WorkflowRun.context final
      = BaseConnector.value_of (WorkflowRun.context run) output ∪ WorkflowRun.context run
    ∧ (∀ k, WorkflowRun.context final !! k
            = match BaseConnector.value_of (WorkflowRun.context run) output !! k with
              | Some v => Some v
              | None => WorkflowRun.context run !! k
              end)
    ∧ WorkflowRun.current_step_id final = StepDefinition.next_step_id step_def
    ∧ WorkflowRun.current_step_id run1 = StepDefinition.next_step_id step_def
    ∧ ∃ sr, WorkflowRun.steps final !! i = Some sr
            ∧ StepRun.status sr = StepStatus.COMPLETED
            ∧ StepRun.end_time sr = Some c
            ∧ StepRun.output sr
              = Some (StepRun.Own (BaseConnector.value_of (WorkflowRun.context run) output)).
Proof.
  intros Hdef Hne Hloc Hst Hexec Hself Hw0 Hw1.
  set (run0 := WorkflowRun.start_step (clock w) i run) in *.
  assert (WorkflowRun.context run0 = WorkflowRun.context run) as Hctx
    by apply context_start_step.
  assert (try_step' step_def i run0 (clock w)
          = (Ok (stepped_run step_def i output c run0), c)) as Htry.
  { apply try_step_Ok_intro; by rewrite Hctx. }
  exists (stepped_run step_def i output c run0),
         (persist (stepped_run step_def i output c run0)
            (set_clock c (persist run0 w))),
         (WorkflowRun.model_dump (stepped_run step_def i output c run0)).
  split_and!.
  - rewrite (loop_body_stored wf step_def i run w Hdef Hne Hloc Hst). cbn zeta.
    fold run0. by rewrite Hw0, Htry, Hw1.
  - rewrite <- (run_id_start_step (clock w) i run). fold run0.
    rewrite <- (run_id_stepped_run step_def i output c run0). apply file_persist.
  - done.
  - change (WorkflowRun.context (WorkflowRun.model_dump ?r)) with (WorkflowRun.context r).
    by rewrite context_stepped_run, Hctx.
  - intros k.
    change (WorkflowRun.context (WorkflowRun.model_dump ?r)) with (WorkflowRun.context r).
    rewrite context_stepped_run, Hctx, lookup_union.
    destruct (_ !! k), (WorkflowRun.context run !! k); done.
  - done.
  - done.
  - destruct (steps_start_step_eq (clock w) i run) as (sr & Hsr & _).
    eexists. split;
      [rewrite (dumped_output step_def i output c run0 sr Hsr); by rewrite Hctx
      |split_and!; reflexivity].
Qed.

(** C5, as the code has it: when the step's connector returns, the
    returned context has no key named [self], and the serialiser takes
    the run, the pass goes on; the file written at the end of the pass
    holds the run with the returned context merged into its context by
    key overwrite, the step record completed with its end time and, as
    output, the whole returned context, and the current step set to the
    step's successor. *)
Theorem step_output_is_returned_context (wf : WorkflowDefinition.t) (i : string)
    (step_def : StepDefinition.t) run w (output : BaseConnector.returned) (c : datetime) :
  WorkflowDefinition.get_step wf i = Some step_def →
  WorkflowRun.run_id run ≠ "" → located (WorkflowRun.run_id run) →
  stored (WorkflowRun.run_id run) w →
  execute_step step_def (WorkflowRun.context run) (clock w) = (Ok output, c) →
  BaseConnector.value_of (WorkflowRun.context run) output !! "self" = None →
  writable (WorkflowRun.start_step (clock w) i run) →
  writable (stepped_run step_def i output c (WorkflowRun.start_step (clock w) i run)) →
  ∃ run1 w1 final,
    loop_body' wf i run w = (Next run1, w1)
    ∧ runs w1 !! run_file (WorkflowRun.run_id run) = Some final
    ∧ final = WorkflowRun.model_dump run1
    ∧ WorkflowRun.context final
      = BaseConnector.value_of (WorkflowRun.context run) output ∪ WorkflowRun.context run
    ∧ (∀ k, WorkflowRun.context final !! k
            = match BaseConnector.value_of (WorkflowRun.context run) output !! k with
              | Some v => Some v
              | None => WorkflowRun.context run !! k
              end)
    ∧ WorkflowRun.current_step_id final = StepDefinition.next_step_id step_def
    ∧ WorkflowRun.current_step_id run1 = StepDefinition.next_step_id step_def
    ∧ ∃ sr, WorkflowRun.steps final !! i = Some sr
            ∧ StepRun.status sr = StepStatus.COMPLETED
            ∧ StepRun.end_time sr = Some c
            ∧ StepRun.output sr
              = Some (StepRun.Own (BaseConnector.value_of (WorkflowRun.context run) output)).
Proof. apply successful_pass. Qed.

(** *** The Webhook connector inside a pass *)

Lemma webhook_execute_shape (self : WebhookConnector.t) (context : dict) (c : datetime) :
  ∃ d, WebhookConnector.execute format_tail client_request self context c
       = (Ok (BaseConnector.Fresh d), c)
       ∧ match WebhookConnector.attempt format_tail client_request self context c with
         | Raise e => d = <["error" := VStr (exn_str e)]> context
         | Ok result =>
             d = result
             ∧ ∃ response body, d = <["response" :=
                    WebhookConnector.response_value response body]> context
         end.
Proof.
  unfold WebhookConnector.execute.
  destruct (WebhookConnector.attempt _ _ _ _ _) as [result|e] eqn:Ha;
    eexists; (split; [reflexivity|]); [|done].
  split; [done|]. unfold WebhookConnector.attempt in Ha.
  destruct (WebhookConnector._render_headers _ _ _) as [h|]; [|done]. cbn in Ha.
  destruct (if WebhookConnector.truthy_body _ then _ else _) as [j|]; [|done]. cbn in Ha.
  destruct (client_request _ _) as [response|]; [|done]. cbn in Ha.
  destruct (httpx.raise_for_status response); [|done]. cbn in Ha.
  destruct (if Py.contains _ _ then _ else _) as [b|]; [|done]. cbn in Ha.
  injection Ha as <-. by exists response, b.
Qed.

Lemma execute_step_DELAY step_def context c :
  StepDefinition.type step_def = StepType.DELAY →
  execute_step step_def context c
  = match DelayConfig.parse int_of_str (StepDefinition.config step_def) with
    | Raise e => (Raise e, c)
    | Ok config => DelayConnector.execute (DelayConnector.init config) context c
    end.
Proof. intros Hty. unfold _execute_step, execute_step_with. by rewrite Hty. Qed.

Lemma execute_step_WEBHOOK step_def context c :
  StepDefinition.type step_def = StepType.WEBHOOK →
  execute_step step_def context c
  = match WebhookConfig.parse has_scheme_and_netloc (StepDefinition.config step_def) with
    | Raise e => (Raise e, c)
    | Ok config =>
        WebhookConnector.execute format_tail client_request
          (WebhookConnector.init config) context c
    end.
Proof. intros Hty. unfold _execute_step, execute_step_with. by rewrite Hty. Qed.

Lemma execute_step_webhook step_def config context c :
  StepDefinition.type step_def = StepType.WEBHOOK →
  WebhookConfig.parse has_scheme_and_netloc (StepDefinition.config step_def) = Ok config →
  execute_step step_def context c
  = WebhookConnector.execute format_tail client_request
      (WebhookConnector.init config) context c.
Proof.
  intros Hty Hp. unfold _execute_step, execute_step_with. rewrite Hty. cbn.
  by rewrite Hp.
Qed.

(** X2: a Webhook step never fails the run. Over a context with no
    key named [self], whatever the HTTP exchange does, the connector
    returns a new context; when the serialiser takes the run with it,
    the pass goes on, the step is completed in the file of the run and
    the run stands at the step's successor; when the serialiser refuses
    it, its error leaves the loop and the file still shows the step as
    running. *)
Theorem webhook_step_completes (wf : WorkflowDefinition.t) (i : string)
    (step_def : StepDefinition.t) (config : WebhookConfig.t) run w :
  WorkflowDefinition.get_step wf i = Some step_def →
  WorkflowRun.run_id run ≠ "" → located (WorkflowRun.run_id run) →
  stored (WorkflowRun.run_id run) w →
  StepDefinition.type step_def = StepType.WEBHOOK →
  WebhookConfig.parse has_scheme_and_netloc (StepDefinition.config step_def) = Ok config →
  WorkflowRun.context run !! "self" = None →
  writable (WorkflowRun.start_step (clock w) i run) →
  ∃ d run1 w1 final sr,
    execute_step step_def (WorkflowRun.context run) (clock w)
    = (Ok (BaseConnector.Fresh d), clock w)
    ∧ run1 = stepped_run step_def i (BaseConnector.Fresh d) (clock w)
               (WorkflowRun.start_step (clock w) i run)
    ∧ runs w1 !! run_file (WorkflowRun.run_id run) = Some final
    ∧ WorkflowRun.steps final !! i = Some sr
    ∧ match unwritable run1 with
      | None =>
          loop_body' wf i run w = (Next run1, w1)
          ∧ final = WorkflowRun.model_dump run1
          ∧ WorkflowRun.current_step_id final = StepDefinition.next_step_id step_def
          ∧ StepRun.status sr = StepStatus.COMPLETED
      | Some e =>
          loop_body' wf i run w = (Escape e, w1)
          ∧ final = WorkflowRun.model_dump (WorkflowRun.start_step (clock w) i run)
          ∧ StepRun.status sr = StepStatus.RUNNING
      end.
Proof.
  intros Hdef Hne Hloc Hst Hty Hp Hself Hw0.
  destruct (webhook_execute_shape (WebhookConnector.init config)
              (WorkflowRun.context run) (clock w)) as (d & Hexec & Hd).
  rewrite <- (execute_step_webhook step_def config _ _ Hty Hp) in Hexec.
  assert (d !! "self" = None) as Hself'.
  { destruct (WebhookConnector.attempt _ _ _ _ _).
    - destruct Hd as (_ & response & body & ->). by rewrite lookup_insert_ne.
    - subst d. by rewrite lookup_insert_ne. }
  set (run0 := WorkflowRun.start_step (clock w) i run) in *.
  set (run1 := stepped_run step_def i (BaseConnector.Fresh d) (clock w) run0).
  exists d, run1.
  destruct (unwritable run1) as [e|] eqn:Hw1.
  - destruct (steps_start_step_eq (clock w) i run) as (sr & Hsr & Hstat & _).
    exists (set_clock (clock w) (persist run0 w)), (WorkflowRun.model_dump run0).
    eexists. split_and!; [done|done| | | |done| ].
    + cbn. rewrite <- (run_id_start_step (clock w) i run). fold run0.
      by rewrite lookup_insert_eq.
    + unfold WorkflowRun.model_dump. cbn [WorkflowRun.steps WorkflowRun.set_steps].
      rewrite lookup_fmap. fold run0 in Hsr. rewrite Hsr. reflexivity.
    + rewrite (loop_body_stored wf step_def i run w Hdef Hne Hloc Hst). cbn zeta.
      fold run0. rewrite Hw0.
      rewrite (try_step_Ok_intro step_def i run0 (clock w) (BaseConnector.Fresh d)
                 (clock w)).
      * fold run1. by rewrite Hw1.
      * unfold run0. by rewrite context_start_step.
      * done.
    + exact Hstat.
  - destruct (successful_pass wf i step_def run w _ _ Hdef Hne Hloc Hst Hexec Hself' Hw0 Hw1)
      as (run1' & w1 & final & Hb & Hfile & Hfinal & _ & _ & Hcur & _ & sr & Hsr & Hs & _).
    exists w1, final, sr. pose proof Hb as Hb'.
    apply pass_run in Hb' as (sd & output & c & Hdef' & Hexec' & -> & _).
    rewrite Hdef in Hdef'. injection Hdef' as <-.
    rewrite Hexec in Hexec'. injection Hexec' as <- <-. by split_and!.
Qed.

(** *** Dispatch and lazy validation of step configs *)

(** The error, if any, of parsing the raw config of a step against the
    schema of its connector. *)
Definition config_error (step_def : StepDefinition.t) : option exn :=
  match StepDefinition.type step_def with
  | StepType.DELAY =>
      match DelayConfig.parse int_of_str (StepDefinition.config step_def) with
      | Raise e => Some e
      | Ok _ => None
      end
  | StepType.WEBHOOK =>
      match WebhookConfig.parse has_scheme_and_netloc (StepDefinition.config step_def) with
      | Raise e => Some e
      | Ok _ => None
      end
  end.

Lemma webhook_parse_raise (config : dict) e :
  WebhookConfig.parse has_scheme_and_netloc config = Raise e →
  exn_cls e = ValidationError.
Proof.
  unfold WebhookConfig.parse, WebhookConfig.str_field. intros Hp.
  repeat (case_match; cbn in *; simplify_eq); done.
Qed.

Lemma config_error_raises step_def e context c :
  config_error step_def = Some e →
  execute_step step_def context c = (Raise e, c) ∧ exn_cls e = ValidationError.
Proof.
  unfold config_error, _execute_step, execute_step_with.
  destruct (StepDefinition.type step_def); cbn.
  - destruct (DelayConfig.parse _ _) as [|e'] eqn:Hp; [done|]. intros [= <-].
    split; [done|]. by eapply delay_parse_raise.
  - destruct (WebhookConfig.parse _ _) as [|e'] eqn:Hp; [done|]. intros [= <-].
    split; [done|]. by eapply webhook_parse_raise.
Qed.

(** What a step can raise when the table has an entry for its type:
    the validation error of its config, or the overflow of a delay. *)
Lemma execute_step_with_raise table step_def context c e c' co :
  table_get table (StepDefinition.type step_def) = Some co →
  execute_step_with format_tail int_of_str has_scheme_and_netloc client_request
    table step_def context c = (Raise e, c') →
  c' = c ∧ (exn_cls e = ValidationError ∨ e = DelayConnector.overflow_error).
Proof.
  intros Hco. unfold execute_step_with. rewrite Hco. destruct co.
  - destruct (DelayConfig.parse _ _) as [cfg|e'] eqn:Hp.
    + unfold DelayConnector.execute. case_match; [|done].
      intros [= <- <-]. split; [done|]. by right.
    + intros [= <- <-]. split; [done|]. left. by eapply delay_parse_raise.
  - destruct (WebhookConfig.parse _ _) as [cfg|e'] eqn:Hp.
    + destruct (webhook_execute_shape (WebhookConnector.init cfg) context c)
        as (d & -> & _). done.
    + intros [= <- <-]. split; [done|]. left. by eapply webhook_parse_raise.
Qed.

(** C9: a step fails with the unsupported-step-type [ValueError] when
    its type has no entry in the dispatch table, and an error whose
    class is [ValueError] itself has no other source when a step is
    executed (the engine's own table has an entry for every type, and
    the error of a config is of the class [ValidationError]). A step of
    a known type whose raw
    config does not parse fails when it is executed, with the
    validation error of the parse; the pass that reaches it marks the
    step record failed, with its end time and the text of the error,
    leaves the status of every other step record as it was, persists
    the run as failed with "Step i failed: " and that text, and ends
    the loop. Construction of the workflow does not look at configs, so
    it accepts the same chain whatever they are. *)
Theorem dispatch_and_lazy_config (table : list (StepType.t * connector))
    (step_def : StepDefinition.t) (context : dict) (c : datetime) :
  (table_get table (StepDefinition.type step_def) = None →
     execute_step_with format_tail int_of_str has_scheme_and_netloc client_request
       table step_def context c
     = (Raise (Exn ValueError ("Unsupported step type: "
                                 ++ StepType.str (StepDefinition.type step_def))), c))
  ∧ (∀ e c', execute_step_with format_tail int_of_str has_scheme_and_netloc
               client_request table step_def context c = (Raise e, c') →
             exn_cls e = ValueError →
             table_get table (StepDefinition.type step_def) = None)
  ∧ (∀ ty, is_Some (table_get CONNECTOR_MAP ty))
  ∧ (∀ e, config_error step_def = Some e →
       execute_step step_def context c = (Raise e, c)
       ∧ exn_cls e = ValidationError
       ∧ ∀ wf i run w,
           WorkflowDefinition.get_step wf i = Some step_def →
           WorkflowRun.run_id run ≠ "" → located (WorkflowRun.run_id run) →
           stored (WorkflowRun.run_id run) w →
           writable (WorkflowRun.start_step (clock w) i run) →
           writable (failed_run i e (clock w) (WorkflowRun.start_step (clock w) i run)) →
           ∃ w' final sr,
             loop_body' wf i run w = (Return, w')
             ∧ (∀ fuel, current_step run = Some i →
                  loop' (S fuel) wf run w = (Returned, w'))
             ∧ runs w' !! run_file (WorkflowRun.run_id run) = Some final
             ∧ WorkflowRun.status final = RunStatus.FAILED
             ∧ WorkflowRun.completed_at final = Some (clock w)
             ∧ WorkflowRun.error final = Some ("Step " ++ i ++ " failed: " ++ exn_str e)
             ∧ WorkflowRun.steps final !! i = Some sr
             ∧ StepRun.status sr = StepStatus.FAILED
             ∧ StepRun.end_time sr = Some (clock w)
             ∧ StepRun.error sr = Some (exn_str e)
             ∧ (∀ j, j ≠ i → StepRun.status <$> WorkflowRun.steps final !! j
                             = StepRun.status <$> WorkflowRun.steps run !! j))
  ∧ (∀ f g, chain f = chain g →
       is_ok (WorkflowDefinition.construct g) = is_ok (WorkflowDefinition.construct f)).
Proof.
  split_and!.
  - intros Hnone. unfold execute_step_with. by rewrite Hnone.
  - intros e c' Hexec Hcls.
    destruct (table_get table (StepDefinition.type step_def)) as [co|] eqn:Hco; [|done].
    destruct (execute_step_with_raise table step_def context c e c' co Hco Hexec)
      as (_ & [Hv| ->]); [congruence|done].
  - intros []; by eexists.
  - intros e He. destruct (config_error_raises step_def e context c He) as [Hx Hc].
    split_and!; [done..|]. intros wf i run w Hdef Hne Hloc Hst Hw0 Hwfail.
    destruct (config_error_raises step_def e
                (WorkflowRun.context (WorkflowRun.start_step (clock w) i run))
                (clock w) He) as [Hx' _].
    apply (try_step_raise _ i) in Hx'.
    destruct (failing_pass wf step_def i run w e (clock w) Hdef Hne Hloc Hst Hx' Hw0 Hwfail)
      as (Hb & Hfile & Hs & Hca & Herr & (sr & Hsr & Hsf & Hse & Hsx) & _ & Hframe & _).
    do 2 eexists. exists sr. split_and!; try done.
    intros fuel Hcur. cbn [loop]. by rewrite Hcur, Hb.
  - intros f g. apply construct_validates_chain_aux.
Qed.

(** *** What a successful pass leaves of the run *)

Lemma execute_step_output step_def context c output c' :
  execute_step step_def context c = (Ok output, c') →
  output = BaseConnector.Argument
  ∨ ∃ k v, (k = "error" ∨ k = "response")
           ∧ output = BaseConnector.Fresh (<[k := v]> context).
Proof.
  destruct (StepDefinition.type step_def) eqn:Hty.
  - rewrite (execute_step_DELAY _ _ _ Hty).
    destruct (DelayConfig.parse _ _); [|done]. unfold DelayConnector.execute.
    case_match; [done|]. intros [= <- _]. by left.
  - rewrite (execute_step_WEBHOOK _ _ _ Hty).
    destruct (WebhookConfig.parse _ _) as [config|]; [|done].
    destruct (webhook_execute_shape (WebhookConnector.init config) context c)
      as (d & -> & Hd).
    intros [= <- _]. right.
    destruct (WebhookConnector.attempt _ _ _ _ _).
    + destruct Hd as (_ & response & body & ->). eauto.
    + subst d. eauto.
Qed.

Lemma merged_output (context : dict) output :
  output = BaseConnector.Argument
  ∨ (∃ k v, (k = "error" ∨ k = "response")
            ∧ output = BaseConnector.Fresh (<[k := v]> context)) →
  (∀ k, k ≠ "error" → k ≠ "response" →
     (BaseConnector.value_of context output ∪ context) !! k = context !! k)
  ∧ (∀ k, is_Some (context !! k) →
       is_Some ((BaseConnector.value_of context output ∪ context) !! k)).
Proof.
  intros Hout. split.
  - intros k He Hr. destruct Hout as [->|(k0 & v & Hk & ->)]; cbn.
    + by rewrite union_self.
    + rewrite lookup_union.
      destruct Hk as [->| ->]; rewrite lookup_insert_ne by done;
        by destruct (context !! k).
  - intros k Hk. apply lookup_union_is_Some. by right.
Qed.

Lemma fields_start_step now i run :
  WorkflowRun.error (WorkflowRun.start_step now i run) = WorkflowRun.error run
  ∧ WorkflowRun.workflow_id (WorkflowRun.start_step now i run) = WorkflowRun.workflow_id run
  ∧ WorkflowRun.current_step_id (WorkflowRun.start_step now i run)
    = WorkflowRun.current_step_id run
  ∧ (WorkflowRun.status run = RunStatus.RUNNING →
       WorkflowRun.status (WorkflowRun.start_step now i run) = RunStatus.RUNNING).
Proof.
  unfold WorkflowRun.start_step, WorkflowRun.add_step.
  repeat case_match; cbn in *; split_and!; try done; intros; congruence.
Qed.

Lemma fields_stepped_run step_def i output now run :
  WorkflowRun.error (stepped_run step_def i output now run) = WorkflowRun.error run
  ∧ WorkflowRun.workflow_id (stepped_run step_def i output now run)
    = WorkflowRun.workflow_id run
  ∧ WorkflowRun.status (stepped_run step_def i output now run) = WorkflowRun.status run.
Proof.
  unfold stepped_run, WorkflowRun.complete_step. cbn. by case_match.
Qed.

Lemma passes_synced workflow run w ids run' w' :
  passes workflow run w ids run' w' →
  WorkflowRun.run_id run ≠ "" → located (WorkflowRun.run_id run) →
  synced run w → synced run' w'.
Proof.
  induction 1 as [run w|run w i run1 w1 ids run2 w2 Hcur Hb Hp IH]; intros Hne Hloc Hs;
    [done|].
  destruct (pass_next _ _ _ _ _ _ Hne Hloc (synced_stored _ _ Hs) Hb)
    as (sd & output & c & _ & _ & _ & -> & Hid & _).
  apply IH; [by rewrite Hid|by rewrite Hid|apply synced_persist].
Qed.

(** What successful passes keep of the run object, whatever the
    storage holds. *)
Lemma passes_fields workflow run w ids run' w' :
  passes workflow run w ids run' w' →
  WorkflowRun.error run' = WorkflowRun.error run
  ∧ WorkflowRun.workflow_id run' = WorkflowRun.workflow_id run
  ∧ (WorkflowRun.status run = RunStatus.RUNNING →
       WorkflowRun.status run' = RunStatus.RUNNING)
  ∧ (∀ k, k ≠ "error" → k ≠ "response" →
       WorkflowRun.context run' !! k = WorkflowRun.context run !! k)
  ∧ (∀ k, is_Some (WorkflowRun.context run !! k) →
       is_Some (WorkflowRun.context run' !! k)).
Proof.
  induction 1 as [run w|run w i run1 w1 ids run2 w2 Hcur Hb Hp IH]; [done|].
  destruct (pass_run _ _ _ _ _ _ Hb) as (sd & output & c & _ & Hexec & Hrun1 & _).
  destruct IH as (Herr & Hwid & Hstat & Hkeys & Hdom).
  destruct (fields_start_step (clock w) i run) as (He0 & Hw0 & _ & Hs0).
  destruct (fields_stepped_run sd i output c (WorkflowRun.start_step (clock w) i run))
    as (He1 & Hw1 & Hst1).
  rewrite <- Hrun1 in He1, Hw1, Hst1.
  destruct (merged_output (WorkflowRun.context run) output
              (execute_step_output _ _ _ _ _ Hexec)) as (Hk1 & Hd1).
  assert (WorkflowRun.context run1
          = BaseConnector.value_of (WorkflowRun.context run) output
              ∪ WorkflowRun.context run) as Hctx.
  { rewrite Hrun1, context_stepped_run. by rewrite context_start_step. }
  split_and!.
  - by rewrite Herr, He1.
  - by rewrite Hwid, Hw1.
  - intros Hr. apply Hstat. rewrite Hst1. by apply Hs0.
  - intros k Hke Hkr. rewrite Hkeys by done. rewrite Hctx. by apply Hk1.
  - intros k Hk. apply Hdom. rewrite Hctx. by apply Hd1.
Qed.

(** X4: successful passes never take a key out of the run's context
    and never change the value of a key other than [response] and
    [error]: a Delay step hands the context back as it is, and a
    Webhook step adds one of those two keys. *)
Theorem context_keys_preserved workflow run w ids run' w' (k : string) :
  passes workflow run w ids run' w' →
  WorkflowRun.run_id run ≠ "" → stored (WorkflowRun.run_id run) w →
  (is_Some (WorkflowRun.context run !! k) → is_Some (WorkflowRun.context run' !! k))
  ∧ (k ≠ "error" → k ≠ "response" →
       WorkflowRun.context run' !! k = WorkflowRun.context run !! k).
Proof.
  intros Hp Hne Hst.
  destruct (passes_fields _ _ _ _ _ _ Hp) as (_ & _ & _ & Hkeys & Hdom).
  split; [apply Hdom|apply Hkeys].
Qed.

(** *** Runs that finish *)

Lemma passes_completed workflow run w ids run' w' :
  passes workflow run w ids run' w' →
  ∀ j, j ∈ ids →
    ∃ sr, WorkflowRun.steps run' !! j = Some sr
          ∧ StepRun.status sr = StepStatus.COMPLETED
          ∧ is_Some (StepRun.end_time sr).
Proof.
  induction 1 as [run w|run w i run1 w1 ids run2 w2 Hcur Hb Hp IH]; intros j Hj;
    [by apply elem_of_nil in Hj|].
  destruct (decide (j ∈ ids)) as [Hin|Hnin]; [by apply IH|].
  apply elem_of_cons in Hj as [->|Hj]; [|done].
  destruct (pass_run _ _ _ _ _ _ Hb) as (sd & output & c & _ & _ & Hrun1 & _).
  assert (∀ ids' r' w'', passes workflow run1 w1 ids' r' w'' → i ∉ ids' →
            WorkflowRun.steps r' !! i = WorkflowRun.steps run1 !! i) as Hframe.
  { clear. intros ids' r' w'' Hp'.
    induction Hp' as [|r0 w0 i0 r1 w1' ids0 r2 w2' Hcur' Hb' Hp' IH']; intros Hni; [done|].
    rewrite IH' by set_solver.
    destruct (pass_run _ _ _ _ _ _ Hb') as (sd' & output' & c' & _ & _ & -> & _).
    rewrite steps_stepped_run_ne by set_solver.
    by rewrite steps_start_step_ne by set_solver. }
  rewrite (Hframe _ _ _ Hp Hnin), Hrun1.
  destruct (steps_start_step_eq (clock w) i run) as (sr & Hsr & _).
  destruct (steps_stepped_run_eq sd i output c _ sr Hsr) as (out & ->).
  eexists. split; [done|]. split; [done|]. by eexists.
Qed.

Lemma loop_exhausted fuel wf run w :
  current_step run = None → loop' fuel wf run w = (Exhausted run, w).
Proof. intros Hcur. destruct fuel; cbn [loop]; by rewrite Hcur. Qed.

(** The run as the end of the loop leaves it. *)
Definition completed_run (now : datetime) run : WorkflowRun.t :=
  WorkflowRun.set_completed_at (Some now)
    (WorkflowRun.set_status RunStatus.COMPLETED run).

Lemma run_completes_aux (uuid wid : string) (context : option dict)
    (w0 w1 w : world) (wf : WorkflowDefinition.t) (run0 run : WorkflowRun.t)
    (done : list string) :
  get_workflow' wid w0 = Ok wf → uuid ≠ "" → located uuid →
  runs w0 !! run_file uuid = None →
  start_workflow' uuid wid context w0 = (Ok run0, w1) →
  get_run' uuid w1 = Ok run0 →
  passes wf run0 w1 done run w →
  current_step run = None →
  writable (completed_run (clock w) run) →
  let final := WorkflowRun.model_dump (completed_run (clock w) run) in
  let w' := persist (completed_run (clock w) run) w in
  (∀ fuel, (length done ≤ fuel)%nat → execute_workflow fuel uuid w1 = (Completed, w'))
  ∧ runs w' !! run_file uuid = Some final
  ∧ get_run' uuid w' = run_validate final
  ∧ WorkflowRun.status final = RunStatus.COMPLETED
  ∧ WorkflowRun.completed_at final = Some (clock w)
  ∧ WorkflowRun.error final = None
  ∧ (∀ j, j ∈ done → ∃ sr, WorkflowRun.steps final !! j = Some sr
                           ∧ StepRun.status sr = StepStatus.COMPLETED
                           ∧ is_Some (StepRun.end_time sr))
  ∧ (∀ j, j ∈ WorkflowDefinition.step_ids (WorkflowDefinition.steps wf) →
       j ∉ done → WorkflowRun.steps final !! j = Some (StepRun.new j))
  ∧ none_skipped final.
Proof.
  intros Hwf Hne Hloc Hfree Hstart Hget1 Hp Hcur Hwc final w'.
  destruct (start_workflow_world _ _ _ _ _ _ _ Hwf Hne Hloc Hfree Hstart)
    as (-> & Hs1 & _ & Hwf1 & _).
  set (run0 := started_run uuid wid context wf (clock w0)) in *.
  destruct (started_run_fields uuid wid context wf (clock w0))
    as (Hid0 & Hwid0 & _ & _ & _ & Herr0 & _).
  fold run0 in Hid0, Hwid0, Herr0.
  assert (WorkflowRun.run_id run0 ≠ "") as Hne0 by (by rewrite Hid0).
  assert (located (WorkflowRun.run_id run0)) as Hloc0 by (by rewrite Hid0).
  pose proof (synced_stored _ _ Hs1) as Hst1.
  destruct (passes_invariant wf run0 w1 done run w Hp Hne0 Hloc0 Hst1)
    as (Hid & Hst & _ & Hns & Hsteps).
  destruct (passes_fields wf run0 w1 done run w Hp) as (Herr & _).
  assert (WorkflowRun.run_id (completed_run (clock w) run) = uuid) as Hidc
    by (cbn; by rewrite Hid, Hid0).
  assert (runs w' !! run_file uuid = Some final) as Hfile.
  { unfold w', final. rewrite <- Hidc. apply file_persist. }
  split_and!.
  - intros fuel Hfuel.
    rewrite (execute_workflow_loop fuel uuid wid wf run0 w1 Hget1 Hwid0 Hwf1).
    replace fuel with (length done + (fuel - length done))%nat by lia.
    rewrite (loop_passes wf run0 w1 done run w _ Hp).
    rewrite loop_exhausted by done.
    fold (completed_run (clock w) run).
    rewrite update_run_stored; [done|by rewrite Hidc|by rewrite Hidc|
                                |done].
    rewrite Hidc, <- Hid0. done.
  - done.
  - by apply get_run_file.
  - done.
  - done.
  - unfold final. cbn. by rewrite Herr.
  - intros j Hj.
    destruct (passes_completed wf run0 w1 done run w Hp j Hj)
      as (sr & Hsr & Hstat & Hend).
    unfold final, WorkflowRun.model_dump.
    cbn [WorkflowRun.steps WorkflowRun.set_steps completed_run
         WorkflowRun.set_completed_at WorkflowRun.set_status].
    rewrite lookup_fmap, Hsr. cbn. eexists. split; [done|]. by split.
  - intros j Hj Hnd. unfold final, WorkflowRun.model_dump.
    cbn [WorkflowRun.steps WorkflowRun.set_steps completed_run
         WorkflowRun.set_completed_at WorkflowRun.set_status].
    rewrite lookup_fmap, Hsteps by done. unfold run0. rewrite started_run_steps.
    by rewrite bool_decide_eq_true_2.
  - apply none_skipped_model_dump. intros j sr. cbn. apply Hns.
    apply started_run_none_skipped.
Qed.

(** X5: in a run started for a stored definition and read back by
    the background execution as it was written, let the loop make
    successful passes over the steps [done] and then stand at no step
    (the last step had no successor), the serialiser taking the
    completed run. Then the background execution ends as completed for
    every fuel that covers the passes, and the file of the run holds a
    run that is completed, has [completed_at] set and no error; every
    step passed is completed with an end time; every step of the
    definition the chain did not reach keeps its pending record in the
    completed run; and no step record is marked skipped. *)
Theorem run_completes (uuid wid : string) (context : option dict)
    (w0 w1 w : world) (wf : WorkflowDefinition.t) (run0 run : WorkflowRun.t)
    (done : list string) :
  get_workflow' wid w0 = Ok wf → uuid ≠ "" → located uuid →
  runs w0 !! run_file uuid = None →
  start_workflow' uuid wid context w0 = (Ok run0, w1) →
  get_run' uuid w1 = Ok run0 →
  passes wf run0 w1 done run w →
  current_step run = None →
  writable (completed_run (clock w) run) →
  ∃ final w',
    (∀ fuel, (length done ≤ fuel)%nat → execute_workflow fuel uuid w1 = (Completed, w'))
    ∧ runs w' !! run_file uuid = Some final
    ∧ get_run' uuid w' = run_validate final
    ∧ WorkflowRun.status final = RunStatus.COMPLETED
    ∧ WorkflowRun.completed_at final = Some (clock w)
    ∧ WorkflowRun.error final = None
    ∧ (∀ j, j ∈ done → ∃ sr, WorkflowRun.steps final !! j = Some sr
                             ∧ StepRun.status sr = StepStatus.COMPLETED
                             ∧ is_Some (StepRun.end_time sr))
    ∧ (∀ j, j ∈ WorkflowDefinition.step_ids (WorkflowDefinition.steps wf) →
         j ∉ done → WorkflowRun.steps final !! j = Some (StepRun.new j))
    ∧ none_skipped final.
Proof.
  intros Hwf Hne Hloc Hfree Hstart Hget1 Hp Hcur Hwc. do 2 eexists.
  exact (run_completes_aux uuid wid context w0 w1 w wf run0 run done
           Hwf Hne Hloc Hfree Hstart Hget1 Hp Hcur Hwc).
Qed.

(** *** How the background execution can end *)

Lemma known_step wf s :
  s ∈ WorkflowDefinition.step_ids (WorkflowDefinition.steps wf) →
  ∃ step_def, WorkflowDefinition.get_step wf s = Some step_def
              ∧ step_def ∈ WorkflowDefinition.steps wf.
Proof.
  intros Hs. destruct (WorkflowDefinition.get_step wf s) as [sd|] eqn:Hdef.
  - exists sd. split; [done|]. by apply get_step_Some in Hdef as [? _].
  - by apply get_step_None in Hdef.
Qed.

Lemma current_step_Some run s :
  current_step run = Some s ↔ WorkflowRun.current_step_id run = Some s ∧ s ≠ "".
Proof.
  unfold current_step. destruct (WorkflowRun.current_step_id run) as [[|a t]|]; cbn;
    naive_solver.
Qed.

Lemma successor_known wf step_def run s :
  well_formed wf → step_def ∈ WorkflowDefinition.steps wf →
  WorkflowRun.current_step_id run = StepDefinition.next_step_id step_def →
  current_step run = Some s →
  s ∈ WorkflowDefinition.step_ids (WorkflowDefinition.steps wf).
Proof.
  intros (_ & _ & Hnext) Hin Hcur Hs. apply current_step_Some in Hs as [Hs _].
  rewrite Forall_forall in Hnext. apply (Hnext step_def Hin). by rewrite <- Hcur.
Qed.

(** The loop over a well-formed definition: it runs out of steps, stops
    at a failed step, or is still going when the fuel is spent, and the
    file of the run tells which; or the serialiser refused a run, and
    its error left the loop. *)
Lemma loop_outcome wf fuel run w :
  well_formed wf → WorkflowRun.run_id run ≠ "" → located (WorkflowRun.run_id run) →
  synced run w →
  WorkflowRun.status run = RunStatus.RUNNING →
  (∀ s, current_step run = Some s →
     s ∈ WorkflowDefinition.step_ids (WorkflowDefinition.steps wf)) →
  ∃ w',
    (∃ run', loop' fuel wf run w = (Exhausted run', w')
             ∧ WorkflowRun.run_id run' = WorkflowRun.run_id run
             ∧ stored (WorkflowRun.run_id run) w')
    ∨ (loop' fuel wf run w = (Returned, w')
       ∧ ∃ final, runs w' !! run_file (WorkflowRun.run_id run) = Some final
                  ∧ WorkflowRun.status final = RunStatus.FAILED)
    ∨ (loop' fuel wf run w = (OutOfFuel, w')
       ∧ ∃ final, runs w' !! run_file (WorkflowRun.run_id run) = Some final
                  ∧ WorkflowRun.status final = RunStatus.RUNNING)
    ∨ (∃ e r, loop' fuel wf run w = (Escaped e, w') ∧ unwritable r = Some e).
Proof.
  intros Hwf. revert run w.
  induction fuel as [|fuel IH]; intros run w Hne Hloc Hs Hstat Hcur.
  - destruct (current_step run) as [s|] eqn:Hc.
    + exists w. right. right. left. cbn [loop]. rewrite Hc. split; [done|].
      by exists (WorkflowRun.model_dump run).
    + exists w. left. exists run. rewrite loop_exhausted by done.
      split_and!; [done..|]. by apply synced_stored.
  - destruct (current_step run) as [s|] eqn:Hc.
    + destruct (known_step wf s (Hcur s eq_refl)) as (sd & Hdef & Hin).
      pose proof (synced_stored _ _ Hs) as Hst.
      cbn [loop]. rewrite Hc.
      rewrite (loop_body_stored wf sd s run w Hdef Hne Hloc Hst). cbn zeta.
      set (run1 := WorkflowRun.start_step (clock w) s run).
      destruct (unwritable run1) as [e1|] eqn:Hw1.
      { exists w. do 3 right. by exists e1, run1. }
      destruct (try_step' sd s run1 (clock w)) as [[run2|e] c] eqn:Htry.
      * destruct (unwritable run2) as [e2|] eqn:Hw2.
        { eexists. do 3 right. by exists e2, run2. }
        apply try_step_Ok in Htry as (output & _ & _ & Hrun2).
        assert (WorkflowRun.run_id run2 = WorkflowRun.run_id run) as Hid.
        { rewrite Hrun2, run_id_stepped_run. apply run_id_start_step. }
        destruct (fields_start_step (clock w) s run) as (_ & _ & _ & Hs0).
        destruct (fields_stepped_run sd s output c run1) as (_ & _ & Hst1).
        rewrite <- Hrun2 in Hst1.
        destruct (IH run2 (persist run2 (set_clock c (persist run1 w))))
          as (w' & Hout).
        { by rewrite Hid. }
        { by rewrite Hid. }
        { apply synced_persist. }
        { rewrite Hst1. by apply Hs0. }
        { intros s' Hs'. apply (successor_known wf sd run2 s' Hwf Hin); [|done].
          by rewrite Hrun2. }
        exists w'. by rewrite Hid in Hout.
      * destruct (unwritable (failed_run s e c run1)) as [e2|] eqn:Hw2.
        { eexists. do 3 right. by exists e2, (failed_run s e c run1). }
        eexists. right. left. split; [done|].
        exists (WorkflowRun.model_dump (failed_run s e c run1)). split; [|done].
        rewrite <- (run_id_start_step (clock w) s run). fold run1.
        rewrite <- (run_id_failed_run s e c run1). apply file_persist.
    + exists w. left. exists run. rewrite loop_exhausted by done.
      split_and!; [done..|]. by apply synced_stored.
Qed.

(** X6: the background execution of a run started for a stored
    definition, and read back as it was written, takes the outermost
    [except] only when the serialiser refuses a run. Whatever the steps
    do, it ends as completed, as a step failure, or is still going when
    the fuel is spent, and the status of the run in its file says which
    (completed, failed, running); or it crashes with an error that the
    serialiser raised for a run. *)
Theorem started_run_outcomes (uuid wid : string) (context : option dict)
    (w0 w1 : world) (wf : WorkflowDefinition.t) (run0 : WorkflowRun.t) (fuel : nat) :
  get_workflow' wid w0 = Ok wf → uuid ≠ "" → located uuid →
  runs w0 !! run_file uuid = None →
  start_workflow' uuid wid context w0 = (Ok run0, w1) →
  get_run' uuid w1 = Ok run0 →
  ∃ w',
    (∃ final, runs w' !! run_file uuid = Some final
              ∧ ((execute_workflow fuel uuid w1 = (Completed, w')
                  ∧ WorkflowRun.status final = RunStatus.COMPLETED)
                 ∨ (execute_workflow fuel uuid w1 = (StepFailed, w')
                    ∧ WorkflowRun.status final = RunStatus.FAILED)
                 ∨ (execute_workflow fuel uuid w1 = (Unfinished, w')
                    ∧ WorkflowRun.status final = RunStatus.RUNNING)))
    ∨ (∃ e r, execute_workflow fuel uuid w1 = (Crashed e, w')
              ∧ unwritable r = Some e).
Proof.
  intros Hwf Hne Hloc Hfree Hstart Hget1.
  destruct (start_workflow_world _ _ _ _ _ _ _ Hwf Hne Hloc Hfree Hstart)
    as (-> & Hs1 & _ & Hwf1 & _).
  set (run0 := started_run uuid wid context wf (clock w0)) in *.
  destruct (started_run_fields uuid wid context wf (clock w0))
    as (Hid0 & Hwid0 & Hstat0 & _ & Hcur0 & _).
  fold run0 in Hid0, Hwid0, Hstat0, Hcur0.
  destruct (get_workflow_stored wid w0 wf Hwf) as [Hc _].
  apply construct_ok_iff in Hc. pose proof Hc as (_ & Hentry & _).
  destruct (loop_outcome wf fuel run0 w1 Hc ltac:(by rewrite Hid0)
              ltac:(by rewrite Hid0) Hs1 Hstat0)
    as (w' & Hout).
  { intros s Hs. apply current_step_Some in Hs as [Hs _].
    rewrite Hcur0 in Hs. by injection Hs as <-. }
  rewrite (execute_workflow_loop fuel uuid wid wf run0 w1 Hget1 Hwid0 Hwf1).
  rewrite Hid0 in Hout.
  destruct Hout as [(run' & -> & Hid' & Hst')|[(-> & final & Hfile & Hf)
                   |[(-> & final & Hfile & Hr)|(e & r & -> & Hr)]]].
  - fold (completed_run (clock w') run').
    assert (WorkflowRun.run_id (completed_run (clock w') run') = uuid) as Hidc
      by (cbn; by rewrite Hid').
    rewrite update_run_located; [|by rewrite Hidc..].
    destruct (unwritable (completed_run (clock w') run')) as [e|] eqn:Hw.
    + eexists. right. by exists e, (completed_run (clock w') run').
    + exists (persist (completed_run (clock w') run') w'). left.
      exists (WorkflowRun.model_dump (completed_run (clock w') run')).
      split; [rewrite <- Hidc at 1; apply file_persist|]. by left.
  - exists w'. left. exists final. split; [done|]. right. by left.
  - exists w'. left. exists final. split; [done|]. right. by right.
  - eexists. right. by exists e, r.
Qed.

(** *** Chains that never end *)






(** X8: the loop tests the current step id for truth, and the empty
    string is false: a run of a stored definition whose entry point is
    the empty string (a step of that id is there, or construction would
    have refused it), read back as it was written, completes at once,
    for every fuel, when the serialiser takes the completed run; and
    every step record of the completed run is still the pending one: no
    step was executed. *)
Theorem empty_entry_point_runs_nothing (uuid wid : string) (context : option dict)
    (w0 w1 : world) (wf : WorkflowDefinition.t) (run0 : WorkflowRun.t) (fuel : nat) :
  get_workflow' wid w0 = Ok wf → uuid ≠ "" → located uuid →
  runs w0 !! run_file uuid = None →
  start_workflow' uuid wid context w0 = (Ok run0, w1) →
  get_run' uuid w1 = Ok run0 →
  WorkflowDefinition.entry_point wf = "" →
  writable (completed_run (clock w1) run0) →
  ∃ w' final,
    execute_workflow fuel uuid w1 = (Completed, w')
    ∧ runs w' !! run_file uuid = Some final
    ∧ WorkflowRun.status final = RunStatus.COMPLETED
    ∧ WorkflowRun.steps final !! "" = Some (StepRun.new "")
    ∧ (∀ j sr, WorkflowRun.steps final !! j = Some sr → sr = StepRun.new j).
Proof.
  intros Hwf Hne Hloc Hfree Hstart Hget1 Hentry Hwc.
  assert (current_step run0 = None) as Hcur.
  { destruct (start_workflow_world _ _ _ _ _ _ _ Hwf Hne Hloc Hfree Hstart) as (-> & _).
    destruct (started_run_fields uuid wid context wf (clock w0))
      as (_ & _ & _ & _ & Hcur0 & _).
    unfold current_step. by rewrite Hcur0, Hentry. }
  destruct (run_completes_aux uuid wid context w0 w1 w1 wf run0 run0 []
              Hwf Hne Hloc Hfree Hstart Hget1 (passes_nil wf run0 w1) Hcur Hwc)
    as (Hexec & Hfile & _ & Hstat & _ & _ & _ & Hpending & _).
  do 2 eexists. split_and!; [apply Hexec; cbn; lia|exact Hfile|exact Hstat| |].
  - apply Hpending; [|apply not_elem_of_nil].
    destruct (get_workflow_stored wid w0 wf Hwf) as [Hc _].
    apply construct_ok_iff in Hc as (_ & He & _). by rewrite Hentry in He.
  - intros j sr.
    destruct (start_workflow_world _ _ _ _ _ _ _ Hwf Hne Hloc Hfree Hstart) as (-> & _).
    unfold WorkflowRun.model_dump.
    cbn [WorkflowRun.steps WorkflowRun.set_steps completed_run
         WorkflowRun.set_completed_at WorkflowRun.set_status].
    rewrite lookup_fmap, started_run_steps. case_bool_decide; [|done].
    by intros [= <-].
Qed.

(** *** The outermost handler *)

(** The run as the outermost handler leaves it. *)
Definition crashed_run e (now : datetime) run : WorkflowRun.t :=
  WorkflowRun.set_completed_at (Some now)
    (WorkflowRun.set_error (Some (exn_str e))
       (WorkflowRun.set_status RunStatus.FAILED run)).

(** The handler over a run whose file is there and is read as [r]:
    the run is rewritten as failed, unless the serialiser refuses it. *)
Lemma recover_read uuid e r w :
  uuid ≠ "" → located uuid → stored uuid w →
  get_run' uuid w = Ok r → WorkflowRun.run_id r = uuid →
  recover' uuid e w
  = match unwritable (crashed_run e (clock w) r) with
    | Some _ => w
    | None => persist (crashed_run e (clock w) r) w
    end.
Proof.
  intros Hne Hloc Hst Hget Hid. unfold recover. rewrite Hget.
  fold (crashed_run e (clock w) r).
  rewrite update_run_located by (cbn; by rewrite Hid).
  by destruct (unwritable _).
Qed.

Lemma crashed_run_file uuid e r w :
  WorkflowRun.run_id r = uuid →
  ∃ final,
    runs (persist (crashed_run e (clock w) r) w) !! run_file uuid = Some final
    ∧ WorkflowRun.status final = RunStatus.FAILED
    ∧ WorkflowRun.error final = Some (exn_str e)
    ∧ WorkflowRun.completed_at final = Some (clock w)
    ∧ (∀ j, StepRun.status <$> WorkflowRun.steps final !! j
            = StepRun.status <$> WorkflowRun.steps r !! j).
Proof.
  intros Hid. exists (WorkflowRun.model_dump (crashed_run e (clock w) r)).
  split_and!; try done.
  - rewrite <- Hid. apply (file_persist (crashed_run e (clock w) r)).
  - intros j. by rewrite status_model_dump.
Qed.

(** X9: the background execution of a run whose file is not there
    crashes with [NotFoundError] and leaves the world as it was. When
    the file of the run is there and is read, and reading the
    definition of its workflow raises (the definition is gone, or does
    not pass the validators), the execution crashes with that error and
    the handler rewrites the stored run as failed, with the text of the
    error as its error and [completed_at] set, every step record
    keeping its status; when the serialiser refuses the failed run,
    the handler leaves the world as it was. *)
Theorem crashed_run_is_failed (fuel : nat) (uuid : string) (w : world) :
  (∀ key, locate_run uuid = FilesystemStorage.File key → runs w !! key = None →
     ∃ e, execute_workflow fuel uuid w = (Crashed e, w) ∧ exn_cls e = NotFoundError)
  ∧ (∀ r e, uuid ≠ "" → located uuid → stored uuid w →
       get_run' uuid w = Ok r → WorkflowRun.run_id r = uuid →
       get_workflow' (WorkflowRun.workflow_id r) w = Raise e →
       execute_workflow fuel uuid w
       = (Crashed e, match unwritable (crashed_run e (clock w) r) with
                     | Some _ => w
                     | None => persist (crashed_run e (clock w) r) w
                     end)
       ∧ ∃ final,
           runs (persist (crashed_run e (clock w) r) w) !! run_file uuid = Some final
           ∧ WorkflowRun.status final = RunStatus.FAILED
           ∧ WorkflowRun.error final = Some (exn_str e)
           ∧ WorkflowRun.completed_at final = Some (clock w)
           ∧ (∀ j, StepRun.status <$> WorkflowRun.steps final !! j
                   = StepRun.status <$> WorkflowRun.steps r !! j)).
Proof.
  split.
  - intros key Hloc Hnone.
    unfold _execute_workflow, recover, get_run, FilesystemStorage._get.
    rewrite Hloc, Hnone. by eexists.
  - intros r e Hne Hloc Hst Hget Hid Hwf. split; [|by apply crashed_run_file].
    unfold _execute_workflow. rewrite Hget, Hwf. f_equal. by apply recover_read.
Qed.

(** *** The output of a Delay step is the context object *)

Lemma execute_step_delay step_def context c output c' :
  StepDefinition.type step_def = StepType.DELAY →
  execute_step step_def context c = (Ok output, c') →
  output = BaseConnector.Argument.
Proof.
  intros Hty. rewrite (execute_step_DELAY _ _ _ Hty).
  destruct (DelayConfig.parse _ _); [|done]. unfold DelayConnector.execute.
  case_match; [done|]. by intros [= <- _].
Qed.

Lemma steps_stepped_run_argument step_def i now run sr :
  WorkflowRun.steps run !! i = Some sr → WorkflowRun.context run ≠ ∅ →
  WorkflowRun.steps (stepped_run step_def i BaseConnector.Argument now run) !! i
  = Some (StepRun.mk (StepRun.step_id sr) StepStatus.COMPLETED (StepRun.start_time sr)
            (Some now) (StepRun.error sr) (Some StepRun.RunContext)).
Proof.
  intros Hi Hctx. unfold stepped_run, WorkflowRun.complete_step. cbn. rewrite Hi. cbn.
  rewrite lookup_alter_eq, Hi. cbn. rewrite union_self.
  unfold Py.truthy_dict. by rewrite bool_decide_eq_false_2.
Qed.

(** X11: the record of a Delay step holds, as its output, the dict
    object that is the run's context, not a copy: when the step ran
    over a non-empty context and the loop then makes further passes
    over other steps, the output of the Delay step in the file of the
    run, as the last pass wrote it, is the context of the run as it
    stands then, with everything later steps have added. *)
Theorem delay_output_follows_context (wf : WorkflowDefinition.t) (i : string)
    (step_def : StepDefinition.t) run w run1 w1 (ids : list string) run2 w2 :
  WorkflowRun.run_id run ≠ "" → located (WorkflowRun.run_id run) →
  stored (WorkflowRun.run_id run) w →
  WorkflowDefinition.get_step wf i = Some step_def →
  StepDefinition.type step_def = StepType.DELAY →
  WorkflowRun.context run ≠ ∅ →
  loop_body' wf i run w = (Next run1, w1) →
  passes wf run1 w1 ids run2 w2 → i ∉ ids →
  ∃ final sr,
    runs w2 !! run_file (WorkflowRun.run_id run) = Some final
    ∧ WorkflowRun.context final = WorkflowRun.context run2
    ∧ WorkflowRun.steps final !! i = Some sr
    ∧ StepRun.status sr = StepStatus.COMPLETED
    ∧ StepRun.output sr = Some (StepRun.Own (WorkflowRun.context run2)).
Proof.
  intros Hne Hloc Hst Hdef Hty Hctx Hb Hp Hi.
  destruct (pass_next _ _ _ _ _ _ Hne Hloc Hst Hb)
    as (sd & output & c & Hdef' & Hexec & Hrun1 & Hw1 & Hid & _).
  rewrite Hdef in Hdef'. injection Hdef' as <-.
  pose proof (execute_step_delay _ _ _ _ _ Hty Hexec) as ->.
  assert (synced run1 w1) as Hs1 by (rewrite Hw1; apply synced_persist).
  assert (WorkflowRun.run_id run1 ≠ "") as Hne1 by (by rewrite Hid).
  assert (located (WorkflowRun.run_id run1)) as Hloc1 by (by rewrite Hid).
  destruct (passes_invariant _ _ _ _ _ _ Hp Hne1 Hloc1 (synced_stored _ _ Hs1))
    as (Hid2 & _ & _ & _ & Hframe).
  pose proof (passes_synced _ _ _ _ _ _ Hp Hne1 Hloc1 Hs1) as Hs2.
  destruct (steps_start_step_eq (clock w) i run) as (sr & Hsr & _).
  exists (WorkflowRun.model_dump run2). eexists. split_and!.
  - rewrite <- Hid, <- Hid2. exact Hs2.
  - done.
  - unfold WorkflowRun.model_dump. cbn [WorkflowRun.steps WorkflowRun.set_steps].
    rewrite lookup_fmap, (Hframe i Hi), Hrun1.
    rewrite (steps_stepped_run_argument step_def i c _ sr Hsr)
      by (by rewrite context_start_step).
    reflexivity.
  - done.
  - done.
Qed.

(** *** Listing runs and reading definitions back *)

Lemma elem_of_list_runs (workflow_id : option string) w r :
  r ∈ list_runs' workflow_id w
  ↔ ∃ name file, runs w !! name = Some file
                 ∧ FilesystemStorage.json_file name = true
                 ∧ run_validate file = Ok r
                 ∧ ∀ i, workflow_id = Some i → i ≠ "" → WorkflowRun.workflow_id r = i.
Proof.
  unfold list_runs. rewrite elem_of_list_entities. split.
  - intros (name & file & Hd & Hj & Hv & Hf). exists name, file.
    split_and!; [done..|].
    intros i -> Hi. destruct i as [|a t]; [done|]. cbn in Hf.
    by apply bool_decide_eq_true in Hf.
  - intros (name & file & Hd & Hj & Hv & Hf). exists name, file.
    split_and!; [done..|].
    destruct workflow_id as [[|a t]|]; cbn; [done| |done].
    apply bool_decide_eq_true. by apply Hf.
Qed.

(** X16: [list_runs] for a workflow id returns exactly the runs that
    the model reads from the files named [*.json] of the run directory
    and whose [workflow_id] is that id: a file the model does not read
    is passed over. With no id, or with the empty string as id, it
    returns every run read. *)
Theorem list_runs_of_workflow (workflow_id : option string) w r :
  (r ∈ list_runs' workflow_id w
   ↔ ∃ name file, runs w !! name = Some file
                  ∧ FilesystemStorage.json_file name = true
                  ∧ run_validate file = Ok r
                  ∧ ∀ i, workflow_id = Some i → i ≠ "" → WorkflowRun.workflow_id r = i)
  ∧ list_runs' (Some "") w = list_runs' None w.
Proof. split; [apply elem_of_list_runs|done]. Qed.

(** X17: the run [start_workflow] returns, when its id is a plain
    file name and the model reads its file back as it was written, is
    listed from then on: it is among the runs of its workflow and among
    all runs, and it is not among the runs of any other workflow. *)
Theorem started_run_is_listed (uuid wid : string) (context : option dict)
    (w0 w1 : world) (wf : WorkflowDefinition.t) (run0 : WorkflowRun.t) :
  get_workflow' wid w0 = Ok wf → uuid ≠ "" → located uuid →
  Py.has_char "/" uuid = false →
  runs w0 !! run_file uuid = None →
  start_workflow' uuid wid context w0 = (Ok run0, w1) →
  get_run' uuid w1 = Ok run0 →
  run0 ∈ list_runs' (Some wid) w1
  ∧ run0 ∈ list_runs' None w1
  ∧ (∀ other, other ≠ wid → other ≠ "" → run0 ∉ list_runs' (Some other) w1).
Proof.
  intros Hwf Hne Hloc Hplain Hfree Hstart Hget1.
  destruct (start_workflow_world _ _ _ _ _ _ _ Hwf Hne Hloc Hfree Hstart)
    as (Hrun0 & _ & Hfile & _).
  destruct (started_run_fields uuid wid context wf (clock w0)) as (Hid & Hwid & _).
  rewrite <- Hrun0 in Hid, Hwid.
  rewrite (get_run_file uuid run0 w1 Hloc Hfile) in Hget1.
  split_and!.
  - apply elem_of_list_runs. exists (run_file uuid), run0.
    split_and!; [done|by apply json_file_entity_file|done|]. by intros i [= <-] _.
  - apply elem_of_list_runs. exists (run_file uuid), run0.
    split_and!; [done|by apply json_file_entity_file|done|done].
  - intros other Hother Hne' Hin.
    apply elem_of_list_runs in Hin as (name & file & _ & _ & _ & Hf).
    apply Hother. rewrite <- Hwid. symmetry. by apply Hf.
Qed.

(** X18: [get_workflow_or_none] over the file that the path of the id
    names: it returns [None] exactly when the file is not there, and a
    definition exactly when the file is read and passes the model's
    validators; a file that is not read or does not pass them is an
    error, a [ValidationError], not [None]. For a path below a
    directory that is not there it returns [None] as well. *)
Theorem get_workflow_or_none_missing (wid key : string) w :
  locate_workflow wid = FilesystemStorage.File key →
  (FilesystemStorage.get_workflow_or_none locate_workflow
     (load_workflow workflow_invalid) wid (workflows w) = Ok None
   ↔ workflows w !! key = None)
  ∧ (∀ wf, FilesystemStorage.get_workflow_or_none locate_workflow
             (load_workflow workflow_invalid) wid (workflows w) = Ok (Some wf)
           ↔ workflows w !! key = Some wf ∧ workflow_invalid wf = None ∧ well_formed wf)
  ∧ (∀ e, FilesystemStorage.get_workflow_or_none locate_workflow
            (load_workflow workflow_invalid) wid (workflows w) = Raise e
          → exn_cls e = ValidationError
            ∧ ∃ wf, workflows w !! key = Some wf
                    ∧ (is_Some (workflow_invalid wf) ∨ ¬ well_formed wf))
  ∧ (∀ wid' e', locate_workflow wid' = FilesystemStorage.NoParent e' →
       FilesystemStorage.get_workflow_or_none locate_workflow
         (load_workflow workflow_invalid) wid' (workflows w) = Ok None).
Proof.
  intros Hloc.
  assert (FilesystemStorage.get_workflow_or_none locate_workflow
            (load_workflow workflow_invalid) wid (workflows w)
          = match workflows w !! key with
            | None => Ok None
            | Some wf =>
                match workflow_invalid wf with
                | Some msg => Raise (Exn ValidationError msg)
                | None =>
                    match WorkflowDefinition.construct wf with
                    | Ok g => Ok (Some g)
                    | Raise e => Raise e
                    end
                end
            end) as ->.
  { unfold FilesystemStorage.get_workflow_or_none, FilesystemStorage._get.
    rewrite Hloc. destruct (workflows w !! key) as [wf|]; [|done].
    unfold load_workflow. destruct (workflow_invalid wf); [done|].
    destruct (WorkflowDefinition.construct wf) eqn:Hc; [done|].
    by rewrite (construct_raise_class _ _ Hc). }
  assert (∀ wid' e', locate_workflow wid' = FilesystemStorage.NoParent e' →
            FilesystemStorage.get_workflow_or_none locate_workflow
              (load_workflow workflow_invalid) wid' (workflows w) = Ok None) as Hnp.
  { intros wid' e' Hnp. unfold FilesystemStorage.get_workflow_or_none,
      FilesystemStorage._get. by rewrite Hnp. }
  destruct (workflows w !! key) as [wf|] eqn:Hfile.
  - destruct (workflow_invalid wf) as [msg|] eqn:Hinv.
    + split_and!; [done| | |exact Hnp].
      * intros wf'. split; [done|]. intros ([= <-] & Hinv' & _). congruence.
      * intros e' [= <-]. split; [done|]. exists wf. split; [done|]. left. by eexists.
    + destruct (WorkflowDefinition.construct wf) as [g|e] eqn:Hc.
      * pose proof (construct_ok_self _ _ Hc) as ->.
        pose proof Hc as Hwf. apply construct_ok_iff in Hwf.
        split_and!; [done| |done|exact Hnp].
        intros wf'. split; [by intros [= <-]|]. by intros ([= <-] & _).
      * pose proof (construct_raise_class _ _ Hc) as Hcls.
        split_and!; [done| | |exact Hnp].
        -- intros wf'. split; [done|]. intros ([= <-] & _ & Hwf).
           apply construct_ok_iff in Hwf. congruence.
        -- intros e' [= <-]. split; [done|]. exists wf. split; [done|]. right.
           intros Hwf. apply construct_ok_iff in Hwf. congruence.
  - split_and!; [done| |done|exact Hnp]. intros wf. split; [done|]. by intros [? _].
Qed.

(** *** A run whose current step the definition does not have *)

(** X22: when the run read from its file stands at a step that is no
    step of the stored definition (the definition was replaced after
    the start), the first pass raises the step-not-found [ValueError]
    out of the loop; the outermost handler then rewrites the stored run
    as failed with the text of that error, every step record keeping
    its status, unless the serialiser refuses the failed run: then the
    world is left as it was. *)
Theorem unknown_step_crashes (fuel : nat) (uuid s : string) w r
    (wf : WorkflowDefinition.t) :
  uuid ≠ "" → located uuid → stored uuid w →
  get_run' uuid w = Ok r → WorkflowRun.run_id r = uuid →
  get_workflow' (WorkflowRun.workflow_id r) w = Ok wf →
  current_step r = Some s →
  s ∉ WorkflowDefinition.step_ids (WorkflowDefinition.steps wf) →
  let e := Exn ValueError ("Step " ++ s ++ " not found in workflow "
                             ++ WorkflowDefinition.id wf) in
  execute_workflow (S fuel) uuid w
  = (Crashed e, match unwritable (crashed_run e (clock w) r) with
                | Some _ => w
                | None => persist (crashed_run e (clock w) r) w
                end)
  ∧ ∃ final,
      runs (persist (crashed_run e (clock w) r) w) !! run_file uuid = Some final
      ∧ WorkflowRun.status final = RunStatus.FAILED
      ∧ WorkflowRun.error final
        = Some ("Step " ++ s ++ " not found in workflow " ++ WorkflowDefinition.id wf)
      ∧ WorkflowRun.completed_at final = Some (clock w)
      ∧ (∀ j, StepRun.status <$> WorkflowRun.steps final !! j
              = StepRun.status <$> WorkflowRun.steps r !! j).
Proof.
  intros Hne Hloc Hst Hget Hid Hwf Hcur Hs e. split; [|by apply crashed_run_file].
  apply get_step_None in Hs.
  rewrite (execute_workflow_loop (S fuel) uuid _ wf r w Hget eq_refl Hwf).
  cbn [loop]. rewrite Hcur. unfold loop_body. rewrite Hs. fold e.
  f_equal. by apply recover_read.
Qed.

(** *** The time a run takes *)

Lemma delay_parse_positive (config : dict) (c : DelayConfig.t) :
  DelayConfig.parse int_of_str config = Ok c → 0 < DelayConfig.seconds c.
Proof.
  unfold DelayConfig.parse. intros Hc.
  repeat (case_match; simpl in *; simplify_eq);
    match goal with
    | Hpos : bool_decide _ = true |- _ => by apply bool_decide_eq_true in Hpos
    end.
Qed.

(** The seconds a step sleeps: those of its config, for a Delay step
    whose config parses. *)
Definition step_delay (step_def : StepDefinition.t) : Z :=
  match StepDefinition.type step_def with
  | StepType.DELAY =>
      match DelayConfig.parse int_of_str (StepDefinition.config step_def) with
      | Ok c => DelayConfig.seconds c
      | Raise _ => 0
      end
  | StepType.WEBHOOK => 0
  end.

Definition delays (wf : WorkflowDefinition.t) (ids : list string) : Z :=
  foldr (fun i acc => match WorkflowDefinition.get_step wf i with
                      | Some step_def => step_delay step_def + acc
                      | None => acc
                      end) 0 ids.

Lemma execute_step_clock step_def context c0 output c :
  execute_step step_def context c0 = (Ok output, c) →
  c = c0 + step_delay step_def ∧ 0 ≤ step_delay step_def.
Proof.
  unfold step_delay. destruct (StepDefinition.type step_def) eqn:Hty.
  - rewrite (execute_step_DELAY _ _ _ Hty).
    destruct (DelayConfig.parse _ _) as [cfg|] eqn:Hp; [|done].
    unfold DelayConnector.execute. case_match; [done|]. cbn. intros [= _ <-].
    apply delay_parse_positive in Hp. split; [done|lia].
  - rewrite (execute_step_WEBHOOK _ _ _ Hty).
    destruct (WebhookConfig.parse _ _) as [cfg|]; [|done].
    destruct (webhook_execute_shape (WebhookConnector.init cfg) context c0)
      as (d & -> & _).
    intros [= _ <-]. split; lia.
Qed.

Lemma started_at_start_step now i run :
  WorkflowRun.status run = RunStatus.RUNNING →
  WorkflowRun.started_at (WorkflowRun.start_step now i run) = WorkflowRun.started_at run.
Proof.
  intros Hs. unfold WorkflowRun.start_step. case_bool_decide as Hp.
  - exfalso. revert Hp. unfold WorkflowRun.add_step.
    repeat case_match; cbn; congruence.
  - unfold WorkflowRun.add_step. repeat case_match; done.
Qed.

Lemma started_at_stepped_run step_def i output now run :
  WorkflowRun.started_at (stepped_run step_def i output now run)
  = WorkflowRun.started_at run.
Proof. unfold stepped_run, WorkflowRun.complete_step. cbn. by case_match. Qed.

Lemma passes_clock wf run w ids run' w' :
  passes wf run w ids run' w' →
  WorkflowRun.status run = RunStatus.RUNNING →
  clock w' = clock w + delays wf ids
  ∧ 0 ≤ delays wf ids
  ∧ WorkflowRun.started_at run' = WorkflowRun.started_at run.
Proof.
  induction 1 as [run w|run w i run1 w1 ids run2 w2 Hcur Hb Hp IH]; intros Hstat.
  - cbn. split_and!; [lia|done..].
  - destruct (pass_run _ _ _ _ _ _ Hb) as (sd & output & c & Hdef & Hexec & Hrun1 & Hc).
    destruct (execute_step_clock _ _ _ _ _ Hexec) as [Hclock Hpos].
    destruct (fields_start_step (clock w) i run) as (_ & _ & _ & Hs0).
    destruct (fields_stepped_run sd i output c
                (WorkflowRun.start_step (clock w) i run)) as (_ & _ & Hst1).
    rewrite <- Hrun1 in Hst1.
    destruct IH as (Hclock' & Hpos' & Hstarted); [rewrite Hst1; by apply Hs0|].
    cbn [delays foldr]. rewrite Hdef. fold (delays wf ids).
    split_and!; [lia|lia|].
    rewrite Hstarted, Hrun1, started_at_stepped_run. by apply started_at_start_step.
Qed.

(** X23: a run takes at least the seconds of the Delay steps it
    passes. In a run started for a stored definition, read back as it
    was written, that completes after passes over the steps [done], the
    run in its file has a duration, and it is not below the sum of the
    seconds configured for the Delay steps among [done]; in particular
    it is not negative. *)
Theorem completed_run_duration (uuid wid : string) (context : option dict)
    (w0 w1 w : world) (wf : WorkflowDefinition.t) (run0 run : WorkflowRun.t)
    (done : list string) :
  get_workflow' wid w0 = Ok wf → uuid ≠ "" → located uuid →
  runs w0 !! run_file uuid = None →
  start_workflow' uuid wid context w0 = (Ok run0, w1) →
  get_run' uuid w1 = Ok run0 →
  passes wf run0 w1 done run w →
  current_step run = None →
  writable (completed_run (clock w) run) →
  ∃ final w' d,
    execute_workflow (length done) uuid w1 = (Completed, w')
    ∧ runs w' !! run_file uuid = Some final
    ∧ WorkflowRun.duration_seconds final = Some d
    ∧ 0 ≤ delays wf done ≤ d.
Proof.
  intros Hwf Hne Hloc Hfree Hstart Hget1 Hp Hcur Hwc.
  destruct (run_completes_aux uuid wid context w0 w1 w wf run0 run done
              Hwf Hne Hloc Hfree Hstart Hget1 Hp Hcur Hwc) as (Hexec & Hfile & _).
  destruct (start_workflow_world _ _ _ _ _ _ _ Hwf Hne Hloc Hfree Hstart)
    as (Hrun0 & Hs1 & _ & _ & Hclock1).
  destruct (started_run_fields uuid wid context wf (clock w0))
    as (Hid0 & _ & Hstat0 & _ & _ & _ & Hstarted0).
  rewrite <- Hrun0 in Hid0, Hstat0, Hstarted0.
  destruct (passes_clock wf run0 w1 done run w Hp Hstat0) as (Hclock & Hpos & Hstarted).
  do 2 eexists. exists (clock w - clock w0).
  split_and!; [by apply Hexec|exact Hfile| |done|lia].
  unfold WorkflowRun.duration_seconds. cbn. by rewrite Hstarted, Hstarted0.
Qed.

(** X24: a Delay step takes at least its seconds. After the pass over
    a Delay step whose config parses to a number of seconds that the
    sleep takes, in a context with no key named [self] and with the
    serialiser taking the run, the step is completed in the run's file
    with a start and an end time, its duration is not below the seconds
    of its config, which are above zero, and the context of the run is
    what it was. *)
Theorem delay_step_duration (wf : WorkflowDefinition.t) (i : string)
    (step_def : StepDefinition.t) (config : DelayConfig.t) run w :
  WorkflowDefinition.get_step wf i = Some step_def →
  WorkflowRun.run_id run ≠ "" → located (WorkflowRun.run_id run) →
  stored (WorkflowRun.run_id run) w →
  StepDefinition.type step_def = StepType.DELAY →
  DelayConfig.parse int_of_str (StepDefinition.config step_def) = Ok config →
  DelayConfig.seconds config < 2 ^ 1024 - 2 ^ 970 →
  WorkflowRun.context run !! "self" = None →
  writable (WorkflowRun.start_step (clock w) i run) →
  writable (stepped_run step_def i BaseConnector.Argument
              (clock w + DelayConfig.seconds config)
              (WorkflowRun.start_step (clock w) i run)) →
  ∃ run1 w1 final sr d,
    loop_body' wf i run w = (Next run1, w1)
    ∧ runs w1 !! run_file (WorkflowRun.run_id run) = Some final
    ∧ WorkflowRun.context final = WorkflowRun.context run
    ∧ WorkflowRun.steps final !! i = Some sr
    ∧ StepRun.status sr = StepStatus.COMPLETED
    ∧ StepRun.duration_seconds sr = Some d
    ∧ 0 < DelayConfig.seconds config ≤ d.
Proof.
  intros Hdef Hne Hloc Hst Hty Hparse Hlt Hself Hw0 Hw1.
  assert (execute_step step_def (WorkflowRun.context run) (clock w)
          = (Ok BaseConnector.Argument, clock w + DelayConfig.seconds config)) as Hexec.
  { rewrite (execute_step_DELAY _ _ _ Hty), Hparse, delay_execute.
    by rewrite bool_decide_eq_true_2. }
  destruct (successful_pass wf i step_def run w _ _ Hdef Hne Hloc Hst Hexec Hself Hw0 Hw1)
    as (run1 & w1 & final & Hb & Hfile & -> & _).
  destruct (pass_run _ _ _ _ _ _ Hb) as (sd & output & c & Hdef' & Hexec' & Hrun1 & _).
  rewrite Hdef in Hdef'. injection Hdef' as <-.
  rewrite Hexec in Hexec'. injection Hexec' as <- <-.
  destruct (steps_start_step_eq (clock w) i run) as (sr & Hsr & _ & Hstart).
  exists run1, w1, (WorkflowRun.model_dump run1). do 2 eexists. split_and!.
  - done.
  - done.
  - change (WorkflowRun.context (WorkflowRun.model_dump run1))
      with (WorkflowRun.context run1).
    rewrite Hrun1, context_stepped_run, context_start_step. cbn. apply union_self.
  - rewrite Hrun1.
    apply (dumped_output step_def i BaseConnector.Argument _ _ sr Hsr).
  - done.
  - unfold StepRun.duration_seconds. cbn. by rewrite Hstart.
  - by eapply delay_parse_positive.
  - lia.
Qed.

(** *** When a response is recorded *)

(** X25: the Webhook connector changes the [response] entry of the
    context only when a request was answered with a status from 200 to
    299: the request went out under the connector's method and url with
    a timeout of 30 seconds (and with no JSON body when the configured
    body is missing or empty), and the result is the context with the
    answer under [response], its [error] entry being what it was. *)
Theorem response_recorded_only_on_2xx (self : WebhookConnector.t) (context : dict)
    (c : datetime) (d : dict) :
  WebhookConnector.execute format_tail client_request self context c
  = (Ok (BaseConnector.Fresh d), c) →
  d !! "response" ≠ context !! "response" →
  ∃ request response b,
    client_request c request = Ok response
    ∧ httpx.method request = WebhookConnector.method self
    ∧ httpx.url request = WebhookConnector.url self
    ∧ httpx.timeout request = 30
    ∧ (WebhookConnector.truthy_body (WebhookConnector.body self) = false →
         httpx.json request = None)
    ∧ 200 ≤ httpx.status_code response ≤ 299
    ∧ d = <["response" := WebhookConnector.response_value response b]> context
    ∧ d !! "error" = context !! "error".
Proof.
  unfold WebhookConnector.execute.
  destruct (WebhookConnector.attempt _ _ _ _ _) as [result|e] eqn:Ha.
  - intros [= <-] _. unfold WebhookConnector.attempt in Ha.
    destruct (WebhookConnector._render_headers _ _ _) as [h|]; [|done]. cbn in Ha.
    destruct (if WebhookConnector.truthy_body _ then _ else _) as [j|] eqn:Hj; [|done].
    cbn in Ha.
    destruct (client_request _ _) as [response|] eqn:Hreq; [|done]. cbn in Ha.
    unfold httpx.raise_for_status in Ha. case_bool_decide as Hstatus; [|done]. cbn in Ha.
    destruct (if Py.contains _ _ then _ else _) as [b|]; [|done]. cbn in Ha.
    injection Ha as <-.
    exists (httpx.mk_request (WebhookConnector.method self) (WebhookConnector.url self)
              h j 30), response, b.
    split_and!; try done; try lia.
    + intros Hbody. rewrite Hbody in Hj. by injection Hj as <-.
    + by rewrite lookup_insert_ne.
  - intros [= <-] Hchanged. exfalso. apply Hchanged. by rewrite lookup_insert_ne.
Qed.

End RunStateMachine.

(** ** Placeholder interpolation of the Webhook connector *)

Section ValueInduction.
Variable P : value → Prop.
Hypothesis HNone : P VNone.
Hypothesis HBool : ∀ b, P (VBool b).
Hypothesis HInt : ∀ n, P (VInt n).
Hypothesis HStr : ∀ s, P (VStr s).
Hypothesis HList : ∀ l, Forall P l → P (VList l).
Hypothesis HDict : ∀ d, Forall (fun kv => P (snd kv)) d → P (VDict d).

Fixpoint value_nested_ind (v : value) : P v :=
  match v with
  | VNone => HNone
  | VBool b => HBool b
  | VInt n => HInt n
  | VStr s => HStr s
  | VList l =>
      HList l ((fix go (l : list value) : Forall P l :=
                  match l with
                  | [] => List.Forall_nil P
                  | x :: l' => @List.Forall_cons _ P x l' (value_nested_ind x) (go l')
                  end) l)
  | VDict d =>
      HDict d ((fix go (d : list (string * value)) : Forall (fun kv => P (snd kv)) d :=
                  match d with
                  | [] => List.Forall_nil _
                  | kv :: d' =>
                      @List.Forall_cons _ (fun kv => P (snd kv)) kv d'
                        (value_nested_ind (snd kv)) (go d')
                  end) d)
  end.
End ValueInduction.

Section Interpolation.
Import WebhookConnector.
Variable format_tail : string -> dict -> result string.

Abbreviation render := (render_str format_tail).

(** A template: literal text and named placeholders. *)
Inductive segment : Type :=
| Text (s : string)
| Placeholder (name : string).

Definition brace (c : ascii) : Prop := c = "{"%char ∨ c = "}"%char.

(** Literal text holds no brace; a placeholder name is not empty, is
    not a number, and is made of ASCII characters other than the braces
    and those that start an attribute, an index, a conversion or a
    format spec. *)
Definition plain_text (s : string) : Prop :=
  Forall (fun c => ¬ brace c) (list_ascii_of_string s).

Definition plain_name (n : string) : Prop :=
  n ≠ "" ∧ Py.all_digits n = false
  ∧ Forall (fun c => ¬ brace c ∧ Py.compound_char c = false) (list_ascii_of_string n).

Definition plain_segment (seg : segment) : Prop :=
  match seg with
  | Text s => plain_text s
  | Placeholder n => plain_name n
  end.

Fixpoint template_text (t : list segment) : string :=
  match t with
  | [] => ""
  | Text s :: t' => s ++ template_text t'
  | Placeholder n :: t' => String "{" (n ++ String "}" (template_text t'))
  end.

(** The text [str] gives for a value, where it gives one. *)
Definition str_text (v : value) : string :=
  match Py.str v with
  | Ok s => s
  | Raise _ => ""
  end.

(** The text with every placeholder replaced by [str] of its value. *)
Fixpoint fill (context : dict) (t : list segment) : string :=
  match t with
  | [] => ""
  | Text s :: t' => s ++ fill context t'
  | Placeholder n :: t' => str_text (default VNone (context !! n)) ++ fill context t'
  end.

(** The first placeholder that cannot be replaced: its name is no key
    of the context, or [str] of its value raises (the value is, or
    holds, an integer of more than 4300 digits). *)
Fixpoint first_unfilled (context : dict) (t : list segment) : option string :=
  match t with
  | [] => None
  | Text _ :: t' => first_unfilled context t'
  | Placeholder n :: t' =>
      match context !! n with
      | Some v => if is_ok (Py.str v) then first_unfilled context t' else Some n
      | None => Some n
      end
  end.

(** The values the context holds for the placeholders are strings, or
    are built from [None], booleans, integers and ASCII strings. *)
Definition known_values (context : dict) (t : list segment) : Prop :=
  Forall (fun seg => match seg with
                     | Text _ => True
                     | Placeholder n =>
                         ∀ v, context !! n = Some v → Py.text_known v = true
                     end) t.

Lemma append_cons (x : ascii) (a b : string) : String x a ++ b = String x (a ++ b).
Proof. done. Qed.

Lemma append_assoc (a b c : string) : (a ++ b) ++ c = a ++ (b ++ c).
Proof. induction a as [|x a IH]; [done|]. rewrite !append_cons. by rewrite IH. Qed.

Lemma append_nil_r (a : string) : a ++ "" = a.
Proof. induction a as [|x a IH]; [done|]. rewrite append_cons. by rewrite IH. Qed.

(** [repr] and [str] raise nothing but the [ValueError] of an integer
    that is too long. *)
Definition repr_elems : list value → result (list string) :=
  fix elems l :=
    match l with
    | [] => Ok []
    | x :: l' => t ← Py.repr x; r ← elems l'; Ok (t :: r)
    end.

Definition repr_items : list (string * value) → result (list string) :=
  fix items d :=
    match d with
    | [] => Ok []
    | (k, x) :: d' =>
        t ← Py.repr x; r ← items d'; Ok ((Py.repr_str k ++ ": " ++ t) :: r)
    end.

Lemma repr_list l :
  Py.repr (VList l) = r ← repr_elems l; Ok ("[" ++ String.concat ", " r ++ "]").
Proof. done. Qed.

Lemma repr_dict d :
  Py.repr (VDict d) = r ← repr_items d; Ok ("{" ++ String.concat ", " r ++ "}").
Proof. done. Qed.

Lemma repr_elems_raise l :
  Forall (fun x => ∀ e, Py.repr x = Raise e → exn_cls e = ValueError) l →
  ∀ e, repr_elems l = Raise e → exn_cls e = ValueError.
Proof.
  induction 1 as [|x l Hx Hl IH]; intros e; [done|].
  change (repr_elems (x :: l)) with (t ← Py.repr x; r ← repr_elems l; Ok (t :: r)).
  destruct (Py.repr x) as [t|e'] eqn:Hrx; cbn; [|intros [= <-]; by apply Hx].
  destruct (repr_elems l) as [r|e'] eqn:Hrl; cbn; [done|].
  intros [= <-]. by apply IH.
Qed.

Lemma repr_items_raise d :
  Forall (fun kv => ∀ e, Py.repr (snd kv) = Raise e → exn_cls e = ValueError) d →
  ∀ e, repr_items d = Raise e → exn_cls e = ValueError.
Proof.
  induction 1 as [|[k x] d Hx Hd IH]; intros e; [done|].
  change (repr_items ((k, x) :: d))
    with (t ← Py.repr x; r ← repr_items d; Ok ((Py.repr_str k ++ ": " ++ t) :: r)).
  cbn in Hx.
  destruct (Py.repr x) as [t|e'] eqn:Hrx; cbn; [|intros [= <-]; by apply Hx].
  destruct (repr_items d) as [r|e'] eqn:Hrl; cbn; [done|].
  intros [= <-]. by apply IH.
Qed.

Lemma repr_raise (v : value) : ∀ e, Py.repr v = Raise e → exn_cls e = ValueError.
Proof.
  clear format_tail.
  induction v as [|b|n|s|l IH|d IH] using value_nested_ind; intros e.
  - done.
  - by destruct b.
  - cbn. unfold Py.int_str. case_bool_decide; [|done]. by intros [= <-].
  - done.
  - rewrite repr_list. pose proof (repr_elems_raise l IH) as Hl.
    destruct (repr_elems l) as [r|e']; cbn; [done|]. intros [= <-]. by apply Hl.
  - rewrite repr_dict. pose proof (repr_items_raise d IH) as Hd.
    destruct (repr_items d) as [r|e']; cbn; [done|]. intros [= <-]. by apply Hd.
Qed.

Lemma str_raise (v : value) e : Py.str v = Raise e → tolerated e = true.
Proof.
  intros Hs. assert (exn_cls e = ValueError) as Hc.
  { destruct v; try done; by apply (repr_raise _ _ Hs). }
  unfold tolerated. by rewrite Hc.
Qed.

Lemma scan_literal (kwargs : dict) (s rest : string) :
  plain_text s →
  Py.format_scan format_tail kwargs Py.Literal (s ++ rest)
  = r ← Py.format_scan format_tail kwargs Py.Literal rest; Ok (s ++ r).
Proof.
  unfold plain_text. induction s as [|c s IH]; cbn [list_ascii_of_string]; intros Hp.
  - change ("" ++ rest) with rest. by destruct (Py.format_scan _ _ _ rest).
  - inversion Hp as [|? ? Hc Hs]; subst.
    rewrite append_cons. cbn [Py.format_scan].
    rewrite !bool_decide_eq_false_2 by (intros ->; apply Hc; by constructor).
    rewrite IH by done. by destruct (Py.format_scan _ _ _ rest).
Qed.

Lemma scan_name (kwargs : dict) (acc n rest : string) :
  Forall (fun c => ¬ brace c ∧ Py.compound_char c = false) (list_ascii_of_string n) →
  Py.format_scan format_tail kwargs (Py.Field acc) (n ++ String "}" rest)
  = Py.format_scan format_tail kwargs (Py.Field (acc ++ n)) (String "}" rest).
Proof.
  revert acc. induction n as [|c n IH]; cbn [list_ascii_of_string]; intros acc Hp.
  - change ("" ++ String "}" rest) with (String "}" rest). by rewrite append_nil_r.
  - inversion Hp as [|? ? [Hc Hcc] Hn]; subst.
    rewrite append_cons. cbn [Py.format_scan].
    rewrite !bool_decide_eq_false_2 by (intros ->; apply Hc; by constructor).
    rewrite Hcc, IH by done. by rewrite append_assoc.
Qed.

Lemma scan_placeholder (kwargs : dict) (n rest : string) :
  plain_name n →
  Py.format_scan format_tail kwargs Py.Literal (String "{" (n ++ String "}" rest))
  = match kwargs !! n with
    | None => Raise (Exn KeyError (Py.repr_str n))
    | Some v =>
        if Py.text_known v
        then t ← Py.str v; r ← Py.format_scan format_tail kwargs Py.Literal rest;
             Ok (t ++ r)
        else format_tail (String "{" (n ++ String "}" rest)) kwargs
    end.
Proof.
  intros (Hne & Hdig & Hp). destruct n as [|c n]; [done|].
  inversion Hp as [|? ? [Hb Hcc] Hn]; subst.
  rewrite append_cons. cbn [Py.format_scan]. rewrite bool_decide_eq_true_2 by done.
  rewrite !(bool_decide_eq_false_2 (c = _))
    by (intros ->; apply Hb; unfold brace; auto).
  rewrite Hcc. rewrite (scan_name kwargs _ n rest Hn).
  change (("" ++ String c "") ++ n) with (String c n).
  cbn [Py.format_scan].
  rewrite (bool_decide_eq_false_2 ("}"%char = "{"%char)) by done.
  rewrite bool_decide_eq_true_2 by done.
  rewrite bool_decide_eq_false_2 by done. by rewrite Hdig.
Qed.

(** [str.format] over a template: the text with the values filled in,
    or the error of the first placeholder that cannot be replaced, a
    [KeyError] or a [ValueError]. *)
Lemma format_template (context : dict) (t : list segment) :
  Forall plain_segment t → known_values context t →
  match Py.format format_tail (template_text t) context with
  | Ok r => first_unfilled context t = None ∧ r = fill context t
  | Raise e => is_Some (first_unfilled context t) ∧ tolerated e = true
  end.
Proof.
  unfold Py.format, known_values. induction 1 as [|seg t Hseg Ht IH]; [done|].
  intros Hk. inversion Hk as [|? ? Hv Hk']; subst. specialize (IH Hk').
  destruct seg as [s|n]; cbn [template_text first_unfilled fill].
  - rewrite scan_literal by done.
    destruct (Py.format_scan _ _ _ (template_text t)) as [r|e]; cbn; [|done].
    destruct IH as [-> ->]. done.
  - rewrite scan_placeholder by done. destruct (context !! n) as [v|] eqn:Hn.
    + rewrite (Hv v eq_refl). unfold str_text. cbn [default].
      change (Datatypes.id v) with v.
      destruct (Py.str v) as [x|e] eqn:Hx; cbn.
      * destruct (Py.format_scan _ _ _ (template_text t)) as [r|e]; cbn; [|done].
        destruct IH as [-> ->]. done.
      * split; [by eexists|]. by eapply str_raise.
    + split; [by eexists|done].
Qed.

(** A string value is rendered as a whole or not at all. *)
Lemma render_template (context : dict) (t : list segment) :
  Forall plain_segment t → known_values context t →
  render (template_text t) context
  = Ok (match first_unfilled context t with
        | Some _ => template_text t
        | None => fill context t
        end).
Proof.
  intros Ht Hk. unfold render_str.
  pose proof (format_template context t Ht Hk) as Hf.
  destruct (Py.format format_tail (template_text t) context) as [r|e].
  - destruct Hf as [-> ->]. done.
  - destruct Hf as [[n ->] ->]. done.
Qed.

(** The shape of a rendered value: strings rendered, everything else as
    it was, item by item. *)
Inductive rendered (context : dict) : value → value → Prop :=
| rendered_none : rendered context VNone VNone
| rendered_bool b : rendered context (VBool b) (VBool b)
| rendered_int n : rendered context (VInt n) (VInt n)
| rendered_str s s' : render s context = Ok s' → rendered context (VStr s) (VStr s')
| rendered_list l l' :
    Forall2 (rendered context) l l' → rendered context (VList l) (VList l')
| rendered_dict d d' :
    Forall2 (fun kv kv' => fst kv = fst kv' ∧ rendered context (snd kv) (snd kv')) d d' →
    rendered context (VDict d) (VDict d').

Definition render_elems (context : dict) : list value → result (list value) :=
  fix elems l :=
    match l with
    | [] => Ok []
    | x :: l' =>
        x' ← _render_value format_tail x context; r ← elems l'; Ok (x' :: r)
    end.

Definition render_dict_items (context : dict)
  : list (string * value) → result (list (string * value)) :=
  fix items d :=
    match d with
    | [] => Ok []
    | (k, x) :: d' =>
        x' ← _render_value format_tail x context; r ← items d'; Ok ((k, x') :: r)
    end.

Lemma render_value_list context l :
  _render_value format_tail (VList l) context
  = r ← render_elems context l; Ok (VList r).
Proof. done. Qed.

Lemma render_value_dict context d :
  _render_value format_tail (VDict d) context
  = r ← render_dict_items context d; Ok (VDict r).
Proof. done. Qed.

Lemma render_elems_rendered context l :
  Forall (fun x => ∀ x', _render_value format_tail x context = Ok x'
                         ↔ rendered context x x') l →
  ∀ l', render_elems context l = Ok l' ↔ Forall2 (rendered context) l l'.
Proof.
  induction 1 as [|x l Hx Hl IH]; intros l'; cbn.
  - split; [intros [= <-]; constructor|by inversion 1].
  - destruct (_render_value format_tail x context) as [x'|e] eqn:Hrx; cbn.
    + destruct (render_elems context l) as [r|e] eqn:Hrl; cbn.
      * split.
        -- intros [= <-]. constructor; [by apply Hx|by apply IH].
        -- inversion 1 as [|? y ? r' Hy Hr']; subst.
           apply Hx in Hy. apply IH in Hr'. congruence.
      * split; [done|]. inversion 1 as [|? y ? r' Hy Hr']; subst.
        apply IH in Hr'. congruence.
    + split; [done|]. inversion 1 as [|? y ? r' Hy Hr']; subst.
      apply Hx in Hy. congruence.
Qed.

Lemma render_dict_items_rendered context d :
  Forall (fun kv => ∀ x', _render_value format_tail (snd kv) context = Ok x'
                          ↔ rendered context (snd kv) x') d →
  ∀ d', render_dict_items context d = Ok d'
        ↔ Forall2 (fun kv kv' => fst kv = fst kv' ∧ rendered context (snd kv) (snd kv'))
            d d'.
Proof.
  induction 1 as [|[k x] d Hx Hd IH]; intros d'; cbn.
  - split; [intros [= <-]; constructor|by inversion 1].
  - cbn in Hx. destruct (_render_value format_tail x context) as [x'|e] eqn:Hrx; cbn.
    + destruct (render_dict_items context d) as [r|e] eqn:Hrl; cbn.
      * split.
        -- intros [= <-]. constructor; [split; [done|by apply Hx]|by apply IH].
        -- inversion 1 as [|? [k' y] ? r' [Hk Hy] Hr']; subst. cbn in *. subst.
           apply Hx in Hy. apply IH in Hr'. congruence.
      * split; [done|]. inversion 1 as [|? y ? r' Hy Hr']; subst.
        apply IH in Hr'. congruence.
    + split; [done|]. inversion 1 as [|? [k' y] ? r' [Hk Hy] Hr']; subst.
      cbn in *. apply Hx in Hy. congruence.
Qed.

Lemma render_value_rendered context v :
  ∀ v', _render_value format_tail v context = Ok v' ↔ rendered context v v'.
Proof.
  induction v as [|b|n|s|l IH|d IH] using value_nested_ind; intros v'.
  - cbn. split; [intros [= <-]; constructor|by inversion 1].
  - cbn. split; [intros [= <-]; constructor|by inversion 1].
  - cbn. split; [intros [= <-]; constructor|by inversion 1].
  - cbn. destruct (render s context) as [s'|e] eqn:Hs; cbn.
    + split; [intros [= <-]; by constructor|]. inversion 1; congruence.
    + split; [done|]. inversion 1; congruence.
  - rewrite render_value_list.
    pose proof (render_elems_rendered context l IH) as Hl.
    destruct (render_elems context l) as [r|e]; cbn.
    + split; [intros [= <-]; constructor; by apply Hl|].
      inversion 1 as [| | | |? l' Hl'|]; subst. apply Hl in Hl'. congruence.
    + split; [done|]. inversion 1 as [| | | |? l' Hl'|]; subst. by apply Hl in Hl'.
  - rewrite render_value_dict.
    pose proof (render_dict_items_rendered context d IH) as Hd.
    destruct (render_dict_items context d) as [r|e]; cbn.
    + split; [intros [= <-]; constructor; by apply Hd|].
      inversion 1 as [| | | | |? d' Hd']; subst. apply Hd in Hd'. congruence.
    + split; [done|]. inversion 1 as [| | | | |? d' Hd']; subst. by apply Hd in Hd'.
Qed.

Lemma render_items_rendered context (hs : list (string * string)) :
  ∀ hs', render_items format_tail hs context = Ok hs'
         ↔ Forall2 (fun kv kv' => fst kv = fst kv' ∧ render (snd kv) context = Ok (snd kv'))
             hs hs'.
Proof.
  induction hs as [|[k x] hs IH]; intros hs'; cbn.
  - split; [intros [= <-]; constructor|by inversion 1].
  - destruct (render x context) as [x'|e] eqn:Hrx; cbn.
    + destruct (render_items format_tail hs context) as [r|e] eqn:Hrl; cbn.
      * split.
        -- intros [= <-]. constructor; [done|by apply IH].
        -- inversion 1 as [|? [k' y] ? r' [Hk Hy] Hr']; subst. cbn in *. subst.
           apply IH in Hr'. congruence.
      * split; [done|]. inversion 1 as [|? y ? r' Hy Hr']; subst.
        apply IH in Hr'. congruence.
    + split; [done|]. inversion 1 as [|? [k' y] ? r' [Hk Hy] Hr']; subst.
      cbn in *. congruence.
Qed.

Lemma first_unfilled_None (context : dict) (t : list segment) :
  first_unfilled context t = None
  ↔ Forall (fun seg => match seg with
                       | Text _ => True
                       | Placeholder n =>
                           ∃ v, context !! n = Some v ∧ is_ok (Py.str v) = true
                       end) t.
Proof.
  induction t as [|[s|n] t IH]; cbn [first_unfilled].
  - split; [constructor|done].
  - rewrite IH. split; [by constructor|by inversion 1].
  - destruct (context !! n) as [v|] eqn:Hn.
    + destruct (is_ok (Py.str v)) eqn:Hok.
      * rewrite IH. split; [constructor; [by exists v|done]|by inversion 1].
      * split; [done|]. inversion 1 as [|? ? Hhd _]; subst.
        destruct Hhd as (v' & Hv' & Hok'). congruence.
    + split; [done|]. inversion 1 as [|? ? Hhd _]; subst.
      destruct Hhd as (v' & Hv' & Hok'). congruence.
Qed.

(** C6, as the code has it: a string of literal text and named
    placeholders, the context holding for them values whose [str] is
    known, is rendered as a whole when every placeholder names a key of
    the context and its value has a [str] (each placeholder replaced by
    it), and is left as its original text, whole, when some placeholder
    names no key or stands for an integer too long to print; a body
    value is rendered to a value of the same shape, its strings rendered
    and everything else untouched; headers are rendered value by value
    under their own names. *)
Theorem interpolation_whole_string (context : dict) (t : list segment) :
  Forall plain_segment t → known_values context t →
  render (template_text t) context
  = Ok (match first_unfilled context t with
        | Some _ => template_text t
        | None => fill context t
        end)
  ∧ _render_value format_tail (VStr (template_text t)) context
    = Ok (VStr (match first_unfilled context t with
                | Some _ => template_text t
                | None => fill context t
                end))
  ∧ (first_unfilled context t = None
     ↔ Forall (fun seg => match seg with
                          | Text _ => True
                          | Placeholder n =>
                              ∃ v, context !! n = Some v ∧ is_ok (Py.str v) = true
                          end) t)
  ∧ (∀ v v', _render_value format_tail v context = Ok v' ↔ rendered context v v')
  ∧ (∀ hs hs', render_items format_tail hs context = Ok hs'
       ↔ Forall2 (fun kv kv' => fst kv = fst kv'
                                ∧ render (snd kv) context = Ok (snd kv')) hs hs').
Proof.
  intros Ht Hk. split_and!.
  - by apply render_template.
  - cbn. by rewrite render_template.
  - apply first_unfilled_None.
  - intros v. apply render_value_rendered.
  - intros hs. apply render_items_rendered.
Qed.

(** *** Doubled braces and empty placeholders *)

(** A template with escapes: segments, and the doubled braces that
    [str.format] takes for one literal brace each. *)
Inductive piece : Type :=
| Seg (seg : segment)
| OpenBrace
| CloseBrace.

Definition plain_piece (p : piece) : Prop :=
  match p with
  | Seg seg => plain_segment seg
  | _ => True
  end.

Definition segments (t : list piece) : list segment :=
  omap (fun p => match p with Seg seg => Some seg | _ => None end) t.

Fixpoint pieces_text (t : list piece) : string :=
  match t with
  | [] => ""
  | Seg (Text s) :: t' => s ++ pieces_text t'
  | Seg (Placeholder n) :: t' => String "{" (n ++ String "}" (pieces_text t'))
  | OpenBrace :: t' => String "{" (String "{" (pieces_text t'))
  | CloseBrace :: t' => String "}" (String "}" (pieces_text t'))
  end.

Fixpoint pieces_fill (context : dict) (t : list piece) : string :=
  match t with
  | [] => ""
  | Seg (Text s) :: t' => s ++ pieces_fill context t'
  | Seg (Placeholder n) :: t' =>
      str_text (default VNone (context !! n)) ++ pieces_fill context t'
  | OpenBrace :: t' => String "{" (pieces_fill context t')
  | CloseBrace :: t' => String "}" (pieces_fill context t')
  end.

Lemma format_pieces (context : dict) (t : list piece) :
  Forall plain_piece t → known_values context (segments t) →
  match Py.format format_tail (pieces_text t) context with
  | Ok r => first_unfilled context (segments t) = None ∧ r = pieces_fill context t
  | Raise e => is_Some (first_unfilled context (segments t)) ∧ tolerated e = true
  end.
Proof.
  unfold Py.format, known_values. induction 1 as [|p t Hp Ht IH]; [done|].
  destruct p as [[s|n]| |];
    [change (segments (Seg (Text s) :: t)) with (Text s :: segments t)
    |change (segments (Seg (Placeholder n) :: t)) with (Placeholder n :: segments t)
    |change (segments (OpenBrace :: t)) with (segments t)
    |change (segments (CloseBrace :: t)) with (segments t)];
    cbn [pieces_text pieces_fill first_unfilled]; intros Hk.
  - inversion Hk as [|? ? Hv Hk']; subst. specialize (IH Hk').
    rewrite scan_literal by done.
    destruct (Py.format_scan _ _ _ (pieces_text t)) as [r|e]; cbn; [|done].
    destruct IH as [-> ->]. done.
  - inversion Hk as [|? ? Hv Hk']; subst. specialize (IH Hk').
    rewrite scan_placeholder by done. destruct (context !! n) as [v|] eqn:Hn.
    + rewrite (Hv v eq_refl). unfold str_text. cbn [default].
      change (Datatypes.id v) with v.
      destruct (Py.str v) as [x|e] eqn:Hx; cbn.
      * destruct (Py.format_scan _ _ _ (pieces_text t)) as [r|e]; cbn; [|done].
        destruct IH as [-> ->]. done.
      * split; [by eexists|]. by eapply str_raise.
    + split; [by eexists|done].
  - specialize (IH Hk).
    cbn [Py.format_scan]. rewrite !bool_decide_eq_true_2 by done.
    destruct (Py.format_scan _ _ _ (pieces_text t)) as [r|e]; cbn; [|done].
    destruct IH as [-> ->]. done.
  - specialize (IH Hk).
    cbn [Py.format_scan]. rewrite bool_decide_eq_false_2 by done.
    rewrite bool_decide_eq_true_2 by done.
    destruct (Py.format_scan _ _ _ (pieces_text t)) as [r|e]; cbn; [|done].
    destruct IH as [-> ->]. done.
Qed.

(** X19: doubled braces are escapes, not placeholders: a string value
    made of literal text, named placeholders and doubled braces, the
    context holding for the placeholders values whose [str] is known,
    is rendered with each doubled brace as one brace, when every
    placeholder can be replaced, and left as it is otherwise. So a name
    written in doubled braces, as the sample workflow writes its
    placeholders, comes out as the name in single braces whatever the
    context holds for it; it is never replaced by a value. *)
Theorem doubled_braces_are_escapes (context : dict) (t : list piece) :
  Forall plain_piece t → known_values context (segments t) →
  render (pieces_text t) context
  = Ok (match first_unfilled context (segments t) with
        | Some _ => pieces_text t
        | None => pieces_fill context t
        end)
  ∧ (∀ context' name, plain_text name →
       render_str format_tail (String "{" (String "{" (name ++ "}}"))) context'
       = Ok (String "{" (name ++ "}"))).
Proof.
  intros Ht Hk.
  assert (∀ context t, Forall plain_piece t → known_values context (segments t) →
            render (pieces_text t) context
            = Ok (match first_unfilled context (segments t) with
                  | Some _ => pieces_text t
                  | None => pieces_fill context t
                  end)) as Hrender.
  { intros context' t' Ht' Hk'. unfold render_str.
    pose proof (format_pieces context' t' Ht' Hk') as Hf.
    destruct (Py.format format_tail (pieces_text t') context') as [r|e].
    - destruct Hf as [-> ->]. done.
    - destruct Hf as [[n ->] ->]. done. }
  split; [by apply Hrender|]. intros context' name Hname.
  specialize (Hrender context' [OpenBrace; Seg (Text name); CloseBrace]).
  change (segments [OpenBrace; Seg (Text name); CloseBrace]) with [Text name] in Hrender.
  cbn [pieces_text first_unfilled pieces_fill] in Hrender.
  change (String "}" (String "}" "")) with "}}" in Hrender.
  apply Hrender; repeat constructor. exact Hname.
Qed.

Lemma scan_empty_placeholder (kwargs : dict) (s rest : string) :
  plain_text s →
  Py.format format_tail (s ++ String "{" (String "}" rest)) kwargs
  = Raise (Exn IndexError "Replacement index 0 out of range for positional args tuple").
Proof.
  intros Hs. unfold Py.format. rewrite scan_literal by done.
  cbn [Py.format_scan]. rewrite (bool_decide_eq_true_2 ("{"%char = "{"%char)) by done.
  rewrite !(bool_decide_eq_false_2 ("}"%char = "{"%char)) by done.
  rewrite (bool_decide_eq_true_2 ("}"%char = "}"%char)) by done.
  by rewrite (bool_decide_eq_true_2 ("" = "")) by done.
Qed.

Lemma render_items_raise (hs1 hs2 : list (string * string)) k v (context : dict) e :
  is_ok (render_items format_tail hs1 context) = true →
  render v context = Raise e →
  render_items format_tail (hs1 ++ (k, v) :: hs2)%list context = Raise e.
Proof.
  intros Hok Hv. induction hs1 as [|[k1 v1] hs1 IH]; cbn [app render_items].
  - by rewrite Hv.
  - cbn [render_items] in Hok. destruct (render v1 context) as [r1|]; [|done]. cbn in *.
    destruct (render_items format_tail hs1 context) as [r|] eqn:Hr; [|done].
    by rewrite IH.
Qed.

(** X20: an empty placeholder is not tolerated. Rendering a string
    value in which literal text is followed by an empty pair of braces
    raises [IndexError], which is neither of the two errors rendering
    passes over; a Webhook step with such a header value (the headers
    before it rendering well) therefore returns the context with that
    error under [error], whatever the transport would do: no request is
    sent. *)
Theorem empty_placeholder_fails_webhook (self : WebhookConnector.t) (context : dict)
    (c : datetime) (hs1 hs2 : list (string * string)) (k s rest : string) :
  plain_text s →
  headers self = app hs1 ((k, s ++ String "{" (String "}" rest)) :: hs2) →
  is_ok (render_items format_tail hs1 context) = true →
  render (s ++ String "{" (String "}" rest)) context
  = Raise (Exn IndexError "Replacement index 0 out of range for positional args tuple")
  ∧ ∀ client_request,
      execute format_tail client_request self context c
      = (Ok (BaseConnector.Fresh
               (<["error" := VStr "Replacement index 0 out of range for positional args tuple"]>
                  context)), c).
Proof.
  intros Hs Hh Hok.
  assert (render (s ++ String "{" (String "}" rest)) context
          = Raise (Exn IndexError
                     "Replacement index 0 out of range for positional args tuple"))
    as Hr.
  { unfold render_str. by rewrite scan_empty_placeholder. }
  split; [done|]. intros client_request.
  unfold execute, attempt, _render_headers. rewrite Hh.
  by rewrite (render_items_raise hs1 hs2 k _ context _ Hok Hr).
Qed.

End Interpolation.

(** * The properties at concrete runs *)

(** The parameters of the examples: no field of a template below is
    compound, no [seconds] is given as a string, every url has a scheme
    and a host, and the webhook target is unreachable. *)
Definition sample_format_tail (s : string) (kwargs : dict) : result string :=
  Raise (Exn ValueError "Invalid format specifier").
Definition sample_int_of_str (s : string) : option Z := None.
Definition sample_has_scheme_and_netloc (s : string) : bool := Py.contains "://" s.
Definition unreachable (clock : datetime) (r : httpx.request) : result httpx.response :=
  Raise (Exn (OtherError "ConnectError") "All connection attempts failed").

(** The host of the examples. Every id is a plain file name
    ([sample_locate]); every workflow file is read; a run is read back
    as it was written; and the serialiser refuses a run whose context
    holds a string with a lone surrogate, as pydantic's does. A byte
    string holds a surrogate (U+D800 to U+DFFF) as the byte 237 followed
    by a byte from 160 on. The text of the error is abridged. *)
Definition sample_workflow_invalid (file : WorkflowDefinition.t) : option string := None.

Fixpoint lone_surrogate (s : string) : bool :=
  match s with
  | String a s' =>
      match s' with
      | String b _ =>
          ((nat_of_ascii a =? 237)%nat && (160 <=? nat_of_ascii b)%nat)
          || lone_surrogate s'
      | EmptyString => false
      end
  | EmptyString => false
  end.

Definition sample_run_json_error (run : WorkflowRun.t) : option exn :=
  if existsb (fun kv => match snd kv with
                        | VStr s => lone_surrogate s
                        | _ => false
                        end) (map_to_list (WorkflowRun.context run))
  then Some (Exn (OtherError "PydanticSerializationError")
               "Error serializing to JSON: UnicodeEncodeError: surrogates not allowed")
  else None.

Definition sample_run_validate (file : WorkflowRun.t) : result WorkflowRun.t := Ok file.

Definition sample_get_workflow :=
  WorkflowEngine.get_workflow sample_locate sample_workflow_invalid.
Definition sample_start_workflow :=
  WorkflowEngine.start_workflow sample_locate sample_workflow_invalid
    sample_locate sample_run_json_error.
Definition sample_get_run := WorkflowEngine.get_run sample_locate sample_run_validate.
Definition sample_list_runs := WorkflowEngine.list_runs sample_run_validate.
Definition sample_loop_body :=
  WorkflowEngine.loop_body sample_format_tail sample_int_of_str
    sample_has_scheme_and_netloc unreachable sample_locate sample_run_json_error.
Definition sample_execute_workflow :=
  WorkflowEngine._execute_workflow sample_format_tail sample_int_of_str
    sample_has_scheme_and_netloc unreachable sample_locate sample_workflow_invalid
    sample_locate sample_run_json_error sample_run_validate.
Definition sample_passes :=
  passes sample_format_tail sample_int_of_str sample_has_scheme_and_netloc unreachable
    sample_locate sample_run_json_error.

(** A chain [A -> B -> C] of delays in which the config of [B] does not
    pass its schema. *)
Definition step_A : StepDefinition.t :=
  StepDefinition.mk "A" StepType.DELAY {[ "seconds" := VInt 2 ]} (Some "B").
Definition step_B : StepDefinition.t :=
  StepDefinition.mk "B" StepType.DELAY {[ "seconds" := VInt 0 ]} (Some "C").
Definition step_C : StepDefinition.t :=
  StepDefinition.mk "C" StepType.DELAY {[ "seconds" := VInt 1 ]} None.
Definition sample_workflow : WorkflowDefinition.t :=
  WorkflowDefinition.mk "wf" "sample" None "A" [step_A; step_B; step_C]
    WorkflowStatus.ACTIVE 0 0.

Definition sample_context : dict := {[ "k" := VStr "v" ]}.

Definition sample_world : WorkflowEngine.world :=
  WorkflowEngine.mk_world {[ "wf.json" := sample_workflow ]} ∅ 100 [].

Definition blank_run : WorkflowRun.t := WorkflowRun.new "" "" RunStatus.PENDING 0.

Definition run_of (r : result WorkflowRun.t) : WorkflowRun.t :=
  match r with Ok run => run | Raise _ => blank_run end.

Definition next_run (p : WorkflowEngine.pass * WorkflowEngine.world) : WorkflowRun.t :=
  match fst p with WorkflowEngine.Next run => run | _ => blank_run end.

Definition sample_started : result WorkflowRun.t * WorkflowEngine.world :=
  sample_start_workflow "run-1" "wf" (Some sample_context) sample_world.
Definition sample_run0 : WorkflowRun.t := run_of (fst sample_started).
Definition sample_w1 : WorkflowEngine.world := snd sample_started.

Definition sample_pass : WorkflowEngine.pass * WorkflowEngine.world :=
  sample_loop_body sample_workflow "A" sample_run0 sample_w1.
Definition sample_run1 : WorkflowRun.t := next_run sample_pass.
Definition sample_w2 : WorkflowEngine.world := snd sample_pass.

(** What the file of run [run_id] records as the output of a step. *)
Definition recorded_output (run_id step_id : string) (w : WorkflowEngine.world)
  : option StepRun.dict_ref :=
  run ← WorkflowEngine.runs w !! FilesystemStorage.entity_file run_id;
  sr ← WorkflowRun.steps run !! step_id;
  StepRun.output sr.

(** The context delta of a step, as the spec words it: the pairs of the
    context after the step that the context before it did not hold. *)
Definition context_delta (before after : dict) : dict :=
  filter (fun kv => before !! fst kv ≠ Some (snd kv)) after.

Definition step_status (step_id : string) (r : result WorkflowRun.t)
  : option StepStatus.t :=
  match r with
  | Ok run => StepRun.status <$> WorkflowRun.steps run !! step_id
  | Raise _ => None
  end.

Definition run_status (r : result WorkflowRun.t) : option RunStatus.t :=
  match r with
  | Ok run => Some (WorkflowRun.status run)
  | Raise _ => None
  end.

Definition run_error (r : result WorkflowRun.t) : option string :=
  match r with
  | Ok run => WorkflowRun.error run
  | Raise _ => None
  end.

Lemma start_workflow_witness :
  ∃ run w', sample_start_workflow "run-1" "wf" (Some sample_context) sample_world
            = (Ok run, w')
            ∧ WorkflowRun.status run = RunStatus.RUNNING
            ∧ WorkflowRun.current_step_id run = Some "A"
            ∧ WorkflowEngine.runs w' !! "run-1.json" = Some run
            ∧ sample_get_run "run-1" w' = Ok run.
Proof.
  destruct (start_workflow_creates_run sample_locate sample_workflow_invalid
              sample_locate sample_run_json_error sample_run_validate
              "run-1" "wf" (Some sample_context) sample_world)
    as [_ Hrun].
  destruct (Hrun sample_workflow) as [Hok _].
  - by vm_compute.
  - done.
  - done.
  - by vm_compute.
  - by vm_compute.
  - destruct Hok as (run & w' & Hs & _ & _ & Hst & Hcur & _ & _ & _ & _ & Hf & Hg & _).
    + by vm_compute.
    + by exists run, w'.
Defined.

(** A context holding the text U+D800, a lone surrogate. *)
Definition surrogate_context : dict :=
  {[ "note" := VStr (String (ascii_of_nat 237)
                       (String (ascii_of_nat 160) (String (ascii_of_nat 128) ""))) ]}.

(** C1 as stated fails on a context that cannot be put into JSON: the
    definition is stored, yet [start_workflow] returns no run; it
    raises the error of the serialiser, after the pending run was
    created: a run file is left, in status pending, with no step
    record, and no execution is scheduled. *)
Lemma start_workflow_counterexample :
  sample_get_workflow "wf" sample_world = Ok sample_workflow
  ∧ fst (sample_start_workflow "run-1" "wf" (Some surrogate_context) sample_world)
    = Raise (Exn (OtherError "PydanticSerializationError")
               "Error serializing to JSON: UnicodeEncodeError: surrogates not allowed")
  ∧ WorkflowEngine.runs
      (snd (sample_start_workflow "run-1" "wf" (Some surrogate_context) sample_world))
    !! "run-1.json"
    = Some (WorkflowRun.new "run-1" "wf" RunStatus.PENDING 100)
  ∧ WorkflowEngine.tasks
      (snd (sample_start_workflow "run-1" "wf" (Some surrogate_context) sample_world))
    = [].
Proof. split_and!; by vm_compute. Qed.





Lemma sample_started_stored : stored (WorkflowRun.run_id sample_run0) sample_w1.
Proof. unfold stored. vm_compute. by eexists. Qed.

Lemma step_output_witness :
  ∃ run1 w1 final sr,
    sample_loop_body sample_workflow "A" sample_run0 sample_w1
    = (WorkflowEngine.Next run1, w1)
    ∧ WorkflowEngine.runs w1 !! "run-1.json" = Some final
    ∧ WorkflowRun.steps final !! "A" = Some sr
    ∧ StepRun.output sr = Some (StepRun.Own sample_context).
Proof.
  destruct (step_output_is_returned_context sample_format_tail sample_int_of_str
              sample_has_scheme_and_netloc unreachable sample_locate
              sample_run_json_error sample_workflow "A" step_A
              sample_run0 sample_w1 BaseConnector.Argument 102)
    as (run1 & w1 & final & Hb & Hf & _ & _ & _ & _ & _ & sr & Hsr & _ & _ & Hout).
  - by vm_compute.
  - by vm_compute.
  - by vm_compute.
  - apply sample_started_stored.
  - by vm_compute.
  - by vm_compute.
  - by vm_compute.
  - by vm_compute.
  - exists run1, w1, final, sr. split_and!; [exact Hb|exact Hf|exact Hsr|].
    rewrite Hout. by vm_compute.
Defined.

(** C5 as stated fails on the sample run: the Delay step [A] adds and
    changes nothing, so the delta of its pass is empty, yet the output
    recorded for it is the whole context. *)
Lemma step_output_counterexample :
  recorded_output "run-1" "A" sample_w2 = Some (StepRun.Own {[ "k" := VStr "v" ]})
  ∧ WorkflowRun.context sample_run0 = {[ "k" := VStr "v" ]}
  ∧ WorkflowRun.context sample_run1 = {[ "k" := VStr "v" ]}
  ∧ context_delta (WorkflowRun.context sample_run0) (WorkflowRun.context sample_run1) = ∅.
Proof. split_and!; by vm_compute. Qed.

Lemma dispatch_witness :
  WorkflowEngine.execute_step_with sample_format_tail sample_int_of_str
    sample_has_scheme_and_netloc unreachable
    [(StepType.DELAY, WorkflowEngine.Delay)]
    (StepDefinition.mk "W" StepType.WEBHOOK ∅ None) ∅ 100
  = (Raise (Exn ValueError "Unsupported step type: StepType.WEBHOOK"), 100)
  ∧ WorkflowEngine._execute_step sample_format_tail sample_int_of_str
      sample_has_scheme_and_netloc unreachable step_B sample_context 100
    = (Raise (pydantic_error "DelayConfig" "seconds" "Input should be greater than 0"), 100)
  ∧ (∃ w' final sr,
       sample_loop_body sample_workflow "B" sample_run1 sample_w2
       = (WorkflowEngine.Return, w')
       ∧ WorkflowEngine.runs w' !! "run-1.json" = Some final
       ∧ WorkflowRun.steps final !! "B" = Some sr
       ∧ StepRun.status sr = StepStatus.FAILED)
  ∧ WorkflowDefinition.construct sample_workflow = Ok sample_workflow.
Proof.
  destruct (dispatch_and_lazy_config sample_format_tail sample_int_of_str
              sample_has_scheme_and_netloc unreachable sample_locate sample_run_json_error
              [(StepType.DELAY, WorkflowEngine.Delay)]
              (StepDefinition.mk "W" StepType.WEBHOOK ∅ None) ∅ 100)
    as (Hunsupported & _).
  destruct (dispatch_and_lazy_config sample_format_tail sample_int_of_str
              sample_has_scheme_and_netloc unreachable sample_locate sample_run_json_error
              WorkflowEngine.CONNECTOR_MAP step_B sample_context 100)
    as (_ & _ & _ & Hparse & _).
  destruct (Hparse
      (pydantic_error "DelayConfig" "seconds" "Input should be greater than 0"))
    as (Hexec & _ & Hpass); [by vm_compute|].
  destruct (Hpass sample_workflow "B" sample_run1 sample_w2)
    as (w' & final & sr & Hb & _ & Hfile & _ & _ & _ & Hsr & Hst & _).
  - by vm_compute.
  - by vm_compute.
  - by vm_compute.
  - unfold stored. vm_compute. by eexists.
  - by vm_compute.
  - by vm_compute.
  - split_and!.
    + by apply Hunsupported.
    + exact Hexec.
    + exists w', final, sr. split_and!; [exact Hb|exact Hfile|exact Hsr|exact Hst].
    + by vm_compute.
Defined.

(** The template [{a}-{b}]. *)
Definition sample_template : list segment :=
  [Placeholder "a"; Text "-"; Placeholder "b"].

Lemma sample_template_plain : Forall plain_segment sample_template.
Proof.
  repeat constructor; try done;
    try (intros [?|?]; discriminate).
Qed.

Lemma interpolation_witness :
  WebhookConnector.render_str sample_format_tail "{a}-{b}"
    {[ "a" := VStr "1"; "b" := VInt 2 ]} = Ok "1-2"
  ∧ WebhookConnector.render_str sample_format_tail "{a}-{b}" {[ "a" := VStr "1" ]}
    = Ok "{a}-{b}".
Proof.
  split.
  - destruct (interpolation_whole_string sample_format_tail
                {[ "a" := VStr "1"; "b" := VInt 2 ]} sample_template
                sample_template_plain) as (Hr & _).
    + repeat constructor; intros v Hv; vm_compute in Hv; by injection Hv as <-.
    + exact Hr.
  - destruct (interpolation_whole_string sample_format_tail
                {[ "a" := VStr "1" ]} sample_template
                sample_template_plain) as (Hr & _).
    + repeat constructor; intros v Hv; vm_compute in Hv;
        [by injection Hv as <-|done].
    + exact Hr.
Defined.

(** C6 as stated fails on [{a}-{b}] under a context that has [a] and
    lacks [b]: the placeholder [{a}] is not replaced, the string comes
    back whole; this holds for a body value and for a header alike. *)
Lemma interpolation_counterexample :
  WebhookConnector._render_value sample_format_tail (VStr "{a}-{b}") {[ "a" := VStr "1" ]}
  = Ok (VStr "{a}-{b}")
  ∧ WebhookConnector.render_items sample_format_tail [("X-Ref", "{a}-{b}")]
      {[ "a" := VStr "1" ]}
    = Ok [("X-Ref", "{a}-{b}")]
  ∧ ({[ "a" := VStr "1" ]} : dict) !! "a" = Some (VStr "1").
Proof. split_and!; by vm_compute. Qed.

(** A workflow of one webhook step whose target cannot be reached. *)
Definition step_W : StepDefinition.t :=
  StepDefinition.mk "W" StepType.WEBHOOK {[ "url" := VStr "http://down.example/hook" ]} None.
Definition webhook_workflow : WorkflowDefinition.t :=
  WorkflowDefinition.mk "hook" "sample" None "W" [step_W] WorkflowStatus.ACTIVE 0 0.
Definition webhook_world : WorkflowEngine.world :=
  WorkflowEngine.mk_world {[ "hook.json" := webhook_workflow ]} ∅ 100 [].

(** The run as persisted after a whole execution, started with the
    given context. *)
Definition executed (context : dict) : result WorkflowRun.t :=
  let w1 := snd (sample_start_workflow "run-1" "hook" (Some context) webhook_world) in
  sample_get_run "run-1" (snd (sample_execute_workflow 5 "run-1" w1)).

(** C3 at a context that has the key [self]: the connector does return
    the context with an added [error] key, but merging that output calls
    [update_context] by keyword, the key collides with the method's own
    first parameter, and the step and the run are marked failed. Under
    a context without that key the same step is completed and the run
    completes. *)
Theorem webhook_step_fails_on_self_key :
  fst (WorkflowEngine._execute_step sample_format_tail sample_int_of_str
         sample_has_scheme_and_netloc unreachable step_W {[ "self" := VStr "x" ]} 100)
  = Ok (BaseConnector.Fresh
          {[ "self" := VStr "x"; "error" := VStr "All connection attempts failed" ]})
  ∧ step_status "W" (executed {[ "self" := VStr "x" ]}) = Some StepStatus.FAILED
  ∧ run_status (executed {[ "self" := VStr "x" ]}) = Some RunStatus.FAILED
  ∧ run_error (executed {[ "self" := VStr "x" ]})
    = Some "Step W failed: WorkflowRun.update_context() got multiple values for argument 'self'"
  ∧ step_status "W" (executed {[ "k" := VStr "v" ]}) = Some StepStatus.COMPLETED
  ∧ run_status (executed {[ "k" := VStr "v" ]}) = Some RunStatus.COMPLETED.
Proof. split_and!; by vm_compute. Qed.

Definition webhook_started : result WorkflowRun.t * WorkflowEngine.world :=
  sample_start_workflow "run-1" "hook" (Some sample_context) webhook_world.

Lemma webhook_step_witness :
  ∃ run1 w1 final,
    sample_loop_body webhook_workflow "W"
      (run_of (fst webhook_started)) (snd webhook_started)
    = (WorkflowEngine.Next run1, w1)
    ∧ WorkflowEngine.runs w1 !! "run-1.json" = Some final
    ∧ step_status "W" (Ok final) = Some StepStatus.COMPLETED.
Proof.
  destruct (webhook_step_completes sample_format_tail sample_int_of_str
              sample_has_scheme_and_netloc unreachable sample_locate
              sample_run_json_error webhook_workflow "W" step_W
              (WebhookConfig.mk "webhook" "http://down.example/hook" "POST" [] None)
              (run_of (fst webhook_started)) (snd webhook_started))
    as (d & run1 & w1 & final & sr & Hexec & Hrun1 & Hfile & Hsr & Hcase).
  - by vm_compute.
  - by vm_compute.
  - by vm_compute.
  - unfold stored. vm_compute. by eexists.
  - done.
  - by vm_compute.
  - by vm_compute.
  - by vm_compute.
  - vm_compute in Hexec. injection Hexec as <-.
    assert (unwritable sample_run_json_error run1 = None) as Hw
      by (rewrite Hrun1; by vm_compute).
    rewrite Hw in Hcase. destruct Hcase as (Hb & _ & _ & Hst).
    exists run1, w1, final. split_and!; [exact Hb|exact Hfile|].
    unfold step_status. rewrite Hsr. cbn. by rewrite Hst.
Defined.

(** ** Further runs *)

(** A chain [P -> Q] of a delay and a webhook whose target cannot be
    reached, and a step [R] that the chain does not reach. *)
Definition step_P : StepDefinition.t :=
  StepDefinition.mk "P" StepType.DELAY {[ "seconds" := VInt 2 ]} (Some "Q").
Definition step_Q : StepDefinition.t :=
  StepDefinition.mk "Q" StepType.WEBHOOK {[ "url" := VStr "http://down.example/hook" ]} None.
Definition step_R : StepDefinition.t :=
  StepDefinition.mk "R" StepType.DELAY {[ "seconds" := VInt 1 ]} None.
Definition chain_workflow : WorkflowDefinition.t :=
  WorkflowDefinition.mk "chain" "sample" None "P" [step_P; step_Q; step_R]
    WorkflowStatus.ACTIVE 0 0.
Definition chain_world : WorkflowEngine.world :=
  WorkflowEngine.mk_world {[ "chain.json" := chain_workflow ]} ∅ 100 [].

Definition chain_started : result WorkflowRun.t * WorkflowEngine.world :=
  sample_start_workflow "run-1" "chain" (Some sample_context) chain_world.
Definition chain_run0 : WorkflowRun.t := run_of (fst chain_started).
Definition chain_w1 : WorkflowEngine.world := snd chain_started.
Definition chain_pass1 : WorkflowEngine.pass * WorkflowEngine.world :=
  sample_loop_body chain_workflow "P" chain_run0 chain_w1.
Definition chain_run1 : WorkflowRun.t := next_run chain_pass1.
Definition chain_w2 : WorkflowEngine.world := snd chain_pass1.
Definition chain_pass2 : WorkflowEngine.pass * WorkflowEngine.world :=
  sample_loop_body chain_workflow "Q" chain_run1 chain_w2.
Definition chain_run2 : WorkflowRun.t := next_run chain_pass2.
Definition chain_w3 : WorkflowEngine.world := snd chain_pass2.

Lemma chain_started_stored : stored (WorkflowRun.run_id chain_run0) chain_w1.
Proof. unfold stored. vm_compute. by eexists. Qed.

Lemma chain_tail_passes :
  sample_passes chain_workflow chain_run1 chain_w2 ["Q"] chain_run2 chain_w3.
Proof.
  apply passes_cons with (run1 := chain_run2) (w1 := chain_w3);
    [by vm_compute|by vm_compute|apply passes_nil].
Qed.

Lemma chain_passes :
  sample_passes chain_workflow chain_run0 chain_w1 ["P"; "Q"] chain_run2 chain_w3.
Proof.
  apply passes_cons with (run1 := chain_run1) (w1 := chain_w2);
    [by vm_compute|by vm_compute|apply chain_tail_passes].
Qed.

Lemma get_step_closed_witness :
  WorkflowDefinition.get_step chain_workflow "Q" = Some step_Q
  ∧ is_Some (WorkflowDefinition.get_step chain_workflow "P").
Proof.
  destruct (get_step_closed chain_workflow) as (Hfound & _ & Hentry & _).
  - by vm_compute.
  - split; [|exact Hentry]. apply (Hfound step_Q). set_solver.
Defined.

Lemma context_keys_preserved_witness :
  WorkflowRun.context chain_run2 !! "k" = WorkflowRun.context chain_run0 !! "k"
  ∧ WorkflowRun.context chain_run0 !! "k" = Some (VStr "v").
Proof.
  destruct (context_keys_preserved sample_format_tail sample_int_of_str
              sample_has_scheme_and_netloc unreachable sample_locate sample_run_json_error
              chain_workflow chain_run0 chain_w1 ["P"; "Q"] chain_run2 chain_w3 "k")
    as (_ & Hsame).
  - apply chain_passes.
  - by vm_compute.
  - apply chain_started_stored.
  - split; [by apply Hsame|by vm_compute].
Defined.

Lemma run_completes_witness :
  ∃ final w',
    sample_execute_workflow 2 "run-1" chain_w1 = (WorkflowEngine.Completed, w')
    ∧ WorkflowEngine.runs w' !! "run-1.json" = Some final
    ∧ WorkflowRun.status final = RunStatus.COMPLETED
    ∧ WorkflowRun.steps final !! "R" = Some (StepRun.new "R").
Proof.
  destruct (run_completes sample_format_tail sample_int_of_str
              sample_has_scheme_and_netloc unreachable
              sample_locate sample_workflow_invalid sample_locate
              sample_run_json_error sample_run_validate
              "run-1" "chain" (Some sample_context) chain_world chain_w1 chain_w3
              chain_workflow chain_run0 chain_run2 ["P"; "Q"])
    as (final & w' & Hfuel & Hfile & _ & Hst & _ & _ & _ & Hpending & _).
  - by vm_compute.
  - done.
  - done.
  - by vm_compute.
  - by vm_compute.
  - by vm_compute.
  - apply chain_passes.
  - by vm_compute.
  - by vm_compute.
  - exists final, w'. split_and!; [apply Hfuel; cbn; lia|exact Hfile|exact Hst|].
    apply Hpending; [cbn; set_solver|set_solver].
Defined.

Lemma started_run_outcomes_witness :
  ∃ w',
    (∃ final,
       WorkflowEngine.runs w' !! "run-1.json" = Some final
       ∧ ((sample_execute_workflow 5 "run-1" sample_w1 = (WorkflowEngine.Completed, w')
           ∧ WorkflowRun.status final = RunStatus.COMPLETED)
          ∨ (sample_execute_workflow 5 "run-1" sample_w1 = (WorkflowEngine.StepFailed, w')
             ∧ WorkflowRun.status final = RunStatus.FAILED)
          ∨ (sample_execute_workflow 5 "run-1" sample_w1 = (WorkflowEngine.Unfinished, w')
             ∧ WorkflowRun.status final = RunStatus.RUNNING)))
    ∨ (∃ e r, sample_execute_workflow 5 "run-1" sample_w1 = (WorkflowEngine.Crashed e, w')
              ∧ unwritable sample_run_json_error r = Some e).
Proof.
  apply (started_run_outcomes sample_format_tail sample_int_of_str
           sample_has_scheme_and_netloc unreachable
           sample_locate sample_workflow_invalid sample_locate
           sample_run_json_error sample_run_validate
           "run-1" "wf" (Some sample_context) sample_world sample_w1
           sample_workflow sample_run0 5).
  - by vm_compute.
  - done.
  - done.
  - by vm_compute.
  - by vm_compute.
  - by vm_compute.
Defined.




(** A definition whose only step, and entry point, has the empty id. *)
Definition quiet_workflow : WorkflowDefinition.t :=
  WorkflowDefinition.mk "quiet" "sample" None ""
    [StepDefinition.mk "" StepType.DELAY {[ "seconds" := VInt 1 ]} None]
    WorkflowStatus.ACTIVE 0 0.
Definition quiet_world : WorkflowEngine.world :=
  WorkflowEngine.mk_world {[ "quiet.json" := quiet_workflow ]} ∅ 100 [].
Definition quiet_started : result WorkflowRun.t * WorkflowEngine.world :=
  sample_start_workflow "run-1" "quiet" None quiet_world.

Lemma empty_entry_point_runs_nothing_witness :
  WorkflowDefinition.construct quiet_workflow = Ok quiet_workflow
  ∧ ∃ w' final,
      sample_execute_workflow 3 "run-1" (snd quiet_started)
      = (WorkflowEngine.Completed, w')
      ∧ WorkflowEngine.runs w' !! "run-1.json" = Some final
      ∧ WorkflowRun.steps final !! "" = Some (StepRun.new "").
Proof.
  split; [by vm_compute|].
  destruct (empty_entry_point_runs_nothing sample_format_tail sample_int_of_str
              sample_has_scheme_and_netloc unreachable
              sample_locate sample_workflow_invalid sample_locate
              sample_run_json_error sample_run_validate
              "run-1" "quiet" None quiet_world (snd quiet_started)
              quiet_workflow (run_of (fst quiet_started)) 3)
    as (w' & final & Hexec & Hfile & _ & Hstep & _).
  - by vm_compute.
  - done.
  - done.
  - by vm_compute.
  - by vm_compute.
  - by vm_compute.
  - done.
  - by vm_compute.
  - exists w', final. split_and!; [exact Hexec|exact Hfile|exact Hstep].
Defined.

(** The started sample run in a world whose definitions are gone. *)
Definition orphan_world : WorkflowEngine.world :=
  WorkflowEngine.mk_world ∅ {[ "run-1.json" := sample_run0 ]} 100 [].

Lemma crashed_run_is_failed_witness :
  ∃ w' final,
    sample_execute_workflow 4 "run-1" orphan_world
    = (WorkflowEngine.Crashed
         (Exn NotFoundError "WorkflowDefinition with ID wf not found."), w')
    ∧ WorkflowEngine.runs w' !! "run-1.json" = Some final
    ∧ WorkflowRun.status final = RunStatus.FAILED
    ∧ WorkflowRun.error final = Some "WorkflowDefinition with ID wf not found.".
Proof.
  destruct (crashed_run_is_failed sample_format_tail sample_int_of_str
              sample_has_scheme_and_netloc unreachable
              sample_locate sample_workflow_invalid sample_locate
              sample_run_json_error sample_run_validate 4 "run-1" orphan_world)
    as (_ & Hgone).
  destruct (Hgone sample_run0
              (Exn NotFoundError "WorkflowDefinition with ID wf not found."))
    as (Hexec & final & Hfile & Hst & Herr & _).
  - done.
  - done.
  - unfold stored. vm_compute. by eexists.
  - by vm_compute.
  - by vm_compute.
  - by vm_compute.
  - assert (unwritable sample_run_json_error
              (crashed_run (Exn NotFoundError "WorkflowDefinition with ID wf not found.")
                 (WorkflowEngine.clock orphan_world) sample_run0) = None) as Hw
      by (by vm_compute).
    rewrite Hw in Hexec.
    eexists _, final. split_and!; [exact Hexec|exact Hfile|exact Hst|exact Herr].
Defined.

Lemma failed_start_trace_witness :
  snd (sample_start_workflow "run-1" "nope" None sample_world) = sample_world
  ∧ WorkflowEngine.tasks
      (snd (sample_start_workflow "run-1" "wf" (Some surrogate_context) sample_world))
    = []
  ∧ WorkflowEngine.runs
      (snd (sample_start_workflow "run-1" "wf" (Some surrogate_context) sample_world))
    = {[ "run-1.json" := WorkflowRun.new "run-1" "wf" RunStatus.PENDING 100 ]}.
Proof.
  destruct (failed_start_trace sample_locate sample_workflow_invalid
              sample_locate sample_run_json_error
              "run-1" "wf" (Some surrogate_context) sample_world
              (snd (sample_start_workflow "run-1" "wf" (Some surrogate_context)
                      sample_world))
              (Exn (OtherError "PydanticSerializationError")
                 "Error serializing to JSON: UnicodeEncodeError: surrogates not allowed"))
    as (Htasks & _ & _ & _); [by vm_compute|].
  split_and!; [by vm_compute|exact Htasks|by vm_compute].
Defined.

Lemma delay_output_follows_context_witness :
  ∃ final sr,
    WorkflowEngine.runs chain_w3 !! "run-1.json" = Some final
    ∧ WorkflowRun.steps final !! "P" = Some sr
    ∧ StepRun.output sr
      = Some (StepRun.Own {[ "k" := VStr "v";
                             "error" := VStr "All connection attempts failed" ]}).
Proof.
  destruct (delay_output_follows_context sample_format_tail sample_int_of_str
              sample_has_scheme_and_netloc unreachable sample_locate sample_run_json_error
              chain_workflow "P" step_P chain_run0 chain_w1 chain_run1 chain_w2
              ["Q"] chain_run2 chain_w3)
    as (final & sr & Hfile & _ & Hsr & _ & Hout).
  - by vm_compute.
  - by vm_compute.
  - apply chain_started_stored.
  - by vm_compute.
  - done.
  - by vm_compute.
  - by vm_compute.
  - apply chain_tail_passes.
  - set_solver.
  - exists final, sr. split_and!; [exact Hfile|exact Hsr|].
    rewrite Hout. by vm_compute.
Defined.

Lemma started_run_is_listed_witness :
  sample_run0 ∈ sample_list_runs (Some "wf") sample_w1
  ∧ sample_run0 ∉ sample_list_runs (Some "chain") sample_w1.
Proof.
  destruct (started_run_is_listed sample_locate sample_workflow_invalid
              sample_locate sample_run_json_error sample_run_validate
              "run-1" "wf" (Some sample_context) sample_world
              sample_w1 sample_workflow sample_run0) as (Hin & _ & Hout).
  - by vm_compute.
  - done.
  - done.
  - by vm_compute.
  - by vm_compute.
  - by vm_compute.
  - by vm_compute.
  - split; [exact Hin|by apply Hout].
Defined.

Lemma get_workflow_or_none_missing_witness :
  FilesystemStorage.get_workflow_or_none sample_locate
    (WorkflowEngine.load_workflow sample_workflow_invalid) "nope"
    (WorkflowEngine.workflows sample_world) = Ok None
  ∧ FilesystemStorage.get_workflow_or_none sample_locate
      (WorkflowEngine.load_workflow sample_workflow_invalid) "wf"
      (WorkflowEngine.workflows sample_world) = Ok (Some sample_workflow).
Proof.
  split.
  - destruct (get_workflow_or_none_missing sample_locate sample_workflow_invalid
                "nope" "nope.json" sample_world) as (Hnone & _); [done|].
    apply Hnone. by vm_compute.
  - destruct (get_workflow_or_none_missing sample_locate sample_workflow_invalid
                "wf" "wf.json" sample_world) as (_ & Hsome & _); [done|].
    apply Hsome. split_and!; [by vm_compute|done|].
    apply construct_ok_iff. by vm_compute.
Defined.

(** The value [{{customer_email}}] of the sample workflow's body. *)
Definition sample_pieces : list piece :=
  [OpenBrace; Seg (Text "customer_email"); CloseBrace].

Lemma sample_pieces_plain : Forall plain_piece sample_pieces.
Proof.
  repeat constructor; try done; try (intros [?|?]; discriminate).
Qed.

Lemma doubled_braces_are_escapes_witness :
  WebhookConnector.render_str sample_format_tail "{{customer_email}}"
    {[ "customer_email" := VStr "a@b.example" ]}
  = Ok "{customer_email}".
Proof.
  destruct (doubled_braces_are_escapes sample_format_tail
              {[ "customer_email" := VStr "a@b.example" ]} sample_pieces
              sample_pieces_plain) as (Hr & _).
  - by repeat constructor.
  - exact Hr.
Defined.

Definition bracing_connector : WebhookConnector.t :=
  WebhookConnector.mk
    (WebhookConfig.mk "webhook" "http://up.example/hook" "POST" [("X-Filter", "all{}")] None)
    "http://up.example/hook" "POST" [("X-Filter", "all{}")] None.

Definition reachable (clock : datetime) (r : httpx.request) : result httpx.response :=
  Ok (httpx.mk_response 200 [] "ok" (Ok VNone) "").

Lemma bracing_plain : plain_text "all".
Proof. repeat constructor; intros [?|?]; discriminate. Qed.

Lemma empty_placeholder_fails_webhook_witness :
  WebhookConnector.execute sample_format_tail reachable bracing_connector sample_context 100
  = (Ok (BaseConnector.Fresh
           (<["error" := VStr "Replacement index 0 out of range for positional args tuple"]>
              sample_context)), 100).
Proof.
  destruct (empty_placeholder_fails_webhook sample_format_tail bracing_connector
              sample_context 100 [] [] "X-Filter" "all" "" bracing_plain eq_refl eq_refl)
    as (_ & Hexec).
  apply Hexec.
Defined.

Lemma webhook_config_normalised_witness :
  ∃ c, WebhookConfig.parse sample_has_scheme_and_netloc
         {[ "url" := VStr "http://up.example/hook"; "method" := VStr "get" ]} = Ok c
       ∧ WebhookConnector.method (WebhookConnector.init c) = "GET".
Proof.
  exists (WebhookConfig.mk "webhook" "http://up.example/hook" "GET" [] None).
  destruct (webhook_config_normalised sample_has_scheme_and_netloc
              {[ "url" := VStr "http://up.example/hook"; "method" := VStr "get" ]}
              (WebhookConfig.mk "webhook" "http://up.example/hook" "GET" [] None))
    as (_ & _ & _ & Hmethod & _).
  - by vm_compute.
  - split; [by vm_compute|exact Hmethod].
Defined.

(** The started sample run, standing at a step the definition lacks. *)
Definition stray_run : WorkflowRun.t :=
  WorkflowRun.set_current_step_id (Some "Z") sample_run0.
Definition stray_world : WorkflowEngine.world :=
  WorkflowEngine.mk_world {[ "wf.json" := sample_workflow ]}
    {[ "run-1.json" := stray_run ]} 100 [].

Lemma unknown_step_crashes_witness :
  ∃ w' final,
    sample_execute_workflow 1 "run-1" stray_world
    = (WorkflowEngine.Crashed (Exn ValueError "Step Z not found in workflow wf"), w')
    ∧ WorkflowEngine.runs w' !! "run-1.json" = Some final
    ∧ WorkflowRun.status final = RunStatus.FAILED.
Proof.
  destruct (unknown_step_crashes sample_format_tail sample_int_of_str
              sample_has_scheme_and_netloc unreachable
              sample_locate sample_workflow_invalid sample_locate
              sample_run_json_error sample_run_validate
              0 "run-1" "Z" stray_world stray_run sample_workflow)
    as (Hexec & final & Hfile & Hst & _).
  - done.
  - done.
  - unfold stored. vm_compute. by eexists.
  - by vm_compute.
  - by vm_compute.
  - by vm_compute.
  - by vm_compute.
  - cbn. set_solver.
  - assert (unwritable sample_run_json_error
              (crashed_run (Exn ValueError "Step Z not found in workflow wf")
                 (WorkflowEngine.clock stray_world) stray_run) = None) as Hw
      by (by vm_compute).
    change ("Step " ++ "Z" ++ " not found in workflow " ++ WorkflowDefinition.id sample_workflow)
      with "Step Z not found in workflow wf" in Hexec, Hfile.
    rewrite Hw in Hexec.
    eexists _, final. split_and!; [exact Hexec|exact Hfile|exact Hst].
Defined.

Lemma completed_run_duration_witness :
  ∃ final w' d,
    sample_execute_workflow 2 "run-1" chain_w1 = (WorkflowEngine.Completed, w')
    ∧ WorkflowEngine.runs w' !! "run-1.json" = Some final
    ∧ WorkflowRun.duration_seconds final = Some d
    ∧ 2 ≤ d.
Proof.
  destruct (completed_run_duration sample_format_tail sample_int_of_str
              sample_has_scheme_and_netloc unreachable
              sample_locate sample_workflow_invalid sample_locate
              sample_run_json_error sample_run_validate
              "run-1" "chain" (Some sample_context) chain_world chain_w1 chain_w3
              chain_workflow chain_run0 chain_run2 ["P"; "Q"])
    as (final & w' & d & Hexec & Hfile & Hd & Hle).
  - by vm_compute.
  - done.
  - done.
  - by vm_compute.
  - by vm_compute.
  - by vm_compute.
  - apply chain_passes.
  - by vm_compute.
  - by vm_compute.
  - exists final, w', d. split_and!; [exact Hexec|exact Hfile|exact Hd|].
    assert (delays sample_int_of_str chain_workflow ["P"; "Q"] = 2) as Hsum
      by (by vm_compute).
    rewrite Hsum in Hle. lia.
Defined.

Lemma delay_step_duration_witness :
  ∃ run1 w1 final sr d,
    sample_loop_body chain_workflow "P" chain_run0 chain_w1 = (WorkflowEngine.Next run1, w1)
    ∧ WorkflowEngine.runs w1 !! "run-1.json" = Some final
    ∧ WorkflowRun.steps final !! "P" = Some sr
    ∧ StepRun.duration_seconds sr = Some d
    ∧ 2 ≤ d.
Proof.
  destruct (delay_step_duration sample_format_tail sample_int_of_str
              sample_has_scheme_and_netloc unreachable sample_locate sample_run_json_error
              chain_workflow "P" step_P (DelayConfig.mk "delay" 2) chain_run0 chain_w1)
    as (run1 & w1 & final & sr & d & Hb & Hfile & _ & Hsr & _ & Hd & Hle).
  - by vm_compute.
  - by vm_compute.
  - by vm_compute.
  - apply chain_started_stored.
  - done.
  - by vm_compute.
  - by vm_compute.
  - by vm_compute.
  - by vm_compute.
  - by vm_compute.
  - exists run1, w1, final, sr, d.
    split_and!; [exact Hb|exact Hfile|exact Hsr|exact Hd|].
    change (0 < 2 ≤ d) in Hle. lia.
Defined.

Lemma response_recorded_only_on_2xx_witness :
  ∃ request response,
    reachable 100 request = Ok response
    ∧ httpx.method request = "GET"
    ∧ httpx.url request = "http://up.example/hook"
    ∧ httpx.status_code response = 200.
Proof.
  destruct (response_recorded_only_on_2xx sample_format_tail reachable
              (WebhookConnector.init
                 (WebhookConfig.mk "webhook" "http://up.example/hook" "GET" [] None))
              sample_context 100
              (<["response" := WebhookConnector.response_value
                                 (httpx.mk_response 200 [] "ok" (Ok VNone) "")
                                 (VStr "ok")]> sample_context))
    as (request & response & b & Hreq & Hmethod & Hurl & _).
  - by vm_compute.
  - by vm_compute.
  - exists request, response. split_and!; [exact Hreq|exact Hmethod|exact Hurl|].
    unfold reachable in Hreq. by injection Hreq as <-.
Defined.
